(** * The resumable, rate-limited batch runner of the KBLI pilot study

    A shallow embedding of
      - [src/api/gemini_client.py]   (registry, rate governor, remote-call executor,
                                      connection test),
      - [src/utils/json_parser.py]   (payload extraction, ledger append and reload,
                                      success rate, validation of a ledger file),
      - [src/pipeline/pilot_runner.py] (prompt builder, records, batch orchestrator),
      - [src/data/data_loader.py]    (codebook lookup),
    followed by the properties of the natural-language specification, and by
    further properties of the code.

    Conventions of the embedding.
      - A Python [str] is a [string] whose characters are the code points
        below 256; a Python [int] is a [Z]; a Python [float] is a binary64
        [float].
      - A Python value that ends up in a JSON record is a [pyval]; a [dict]
        with string keys is a [gmap string pyval].
      - An exception is an [exn]: the name of its class and its message
        ([type(e).__name__] and [str(e)]), the two things the code reads.
      - Effects (remote requests, sleeps, ledger appends) are threaded through
        an explicit [world]; what the outside does (the service's replies,
        whether a write succeeds, the clock, the JSON decoder of the Python
        library, the limits of [int()] and [time.sleep()]) is read from an
        [env]. [print] calls are left out.
      - The generation parameters (temperature, top-p, top-k, output length)
        are handed to the service unchanged and decide nothing in the code;
        they are left out. The codebook, the test data and the template are
        given as loaded.
      - The ledger file is the sequence of the pieces of text it is made of:
        whole lines, each given by what a reader makes of it (also when
        reading it raises), and possibly a last line that was cut off before
        its line end, which the next append runs into. An append that
        reports success adds the whole line of its record. An append that
        reports failure is taken to leave the file as it was; a write that
        breaks off halfway and leaves a piece of a record behind is not
        followed, and the properties about what an append leaves in the file
        are stated for appends that report success. *)

From Stdlib Require Import ZArith Ascii Floats.PrimFloat Floats.FloatOps Floats.SpecFloat Uint63.
From stdpp Require Import gmap strings list pretty.
From stdpp Require Import sorting.

#[local] Open Scope Z_scope.
#[local] Set Warnings "-inexact-float,-register-all".

(** ** Strings *)

Module Str.

Definition nl : string := String (ascii_of_nat 10) EmptyString.

(** [needle in hay] *)
Fixpoint contains (needle hay : string) : bool :=
  String.prefix needle hay ||
  match hay with
  | EmptyString => false
  | String _ rest => contains needle rest
  end.

(** The characters [str.isspace] accepts (also what [\s] matches): the
    ASCII blanks and separators, U+0085 and U+00A0. *)
Definition is_space (c : ascii) : bool :=
  let n := nat_of_ascii c in
  ((9 <=? n) && (n <=? 13) || (28 <=? n) && (n <=? 32) || (n =? 133) || (n =? 160))%nat.

Definition is_digit (c : ascii) : bool :=
  let n := nat_of_ascii c in ((48 <=? n) && (n <=? 57))%nat.

Fixpoint lstrip (s : string) : string :=
  match s with
  | String c rest => if is_space c then lstrip rest else s
  | EmptyString => EmptyString
  end.

(** [rstrip] keeps a character when something that is not a blank follows. *)
Fixpoint rstrip (s : string) : string :=
  match s with
  | EmptyString => EmptyString
  | String c rest =>
      match rstrip rest with
      | EmptyString => if is_space c then EmptyString else String c EmptyString
      | t => String c t
      end
  end.

Definition strip (s : string) : string := rstrip (lstrip s).

(** [c.lower()]: the capital letters are A-Z and U+00C0-U+00DE without the
    multiplication sign U+00D7. *)
Definition lower_char (c : ascii) : ascii :=
  let n := nat_of_ascii c in
  if ((65 <=? n) && (n <=? 90) || (192 <=? n) && (n <=? 222) && negb (n =? 215))%nat
  then ascii_of_nat (n + 32) else c.

Fixpoint lower (s : string) : string :=
  match s with
  | EmptyString => EmptyString
  | String c rest => String (lower_char c) (lower rest)
  end.

Fixpoint drop (n : nat) (s : string) : string :=
  match n, s with
  | S m, String _ rest => drop m rest
  | _, _ => s
  end.

(** [s[:n]] *)
Fixpoint take (n : nat) (s : string) : string :=
  match n, s with
  | S m, String c rest => String c (take m rest)
  | _, _ => EmptyString
  end.

(** [s.replace(old, new)] for a non-empty [old]: left to right, occurrences
    do not overlap. [fuel] bounds the number of steps by the length of [s]. *)
Fixpoint replace_from (fuel : nat) (old new s : string) : string :=
  match fuel with
  | O => s
  | S fuel' =>
      if String.prefix old s
      then new +:+ replace_from fuel' old new (drop (String.length old) s)
      else match s with
           | EmptyString => EmptyString
           | String c rest => String c (replace_from fuel' old new rest)
           end
  end.

Definition replace (old new s : string) : string :=
  replace_from (S (String.length s)) old new s.

(** [chr(10).join(lines)] *)
Fixpoint join_lines (lines : list string) : string :=
  match lines with
  | [] => EmptyString
  | [l] => l
  | l :: rest => l +:+ nl +:+ join_lines rest
  end.

(** The value of a run of decimal digits at the head of [s], continuing [acc],
    and how many digits were read. *)
Fixpoint read_digits (s : string) (acc : Z) (n : nat) : Z * nat :=
  match s with
  | String c rest =>
      if is_digit c
      then read_digits rest (10 * acc + Z.of_nat (nat_of_ascii c - 48)) (S n)
      else (acc, n)
  | EmptyString => (acc, n)
  end.

End Str.

(** ** Python values *)

Inductive pyval :=
| PNone
| PBool (b : bool)
| PInt (z : Z)
| PFloat (f : float)
| PStr (s : string)
| PList (l : list pyval)
| PDict (d : gmap string pyval).

(** [bool(v)] *)
Definition truthy (v : pyval) : bool :=
  match v with
  | PNone => false
  | PBool b => b
  | PInt z => negb (z =? 0)
  | PFloat f => negb (PrimFloat.eqb f 0%float)
  | PStr s => negb (String.eqb s EmptyString)
  | PList l => match l with [] => false | _ => true end
  | PDict d => negb (bool_decide (size d = 0%nat))
  end.

(** An exception, as far as the code looks at it. *)
Record exn := Exn { exn_type : string; exn_msg : string }.

Inductive outcome (A : Type) :=
| Ret (a : A)
| Raise (e : exn).
Arguments Ret {A} a.
Arguments Raise {A} e.

#[global] Instance outcome_ret : MRet outcome := λ A a, Ret a.
#[global] Instance outcome_bind : MBind outcome := λ A B f m,
  match m with
  | Ret a => f a
  | Raise e => Raise e
  end.

(** [float(z)], exact for an integer below 2^53 in absolute value (the
    conversion goes through the 63-bit machine integers). *)
Definition float_of_Z (z : Z) : float :=
  if 0 <=? z then PrimFloat.of_uint63 (Uint63.of_Z z)
  else PrimFloat.opp (PrimFloat.of_uint63 (Uint63.of_Z (- z))).

(** [x / v] for a float [x]: true division of Python. *)
Definition float_truediv (x : float) (v : pyval) : outcome float :=
  let by_int (z : Z) :=
    if z =? 0 then Raise (Exn "ZeroDivisionError" "float division by zero")
    else Ret (PrimFloat.div x (float_of_Z z)) in
  match v with
  | PInt z => by_int z
  | PBool b => by_int (if b then 1 else 0)
  | PFloat f =>
      if PrimFloat.eqb f 0%float
      then Raise (Exn "ZeroDivisionError" "float division by zero")
      else Ret (PrimFloat.div x f)
  | _ => Raise (Exn "TypeError" "unsupported operand type(s) for /")
  end.

(** ** gemini_client.py: the registry and the rate governor *)

Definition AVAILABLE_MODELS : gmap string (gmap string pyval) :=
  {[ "models/gemini-1.5-flash-latest" :=
       {[ "rpm" := PInt 15; "description" := PStr "Gemini 1.5 Flash (Latest)" ]};
     "models/gemini-1.5-pro-latest" :=
       {[ "rpm" := PInt 2; "description" := PStr "Gemini 1.5 Pro (Latest)" ]};
     "models/gemini-2.5-flash-lite" :=
       {[ "rpm" := PInt 15; "description" := PStr "Gemini 2.5 Flash Lite" ]} ]}.

Definition DEFAULT_MAX_RETRIES : Z := 3.
Definition DEFAULT_RETRY_DELAY : Z := 2.

(** [AVAILABLE_MODELS.get(model_name, {}).get("rpm", 15)] *)
Definition registered_rpm (model_name : string) : pyval :=
  default (PInt 15) (default ∅ (AVAILABLE_MODELS !! model_name) !! "rpm").

(** [(60.0 / rpm) * 1.1] *)
Definition get_rate_limit_delay (model_name : string) : outcome float :=
  match float_truediv 60%float (registered_rpm model_name) with
  | Ret q => Ret (PrimFloat.mul q 1.1%float)
  | Raise e => Raise e
  end.

(** The server-suggested wait in an error text:
    [re.search(r'retry_delay.*?seconds: (\d+)', error_str)], group 1, a run of
    digits, given by its value and its length.
    [seconds_after s] scans what follows [retry_delay]: the lazy [.*?] stops at
    the first place where [seconds: ] and a digit follow, and [.] does not
    cross a line end. *)
Fixpoint seconds_after (s : string) : option (Z * nat) :=
  let here :=
    if String.prefix "seconds: " s then
      match Str.read_digits (Str.drop 9 s) 0 0 with
      | (_, O) => None
      | (v, S n) => Some (v, S n)
      end
    else None in
  match here with
  | Some g => Some g
  | None =>
      match s with
      | EmptyString => None
      | String c rest =>
          if Ascii.eqb c (ascii_of_nat 10) then None else seconds_after rest
      end
  end.

Fixpoint retry_delay_search (s : string) : option (Z * nat) :=
  let here :=
    if String.prefix "retry_delay" s then seconds_after (Str.drop 11 s) else None in
  match here with
  | Some g => Some g
  | None =>
      match s with
      | EmptyString => None
      | String _ rest => retry_delay_search rest
      end
  end.

(** ** The outside world *)

(** What one remote request meets: [response.text], or an exception raised by
    [model.generate_content] or by reading [response.text]. *)
Inductive reply :=
| Text (text : string)
| Fails (e : exn).

(** What [json.loads] makes of a text: the decoded value, a
    [JSONDecodeError] with its message, or another exception (a
    [RecursionError] for a text nested too deeply, the [ValueError] of an
    integer with more digits than [int()] converts). *)
Inductive decoding :=
| Decoded (v : pyval)
| DecodeError (msg : string)
| OtherError (e : exn).

(** A piece of the ledger file. A whole line is given by what a reader makes
    of it: blank after [strip()], rejected by [json.loads] with a
    [JSONDecodeError], decoded to a value, one on which [json.loads] raises
    another exception, or one at which reading the file itself raises ([open],
    or the decoding of bytes that are not UTF-8). A record written by
    [json.dump] is read back as the same value, so an appended record [r] is
    the line [LJson (PDict r)].
    [LTail alone fused] is a last line that was cut off before its line end
    (by a crash, or by a write that broke off): [alone] is what a reader makes
    of it as long as it is the end of the file; once a line is appended, the
    two are one line of the file, of which a reader makes [fused], or the
    appended line itself when [fused] is [None] (a tail of blanks). *)
Inductive line :=
| LBlank
| LInvalid
| LJson (v : pyval)
| LRaises (e : exn)
| LUnreadable (e : exn)
| LTail (alone : line) (fused : option line).

Inductive event :=
| EvRequest (model_name prompt : string)
| EvSleep (seconds : pyval)
| EvAppend (ok : bool).

(** The ledger file ([None]: the path does not exist) and what has happened
    so far, oldest first. *)
Record world := World {
  ledger : option (list line);
  trace : list event
}.

Record env := Env {
  (** the reply to the [k]-th remote request (counted from 0) *)
  service : nat -> reply;
  (** whether the [k]-th append to the ledger goes through *)
  disk : nat -> bool;
  (** [json.loads] *)
  json_loads : string -> decoding;
  (** [datetime.now().isoformat()] once [n] events have happened *)
  now : nat -> string;
  (** [time.time() - start_time] once [n] events have happened *)
  stopwatch : nat -> float;
  (** [sys.get_int_max_str_digits()]: the longest run of digits that [int()]
      converts (4300 unless it was changed); 0 means no limit *)
  int_max_str_digits : nat;
  (** what [time.sleep(n)] raises for an integer [n], if it raises: an
      [OverflowError] when [n] seconds are more than the clock counts *)
  sleep_error : Z -> option exn
}.

Definition log (ev : event) (w : world) : world :=
  {| ledger := ledger w; trace := trace w ++ [ev] |}.

Definition is_request (ev : event) : bool :=
  match ev with EvRequest _ _ => true | _ => false end.
Definition is_append (ev : event) : bool :=
  match ev with EvAppend _ => true | _ => false end.

Definition requests_issued (w : world) : nat := length (filter is_request (trace w)).
Definition appends_tried (w : world) : nat := length (filter is_append (trace w)).

(** ** gemini_client.py: the remote-call executor *)

Definition is_rate_limit_error (error_str : string) : bool :=
  Str.contains "ResourceExhausted" error_str || Str.contains "429" error_str.

(** [int(group)] for a run of digits: a [ValueError] when the run is longer
    than the limit. *)
Definition py_int (E : env) (group : Z * nat) : outcome Z :=
  let '(value, digits) := group in
  let limit := int_max_str_digits E in
  if ((0 <? limit) && (limit <? digits))%nat then
    Raise (Exn "ValueError"
      ("Exceeds the limit (" +:+ pretty limit +:+
       " digits) for integer string conversion: value has " +:+ pretty digits +:+
       " digits; use sys.set_int_max_str_digits() to increase the limit"))
  else Ret value.

(** [time.sleep(seconds)] for an integer: the seconds slept, unless it
    raises. *)
Definition sleep_int (E : env) (seconds : Z) : outcome pyval :=
  match sleep_error E seconds with
  | Some e => Raise e
  | None => Ret (PInt seconds)
  end.

(** The [except] block of an attempt that failed with [e]: the seconds it
    sleeps before the loop goes on, or the exception that leaves it, which is
    [e] itself (the bare [raise]) or one that [int()] or [time.sleep()] raised
    inside the block. The governor's delay is a float that [time.sleep]
    accepts. *)
Definition handle_failure (E : env) (max_retries : Z) (model_name : string)
    (attempt : Z) (e : exn) : outcome pyval :=
  let error_str := exn_msg e in
  if is_rate_limit_error error_str then
    match retry_delay_search error_str with
    | Some group =>
        suggested_delay ← py_int E group;
        sleep_int E suggested_delay
    | None =>
        rate_delay ← get_rate_limit_delay model_name;
        Ret (PFloat rate_delay)
    end
  else if attempt <? max_retries - 1 then
    sleep_int E (DEFAULT_RETRY_DELAY * (attempt + 1))
  else Raise e.

(** The body of [for attempt in range(self.max_retries)], over the attempts
    still to make. Falling out of the loop is Python's implicit [return None]. *)
Fixpoint attempt_loop (E : env) (max_retries : Z) (prompt model_name : string)
    (attempts : list Z) (w : world) : outcome (option string) * world :=
  match attempts with
  | [] => (Ret None, w)
  | attempt :: rest =>
      let w1 := log (EvRequest model_name prompt) w in
      let failed (e : exn) :=
        match handle_failure E max_retries model_name attempt e with
        | Ret seconds =>
            attempt_loop E max_retries prompt model_name rest (log (EvSleep seconds) w1)
        | Raise e' => (Raise e', w1)
        end in
      match service E (requests_issued w) with
      | Text text =>
          if truthy (PStr text) then (Ret (Some text), w1)
          else failed (Exn "ValueError" "Empty response from API")
      | Fails e => failed e
      end
  end.

Definition generate_content (E : env) (max_retries : Z) (prompt model_name : string)
    (w : world) : outcome (option string) * world :=
  match AVAILABLE_MODELS !! model_name with
  | None =>
      (Raise (Exn "ValueError"
         ("Model " +:+ model_name +:+
          " not available. Use get_available_models() to see options.")), w)
  | Some _ => attempt_loop E max_retries prompt model_name (seqZ 0 max_retries) w
  end.

(** ** Hashing: the elements of the completion set *)

(** What a hashable JSON value is as a member of a Python [set]: values that
    compare equal are one member ([True == 1 == 1.0]), so a boolean and a
    float with an integral value are filed under the integer. (All NaNs are
    filed under one key.) *)
Inductive pykey :=
| KNone
| KInt (z : Z)
| KFloat (f : spec_float)
| KStr (s : string).

#[global] Instance spec_float_eq_dec : EqDecision spec_float.
Proof. solve_decision. Defined.

#[global] Instance spec_float_countable : Countable spec_float.
Proof.
  refine (inj_countable'
    (λ f, match f with
          | S754_zero s => inl (inl s)
          | S754_infinity s => inl (inr s)
          | S754_nan => inr (inl ())
          | S754_finite s m e => inr (inr (s, m, e))
          end)
    (λ x, match x with
          | inl (inl s) => S754_zero s
          | inl (inr s) => S754_infinity s
          | inr (inl _) => S754_nan
          | inr (inr (s, m, e)) => S754_finite s m e
          end) _).
  by intros [].
Defined.

#[global] Instance pykey_eq_dec : EqDecision pykey.
Proof. solve_decision. Defined.

#[global] Instance pykey_countable : Countable pykey.
Proof.
  refine (inj_countable'
    (λ k, match k with
          | KNone => inl (inl ())
          | KInt z => inl (inr z)
          | KFloat f => inr (inl f)
          | KStr s => inr (inr s)
          end)
    (λ x, match x with
          | inl (inl _) => KNone
          | inl (inr z) => KInt z
          | inr (inl f) => KFloat f
          | inr (inr s) => KStr s
          end) _).
  by intros [].
Defined.

Definition key_of_float (f : float) : pykey :=
  match Prim2SF f with
  | S754_zero _ => KInt 0
  | S754_finite s m e =>
      let sign (v : Z) := if s then - v else v in
      if 0 <=? e then KInt (sign (Z.pos m * 2 ^ e))
      else if (Z.pos m) mod (2 ^ (- e)) =? 0 then KInt (sign (Z.pos m / 2 ^ (- e)))
      else KFloat (S754_finite s m e)
  | sf => KFloat sf
  end.

(** [hash(v)]: lists and dicts are unhashable. *)
Definition py_key (v : pyval) : outcome pykey :=
  match v with
  | PNone => Ret KNone
  | PBool b => Ret (KInt (if b then 1 else 0))
  | PInt z => Ret (KInt z)
  | PFloat f => Ret (key_of_float f)
  | PStr s => Ret (KStr s)
  | PList _ => Raise (Exn "TypeError" "unhashable type: 'list'")
  | PDict _ => Raise (Exn "TypeError" "unhashable type: 'dict'")
  end.

(** The completion index: a set of (sample id, run index) pairs. *)
Abbreviation completion := (gset (pykey * pykey)).

Definition type_name (v : pyval) : string :=
  match v with
  | PNone => "NoneType"
  | PBool _ => "bool"
  | PInt _ => "int"
  | PFloat _ => "float"
  | PStr _ => "str"
  | PList _ => "list"
  | PDict _ => "dict"
  end.

(** [v.get(k, dflt)]: only a dict has the method. *)
Definition py_get (v : pyval) (k : string) (dflt : pyval) : outcome pyval :=
  match v with
  | PDict d => Ret (default dflt (d !! k))
  | _ => Raise (Exn "AttributeError"
                  ("'" +:+ type_name v +:+ "' object has no attribute 'get'"))
  end.

(** ** json_parser.py *)

(** [re.search(r'```json\s*(\{.*?\})\s*```', text, re.DOTALL)], group 1.
    [fenced_close s] reads what follows the opening brace: the lazy [.*?]
    stops at the first closing brace after which blanks and the closing fence
    follow. *)
Fixpoint fenced_close (s : string) : option string :=
  match s with
  | EmptyString => None
  | String c rest =>
      if Ascii.eqb c "}" && String.prefix "```" (Str.lstrip rest)
      then Some (String c EmptyString)
      else String c <$> fenced_close rest
  end.

Fixpoint search_fenced (s : string) : option string :=
  let here :=
    if String.prefix "```json" s then
      match Str.lstrip (Str.drop 7 s) with
      | String c rest =>
          if Ascii.eqb c "{" then String c <$> fenced_close rest else None
      | EmptyString => None
      end
    else None in
  match here with
  | Some g => Some g
  | None =>
      match s with
      | EmptyString => None
      | String _ rest => search_fenced rest
      end
  end.

(** [re.search(r'\{.*\}', text, re.DOTALL)], group 0: from the first opening
    brace to the last closing brace after it. *)
Fixpoint upto_last_brace (s : string) : option string :=
  match s with
  | EmptyString => None
  | String c rest =>
      match upto_last_brace rest with
      | Some t => Some (String c t)
      | None => if Ascii.eqb c "}" then Some (String c EmptyString) else None
      end
  end.

Fixpoint search_braces (s : string) : option string :=
  match s with
  | EmptyString => None
  | String c rest =>
      if Ascii.eqb c "{" then String c <$> upto_last_brace rest
      else search_braces rest
  end.

(** [text] is what [generate_content] returned: a [str], or [None], on which
    [re.search] raises a [TypeError]. *)
Definition extract_json_from_response (E : env) (text : option string) : outcome pyval :=
  match text with
  | None =>
      Raise (Exn "TypeError" "expected string or bytes-like object, got 'NoneType'")
  | Some text =>
      json_str ←
        match search_fenced text with
        | Some g => Ret g
        | None =>
            match search_braces text with
            | Some g => Ret g
            | None =>
                Raise (Exn "ValueError"
                  ("No JSON found in response: " +:+ Str.take 200 text +:+ "..."))
            end
        end;
      match json_loads E json_str with
      | Decoded v => Ret v
      | DecodeError msg =>
          Raise (Exn "ValueError"
            ("Invalid JSON format: " +:+ msg +:+ Str.nl +:+
             "JSON string: " +:+ Str.take 200 json_str +:+ "..."))
      | OtherError e => Raise e
      end
  end.

(** Appends the line of one record; any exception inside is caught and
    reported as [False], and then the file is taken to be as it was. *)
Definition save_result_to_jsonl (E : env) (result : gmap string pyval) (w : world)
    : bool * world :=
  let ok := disk E (appends_tried w) in
  (ok,
   {| ledger := if ok then Some (default [] (ledger w) ++ [LJson (PDict result)])
                else ledger w;
      trace := trace w ++ [EvAppend ok] |}).

(** What a tail is as a line of its own. *)
Fixpoint whole (l : line) : line :=
  match l with
  | LTail alone _ => whole alone
  | _ => l
  end.

(** The lines that [for line in f] goes through: the whole lines of the file
    as they are; a tail that has a line after it is one line with it; a tail
    at the end is a line of its own. No line of the result is a tail. *)
Fixpoint read_lines (lines : list line) : list line :=
  match lines with
  | [] => []
  | LTail alone fused :: rest =>
      match rest with
      | [] => [whole alone]
      | next :: rest' => whole (default next fused) :: read_lines rest'
      end
  | l :: rest => l :: read_lines rest
  end.

(** The [for line in f] loop of [load_existing_results]; an exception other
    than the [JSONDecodeError] of a line leaves the loop. *)
Fixpoint load_lines (lines : list line) (existing_results : list pyval)
    (completed_runs : completion) : outcome (list pyval * completion) :=
  match lines with
  | [] => Ret (existing_results, completed_runs)
  | (LBlank | LInvalid | LTail _ _) :: rest =>
      load_lines rest existing_results completed_runs
  | (LRaises e | LUnreadable e) :: _ => Raise e
  | LJson result :: rest =>
      let existing_results := existing_results ++ [result] in
      sample_id ← py_get result "sample_id" (PInt (-1));
      run_num ← py_get result "run_number" (PInt (-1));
      success ← py_get result "success" (PBool false);
      if truthy success then
        k1 ← py_key sample_id;
        k2 ← py_key run_num;
        load_lines rest existing_results ({[ (k1, k2) ]} ∪ completed_runs)
      else load_lines rest existing_results completed_runs
  end.

Definition load_existing_results (file : option (list line))
    : list pyval * completion :=
  match file with
  | None => ([], ∅)
  | Some lines =>
      match load_lines (read_lines lines) [] ∅ with
      | Ret r => r
      | Raise _ => ([], ∅)
      end
  end.

Fixpoint count_lines (lines : list line) (successful_count total_count : Z)
    : outcome (Z * Z) :=
  match lines with
  | [] => Ret (successful_count, total_count)
  | (LBlank | LInvalid | LTail _ _) :: rest =>
      count_lines rest successful_count total_count
  | (LRaises e | LUnreadable e) :: _ => Raise e
  | LJson result :: rest =>
      success ← py_get result "success" (PBool false);
      count_lines rest
        (if truthy success then successful_count + 1 else successful_count)
        (total_count + 1)
  end.

Definition calculate_success_rate (file : option (list line)) : float :=
  match file with
  | None => 0%float
  | Some lines =>
      match count_lines (read_lines lines) 0 0 with
      | Ret (successful_count, total_count) =>
          if 0 <? total_count
          then PrimFloat.div (float_of_Z successful_count) (float_of_Z total_count)
          else 0%float
      | Raise _ => 0%float
      end
  end.

(** ** pilot_runner.py: prompt builder and records *)

(** A row of the hierarchical codebook; [desc_5 = None] is a missing value. *)
Record codebook_row := CodebookRow {
  code_1 : string; title_1 : string;
  code_2 : string; title_2 : string;
  code_3 : string; title_3 : string;
  code_4 : string; title_4 : string;
  code_5 : string; title_5 : string;
  desc_5 : option string
}.

(** A row of the test data, as a pandas [Series]: [name] is its index label,
    an optional field is a column the frame may lack. *)
Record sample := Sample {
  name : Z;
  sample_id : option string;
  text : string;
  kbli_code : string;
  category : option string;
  dataset_name : option string;
  id_created_at : option string
}.

Definition format_hierarchy (row : codebook_row) : string :=
  let hierarchy_lines :=
    [ "- Section " +:+ code_1 row +:+ ": " +:+ title_1 row;
      "- Division " +:+ code_2 row +:+ ": " +:+ title_2 row;
      "- Group " +:+ code_3 row +:+ ": " +:+ title_3 row;
      "- Class " +:+ code_4 row +:+ ": " +:+ title_4 row;
      "- Sub-Class " +:+ code_5 row +:+ ": " +:+ title_5 row ] in
  let description :=
    match desc_5 row with
    | Some d => if truthy (PStr (Str.strip d)) then ["- Description: " +:+ d] else []
    | None => []
    end in
  Str.join_lines (hierarchy_lines ++ description).

Definition build_prompt_for_sample (template : string) (s : sample)
    (codebook : list codebook_row) : option string :=
  let code_to_check := kbli_code s in
  let rule_rows := filter (λ row, code_5 row = code_to_check) codebook in
  match rule_rows with
  | [] => None
  | rule_row :: _ =>
      let hierarchy_context := format_hierarchy rule_row in
      let final_prompt := Str.replace "{job_description}" (text s) template in
      let final_prompt := Str.replace "{code_to_check}" code_to_check final_prompt in
      let final_prompt := Str.replace "{hierarchy_context}" hierarchy_context final_prompt in
      Some final_prompt
  end.

(** [metadata['sample_id_created_at'] = ...] when the sample has the column. *)
Definition with_id_created_at (s : sample) (record : gmap string pyval)
    : gmap string pyval :=
  match id_created_at s with
  | Some created => <["sample_id_created_at" := PStr created]> record
  | None => record
  end.

(** The [metadata] dict of [add_metadata_to_result]; [timestamp] is the
    reading of [datetime.now().isoformat()]. *)
Definition success_metadata (timestamp : string) (s : sample) (run_number : Z)
    (model_name : string) (processing_time : float) : gmap string pyval :=
  let sample_id := default ("row_" +:+ pretty (name s)) (sample_id s) in
  with_id_created_at s
    (list_to_map
      [ ("sample_id", PStr sample_id);
        ("original_row_index", PInt (name s));
        ("original_text", PStr (text s));
        ("assigned_kbli_code", PStr (kbli_code s));
        ("category", PStr (default "N/A" (category s)));
        ("run_number", PInt run_number);
        ("model_name", PStr model_name);
        ("dataset_name", PStr (default "unknown.csv" (dataset_name s)));
        ("timestamp", PStr timestamp);
        ("processing_time_seconds", PFloat processing_time);
        ("success", PBool true) ]).

(** [{**metadata, **result}]: the keys of [result] win; unpacking something
    that is not a dict raises. *)
Definition add_metadata_to_result (timestamp : string) (result : pyval) (s : sample)
    (run_number : Z) (model_name : string) (processing_time : float)
    : outcome (gmap string pyval) :=
  let metadata := success_metadata timestamp s run_number model_name processing_time in
  match result with
  | PDict result => Ret (result ∪ metadata)
  | _ => Raise (Exn "TypeError" ("'" +:+ type_name result +:+ "' object is not a mapping"))
  end.

Definition create_error_record (timestamp : string) (s : sample) (error : exn)
    (run_number : Z) (model_name : string) : gmap string pyval :=
  let sample_id := default ("row_" +:+ pretty (name s)) (sample_id s) in
  with_id_created_at s
    (list_to_map
      [ ("sample_id", PStr sample_id);
        ("original_row_index", PInt (name s));
        ("original_text", PStr (text s));
        ("assigned_kbli_code", PStr (kbli_code s));
        ("category", PStr (default "N/A" (category s)));
        ("run_number", PInt run_number);
        ("model_name", PStr model_name);
        ("dataset_name", PStr (default "unknown.csv" (dataset_name s)));
        ("timestamp", PStr timestamp);
        ("success", PBool false);
        ("error_type", PStr (exn_type error));
        ("error_message", PStr (exn_msg error));
        ("is_correct", PNone);
        ("confidence_score", PNone);
        ("reasoning", PNone);
        ("alternative_codes", PList []);
        ("alternative_reasoning", PNone) ]).

(** ** pilot_runner.py: the batch orchestrator *)

(** The variables of the processing loop of [run_pilot_study]. *)
Record loop_state := LoopState {
  completed_runs : completion;
  processed_samples : Z;
  new_results_count : Z;
  resource_exhausted : bool
}.

Definition mark_completed (p : pykey * pykey) (st : loop_state) : loop_state :=
  {| completed_runs := {[ p ]} ∪ completed_runs st;
     processed_samples := processed_samples st;
     new_results_count := new_results_count st + 1;
     resource_exhausted := resource_exhausted st |}.

Definition count_new_result (st : loop_state) : loop_state :=
  {| completed_runs := completed_runs st;
     processed_samples := processed_samples st;
     new_results_count := new_results_count st + 1;
     resource_exhausted := resource_exhausted st |}.

Definition count_processed (st : loop_state) : loop_state :=
  {| completed_runs := completed_runs st;
     processed_samples := processed_samples st + 1;
     new_results_count := new_results_count st;
     resource_exhausted := resource_exhausted st |}.

Definition trip_breaker (st : loop_state) : loop_state :=
  {| completed_runs := completed_runs st;
     processed_samples := processed_samples st;
     new_results_count := new_results_count st;
     resource_exhausted := true |}.

(** The test of the [except] branch:
    ["ResourceExhausted" in str(e) or "429" in str(e) or "quota" in str(e).lower()] *)
Definition is_quota_error (e : exn) : bool :=
  Str.contains "ResourceExhausted" (exn_msg e) ||
  Str.contains "429" (exn_msg e) ||
  Str.contains "quota" (Str.lower (exn_msg e)).

(** [{run_num for (sid, run_num) in completed_runs if sid == sample_id}] *)
Definition sample_completed_runs (completed : completion) (sample_id : string)
    : gset pykey :=
  set_map snd (filter (λ p, p.1 = KStr sample_id) completed).

(** [[run_num for run_num in range(1, n_runs + 1)
      if run_num not in sample_completed_runs]] *)
Definition remaining_runs (completed : completion) (sample_id : string) (n_runs : Z)
    : list Z :=
  filter (λ run_num, KInt run_num ∉ sample_completed_runs completed sample_id)
         (seqZ 1 n_runs).

Section orchestrator.

Context (E : env) (max_retries : Z).
Context (codebook : list codebook_row) (master_template model_name : string).
Context (rate_delay : float) (n_runs : Z).

(** The statements of the [try] block that can raise: the remote call, the
    extraction of the payload and the merge with the metadata. *)
Definition try_run (s : sample) (prompt : string) (run_num : Z) (w : world)
    : outcome (gmap string pyval) * world :=
  let '(raw_response, w1) := generate_content E max_retries prompt model_name w in
  (raw_response ← raw_response;
   parsed_json ← extract_json_from_response E raw_response;
   let processing_time := stopwatch E (length (trace w1)) in
   add_metadata_to_result (now E (length (trace w1)))
     parsed_json s run_num model_name processing_time,
   w1).

(** One pass through the body of [for run_num in remaining_runs], up to the
    rate-limited delay: the [try] block and its [except]. The boolean says
    whether the body ended in [break]. *)
Definition run_once (s : sample) (sample_id prompt : string) (run_num : Z)
    (st : loop_state) (w : world) : bool * loop_state * world :=
  let '(tried, w1) := try_run s prompt run_num w in
  match tried with
  | Ret full_result =>
      let '(saved, w2) := save_result_to_jsonl E full_result w1 in
      if saved
      then (false, mark_completed (KStr sample_id, KInt run_num) st, w2)
      else (false, st, w2)
  | Raise e =>
      if is_quota_error e then (true, trip_breaker st, w1)
      else
        let error_record :=
          create_error_record (now E (length (trace w1))) s e run_num model_name in
        let '(saved, w2) := save_result_to_jsonl E error_record w1 in
        (false, if saved then count_new_result st else st, w2)
  end.

(** [for run_num in remaining_runs: ...] *)
Fixpoint run_remaining (s : sample) (sample_id prompt : string) (runs : list Z)
    (st : loop_state) (w : world) : loop_state * world :=
  match runs with
  | [] => (st, w)
  | run_num :: rest =>
      if resource_exhausted st then (st, w)
      else
        let '(stop, st1, w1) := run_once s sample_id prompt run_num st w in
        if stop then (st1, w1)
        else run_remaining s sample_id prompt rest st1
               (log (EvSleep (PFloat rate_delay)) w1)
  end.

(** [for idx, (_, sample) in enumerate(test_data.iterrows()): ...] from
    position [idx] on. *)
Fixpoint process_samples (idx : Z) (samples : list sample)
    (st : loop_state) (w : world) : loop_state * world :=
  match samples with
  | [] => (st, w)
  | s :: rest =>
      let sample_id := default ("row_" +:+ pretty idx) (sample_id s) in
      match build_prompt_for_sample master_template s codebook with
      | None => process_samples (idx + 1) rest st w
      | Some prompt =>
          match remaining_runs (completed_runs st) sample_id n_runs with
          | [] => process_samples (idx + 1) rest (count_processed st) w
          | runs =>
              let '(st1, w1) := run_remaining s sample_id prompt runs st w in
              let st2 := count_processed st1 in
              if resource_exhausted st2 then (st2, w1)
              else process_samples (idx + 1) rest st2 w1
          end
      end
  end.

End orchestrator.

(** What [_create_execution_stats] reports (the path and the time of
    completion are left out). *)
Record execution_stats := ExecutionStats {
  stat_processed_samples : Z;
  stat_total_completed : Z;
  stat_new_results_generated : Z;
  stat_success_rate : float
}.

(** [test_data['dataset_name'] = dataset_filename] *)
Definition set_dataset_name (dataset_filename : string) (s : sample) : sample :=
  {| name := name s; sample_id := sample_id s; text := text s;
     kbli_code := kbli_code s; category := category s;
     dataset_name := Some dataset_filename; id_created_at := id_created_at s |}.

Definition total_expected_runs (test_data : list sample) (n_runs : Z) : Z :=
  let total_samples := Z.of_nat (length test_data) in
  total_samples * n_runs.

(** [run_pilot_study], from the loaded resources on. The ledger is the file
    of the world; [max_retries] is the setting of the client. *)
Definition run_pilot_study (E : env) (max_retries : Z)
    (codebook : list codebook_row) (test_data : list sample) (master_template : string)
    (model_name dataset_filename : string) (n_runs : Z) (w : world)
    : outcome execution_stats * world :=
  match get_rate_limit_delay model_name with
  | Raise e => (Raise e, w)
  | Ret rate_delay =>
      let test_data := set_dataset_name dataset_filename <$> test_data in
      let '(existing_results, completed_runs) := load_existing_results (ledger w) in
      let total_samples := Z.of_nat (length test_data) in
      if bool_decide (Z.of_nat (size completed_runs) = total_expected_runs test_data n_runs)
      then
        (Ret {| stat_processed_samples := total_samples;
                stat_total_completed := Z.of_nat (length existing_results);
                stat_new_results_generated := 0;
                stat_success_rate := calculate_success_rate (ledger w) |}, w)
      else
        let '(st, w') :=
          process_samples E max_retries codebook master_template model_name
            rate_delay n_runs 0 test_data
            {| completed_runs := completed_runs; processed_samples := 0;
               new_results_count := 0; resource_exhausted := false |} w in
        let total_completed := Z.of_nat (length existing_results) + new_results_count st in
        (Ret {| stat_processed_samples := processed_samples st;
                stat_total_completed := total_completed;
                stat_new_results_generated := new_results_count st;
                stat_success_rate := calculate_success_rate (ledger w') |}, w')
  end.

(** ** The words of the specification about the ledger *)

(** The decoded records of a ledger, in file order. *)
Definition line_record (l : line) : option pyval :=
  match l with
  | LJson v => Some v
  | _ => None
  end.

Definition records_of (lines : list line) : list pyval := omap line_record lines.

(** [v] is a record whose success flag is true, for the pair [p] of a sample
    id and a run index (a missing field reads as its default). *)
Definition success_record_for (p : pykey * pykey) (v : pyval) : Prop :=
  ∃ d, v = PDict d ∧
       truthy (default (PBool false) (d !! "success")) = true ∧
       py_key (default (PInt (-1)) (d !! "sample_id")) = Ret p.1 ∧
       py_key (default (PInt (-1)) (d !! "run_number")) = Ret p.2.

(** The lines of a ledger as a reader goes through them, and its pieces as
    they were written. *)
Definition lines_of (file : option (list line)) : list line :=
  read_lines (default [] file).

Definition written (file : option (list line)) : list line := default [] file.

(** The file ends with a line end (or is empty, or missing): no piece is a
    tail. *)
Definition is_tail (l : line) : bool :=
  match l with
  | LTail _ _ => true
  | _ => false
  end.

Definition terminated (file : option (list line)) : bool :=
  forallb (λ l, negb (is_tail l)) (written file).

Definition has_success_record (file : option (list line)) (p : pykey * pykey) : Prop :=
  ∃ v, LJson v ∈ lines_of file ∧ success_record_for p v.

(** The pair of a line that holds a success record. *)
Definition success_pair (l : line) : option (pykey * pykey) :=
  match l with
  | LJson (PDict d) =>
      if truthy (default (PBool false) (d !! "success")) then
        match py_key (default (PInt (-1)) (d !! "sample_id")),
              py_key (default (PInt (-1)) (d !! "run_number")) with
        | Ret k1, Ret k2 => Some (k1, k2)
        | _, _ => None
        end
      else None
  | _ => None
  end.

Definition success_pairs (lines : list line) : completion :=
  list_to_set (omap success_pair lines).

Definition hashable (v : pyval) : bool :=
  match v with
  | PList _ | PDict _ => false
  | _ => true
  end.

(** A line the reader gets through: a blank line or one that the decoder
    rejects with a [JSONDecodeError] (skipped), or a JSON object that, when
    its success flag is true, has a hashable sample id and run index. A line
    on which reading or decoding raises anything else is none. *)
Definition line_ok (l : line) : bool :=
  match l with
  | LBlank | LInvalid | LTail _ _ => true
  | LRaises _ | LUnreadable _ => false
  | LJson (PDict d) =>
      if truthy (default (PBool false) (d !! "success")) then
        hashable (default (PInt (-1)) (d !! "sample_id")) &&
        hashable (default (PInt (-1)) (d !! "run_number"))
      else true
  | LJson _ => false
  end.

(** A line the reader skips. *)
Definition skipped (l : line) : bool :=
  match l with
  | LBlank | LInvalid => true
  | _ => false
  end.

(** The reader gets through every line of the file. *)
Definition readable (file : option (list line)) : bool :=
  forallb line_ok (lines_of file).

(** The orchestrator has run to completion on a ledger: every run index from
    1 to [n_runs] of every sample that is not skipped has a success record.
    The sample at position [i] goes by its [sample_id], or by [row_i] when it
    has none. *)
Definition complete (codebook : list codebook_row) (master_template : string)
    (test_data : list sample) (n_runs : Z) (file : option (list line)) : Prop :=
  ∀ (i : nat) (s : sample),
    test_data !! i = Some s →
    is_Some (build_prompt_for_sample master_template s codebook) →
    ∀ k, 1 ≤ k ≤ n_runs →
      has_success_record file
        (KStr (default ("row_" +:+ pretty (Z.of_nat i)) (sample_id s)), KInt k).

(** The same, as a test that computes. *)
Definition completeb (codebook : list codebook_row) (master_template : string)
    (test_data : list sample) (n_runs : Z) (file : option (list line)) : bool :=
  forallb
    (λ '(i, s),
       match build_prompt_for_sample master_template s codebook with
       | None => true
       | Some _ =>
           forallb
             (λ k, bool_decide
                     ((KStr (default ("row_" +:+ pretty (Z.of_nat i)) (sample_id s)), KInt k)
                      ∈ success_pairs (lines_of file)))
             (seqZ 1 n_runs)
       end)
    (imap pair test_data).

(** The completion set is backed by the ledger: each of its pairs has a
    success record there. *)
Definition backed (st : loop_state) (w : world) : Prop :=
  ∀ p, p ∈ completed_runs st → has_success_record (ledger w) p.

(** No payload that the service sends defines [success], [sample_id] or
    [run_number]. *)
Definition payload_keeps_identity (E : env) : Prop :=
  ∀ (k : nat) (text : string) (d : gmap string pyval),
    service E k = Text text →
    extract_json_from_response E (Some text) = Ret (PDict d) →
    d !! "success" = None ∧ d !! "sample_id" = None ∧ d !! "run_number" = None.

(** Every append goes through. *)
Definition appends_succeed (E : env) : Prop := ∀ k, disk E k = true.

(** Between two states of the loop, from a ledger that ends with a line end:
    the ledger ends with a line end again, it was only appended to, and
    whatever joined the completion set has a success record in it. *)
Definition extends_backed (x y : loop_state * world) : Prop :=
  terminated (ledger x.2) = true →
  terminated (ledger y.2) = true ∧
  (∃ appended, lines_of (ledger y.2) = lines_of (ledger x.2) ++ appended) ∧
  ∀ p, p ∈ completed_runs y.1 →
       p ∈ completed_runs x.1 ∨ has_success_record (ledger y.2) p.

(** The exception an attempt of the executor ends in, if it does: the one
    the request raised, or the [ValueError] for an empty response. *)
Definition attempt_failure (r : reply) : option exn :=
  match r with
  | Fails e => Some e
  | Text text =>
      if truthy (PStr text) then None
      else Some (Exn "ValueError" "Empty response from API")
  end.

(** The formula of the specification, [delay = (60 / rpm) * 1.1] seconds. *)
Definition spec_delay (rpm : Z) : float :=
  PrimFloat.mul (PrimFloat.div 60%float (float_of_Z rpm)) 1.1%float.

(** The keys an error record shares with the metadata of a success record. *)
Definition shared_metadata_keys : list string :=
  [ "sample_id"; "original_row_index"; "original_text"; "assigned_kbli_code";
    "category"; "run_number"; "model_name"; "dataset_name"; "timestamp";
    "sample_id_created_at" ].

(** Lookups in a record built by [list_to_map] and [insert] at a literal key. *)
Ltac record_lookup :=
  cbn [list_to_map foldr uncurry fst snd];
  repeat first
    [ rewrite lookup_insert_eq
    | rewrite lookup_insert_ne by discriminate
    | rewrite lookup_empty ];
  try reflexivity.

(** ** gemini_client.py: the connection test *)

Definition double_quote : string := String (ascii_of_nat 34) EmptyString.

(** The [test_prompt] of [test_connection]. *)
Definition test_prompt : string :=
  "Say 'Hello' in JSON format: {" +:+ double_quote +:+ "message" +:+ double_quote +:+
  ": " +:+ double_quote +:+ "Hello" +:+ double_quote +:+ "}".

(** [test_connection]: [len(response.strip()) > 0], and [False] for any
    exception of the [try] block; one of them is the [AttributeError] of
    [None.strip()] when [generate_content] returned [None]. *)
Definition test_connection (E : env) (max_retries : Z) (model_name : string) (w : world)
    : bool * world :=
  let '(response, w1) := generate_content E max_retries test_prompt model_name w in
  match response with
  | Ret (Some response) => (0 <? Z.of_nat (String.length (Str.strip response)), w1)
  | Ret None => (false, w1)
  | Raise _ => (false, w1)
  end.

(** ** json_parser.py: validation of a ledger file *)

(** The [stats] dict of [validate_jsonl_file]; an optional field is a key the
    dict may lack: [unique_sample_count] until it is set, [unique_samples]
    once it is deleted. *)
Record jsonl_stats := JsonlStats {
  total_lines : Z;
  valid_json_lines : Z;
  invalid_json_lines : Z;
  empty_lines : Z;
  successful_results : Z;
  failed_results : Z;
  unique_samples : option (gset pykey);
  errors : list string;
  unique_sample_count : option Z
}.

Definition count_line (stats : jsonl_stats) : jsonl_stats :=
  {| total_lines := total_lines stats + 1;
     valid_json_lines := valid_json_lines stats;
     invalid_json_lines := invalid_json_lines stats;
     empty_lines := empty_lines stats;
     successful_results := successful_results stats;
     failed_results := failed_results stats;
     unique_samples := unique_samples stats;
     errors := errors stats;
     unique_sample_count := unique_sample_count stats |}.

Definition count_empty (stats : jsonl_stats) : jsonl_stats :=
  {| total_lines := total_lines stats;
     valid_json_lines := valid_json_lines stats;
     invalid_json_lines := invalid_json_lines stats;
     empty_lines := empty_lines stats + 1;
     successful_results := successful_results stats;
     failed_results := failed_results stats;
     unique_samples := unique_samples stats;
     errors := errors stats;
     unique_sample_count := unique_sample_count stats |}.

Definition count_valid (stats : jsonl_stats) : jsonl_stats :=
  {| total_lines := total_lines stats;
     valid_json_lines := valid_json_lines stats + 1;
     invalid_json_lines := invalid_json_lines stats;
     empty_lines := empty_lines stats;
     successful_results := successful_results stats;
     failed_results := failed_results stats;
     unique_samples := unique_samples stats;
     errors := errors stats;
     unique_sample_count := unique_sample_count stats |}.

Definition count_invalid (stats : jsonl_stats) : jsonl_stats :=
  {| total_lines := total_lines stats;
     valid_json_lines := valid_json_lines stats;
     invalid_json_lines := invalid_json_lines stats + 1;
     empty_lines := empty_lines stats;
     successful_results := successful_results stats;
     failed_results := failed_results stats;
     unique_samples := unique_samples stats;
     errors := errors stats;
     unique_sample_count := unique_sample_count stats |}.

Definition count_successful (stats : jsonl_stats) : jsonl_stats :=
  {| total_lines := total_lines stats;
     valid_json_lines := valid_json_lines stats;
     invalid_json_lines := invalid_json_lines stats;
     empty_lines := empty_lines stats;
     successful_results := successful_results stats + 1;
     failed_results := failed_results stats;
     unique_samples := unique_samples stats;
     errors := errors stats;
     unique_sample_count := unique_sample_count stats |}.

Definition count_failed (stats : jsonl_stats) : jsonl_stats :=
  {| total_lines := total_lines stats;
     valid_json_lines := valid_json_lines stats;
     invalid_json_lines := invalid_json_lines stats;
     empty_lines := empty_lines stats;
     successful_results := successful_results stats;
     failed_results := failed_results stats + 1;
     unique_samples := unique_samples stats;
     errors := errors stats;
     unique_sample_count := unique_sample_count stats |}.

(** [stats['unique_samples'].add(sample_id)], once [sample_id] is hashed. *)
Definition add_unique_sample (k : pykey) (stats : jsonl_stats) : jsonl_stats :=
  {| total_lines := total_lines stats;
     valid_json_lines := valid_json_lines stats;
     invalid_json_lines := invalid_json_lines stats;
     empty_lines := empty_lines stats;
     successful_results := successful_results stats;
     failed_results := failed_results stats;
     unique_samples := (λ samples, {[ k ]} ∪ samples) <$> unique_samples stats;
     errors := errors stats;
     unique_sample_count := unique_sample_count stats |}.

(** [stats['errors'].append(message)] *)
Definition append_error (message : string) (stats : jsonl_stats) : jsonl_stats :=
  {| total_lines := total_lines stats;
     valid_json_lines := valid_json_lines stats;
     invalid_json_lines := invalid_json_lines stats;
     empty_lines := empty_lines stats;
     successful_results := successful_results stats;
     failed_results := failed_results stats;
     unique_samples := unique_samples stats;
     errors := errors stats ++ [message];
     unique_sample_count := unique_sample_count stats |}.

(** The outer [except Exception] of [validate_jsonl_file]: the loop is left,
    the statistics gathered so far stay. *)
Definition read_error (e : exn) (stats : jsonl_stats) : jsonl_stats :=
  append_error ("Error reading file: " +:+ exn_msg e) stats.

(** The [for line_num, line in enumerate(f, 1)] loop from line [line_num] on.
    [decode_error n] is the text of the [JSONDecodeError] that [json.loads]
    raises on line [n]. A line at which reading raises is not counted; one on
    which [json.loads] raises something else than a [JSONDecodeError] is
    counted in [total_lines] and nowhere else. *)
Fixpoint validate_lines (decode_error : Z → string) (line_num : Z) (lines : list line)
    (stats : jsonl_stats) : jsonl_stats :=
  match lines with
  | [] => stats
  | LUnreadable e :: _ => read_error e stats
  | l :: rest =>
      let stats := count_line stats in
      match l with
      | LBlank => validate_lines decode_error (line_num + 1) rest (count_empty stats)
      | LInvalid | LTail _ _ =>
          validate_lines decode_error (line_num + 1) rest
            (append_error ("Line " +:+ pretty line_num +:+ ": " +:+ decode_error line_num)
               (count_invalid stats))
      | LRaises e | LUnreadable e => read_error e stats
      | LJson result =>
          let stats := count_valid stats in
          match py_get result "success" (PBool false) with
          | Raise e => read_error e stats
          | Ret success =>
              let stats :=
                if truthy success then count_successful stats else count_failed stats in
              match py_get result "sample_id" PNone with
              | Raise e => read_error e stats
              | Ret sample_id =>
                  if truthy sample_id then
                    match py_key sample_id with
                    | Raise e => read_error e stats
                    | Ret k =>
                        validate_lines decode_error (line_num + 1) rest
                          (add_unique_sample k stats)
                    end
                  else validate_lines decode_error (line_num + 1) rest stats
              end
          end
      end
  end.

Definition validate_jsonl_file (decode_error : Z → string) (file_path : string)
    (file : option (list line)) : jsonl_stats :=
  let stats :=
    {| total_lines := 0; valid_json_lines := 0; invalid_json_lines := 0;
       empty_lines := 0; successful_results := 0; failed_results := 0;
       unique_samples := Some ∅; errors := []; unique_sample_count := None |} in
  match file with
  | None => append_error ("File not found: " +:+ file_path) stats
  | Some lines =>
      let stats := validate_lines decode_error 1 (read_lines lines) stats in
      {| total_lines := total_lines stats;
         valid_json_lines := valid_json_lines stats;
         invalid_json_lines := invalid_json_lines stats;
         empty_lines := empty_lines stats;
         successful_results := successful_results stats;
         failed_results := failed_results stats;
         unique_samples := None;
         errors := errors stats;
         unique_sample_count := Some (Z.of_nat (size (default ∅ (unique_samples stats)))) |}
  end.

(** ** data_loader.py: the codebook lookup *)

(** [codebook[codebook['code_5'] == str(code)]], then [.iloc[0]] unless empty. *)
Definition get_codebook_entry (codebook : list codebook_row) (code : string)
    : option codebook_row :=
  let matching_rows := filter (λ row, code_5 row = code) codebook in
  match matching_rows with
  | [] => None
  | row :: _ => Some row
  end.

(** ** Words about traces, ledgers and prompts *)

(** No request goes out while another is [pending], that is, has not been
    followed by a sleep: the events [evs] keep the requests apart. *)
Fixpoint spaced (pending : bool) (evs : list event) : bool :=
  match evs with
  | [] => true
  | EvRequest _ _ :: rest => negb pending && spaced true rest
  | EvSleep _ :: rest => spaced false rest
  | EvAppend _ :: rest => spaced pending rest
  end.

(** The events end in a sleep, or there are none. *)
Definition settled (evs : list event) : Prop :=
  evs = [] ∨ ∃ evs' seconds, evs = evs' ++ [EvSleep seconds].

Definition requests_in (evs : list event) : nat := length (filter is_request evs).

(** The success flag of a decoded record, as the counting code reads it. *)
Definition flagged (v : pyval) : bool :=
  match v with
  | PDict d => truthy (default (PBool false) (d !! "success"))
  | _ => false
  end.

(** A line the counting code gets through: blank, rejected by the decoder
    with a [JSONDecodeError], or an object. *)
Definition object_line (l : line) : bool :=
  match l with
  | LJson (PDict _) => true
  | LJson _ | LRaises _ | LUnreadable _ => false
  | LBlank | LInvalid | LTail _ _ => true
  end.

(** A line the validator gets through: an object line whose [sample_id],
    when it is there and true, can be hashed. *)
Definition valid_line (l : line) : bool :=
  match l with
  | LJson (PDict d) =>
      let sample_id := default PNone (d !! "sample_id") in
      negb (truthy sample_id) || hashable sample_id
  | LJson _ | LRaises _ | LUnreadable _ => false
  | LBlank | LInvalid | LTail _ _ => true
  end.

(** How the counters [stats'] of the validator stand against the counters
    [stats] with which the reading of [lines] began. *)
Definition counted_from (lines : list line) (stats stats' : jsonl_stats) : Prop :=
  let total := total_lines stats' - total_lines stats in
  let empty := empty_lines stats' - empty_lines stats in
  let valid := valid_json_lines stats' - valid_json_lines stats in
  let invalid := invalid_json_lines stats' - invalid_json_lines stats in
  let successful := successful_results stats' - successful_results stats in
  let failed := failed_results stats' - failed_results stats in
  empty + valid + invalid ≤ total ≤ empty + valid + invalid + 1 ∧
  ((∀ e, LRaises e ∉ lines) → total = empty + valid + invalid) ∧
  0 ≤ empty ∧ 0 ≤ invalid ∧ 0 ≤ successful ∧ 0 ≤ failed ∧
  successful + failed ≤ valid ≤ successful + failed + 1 ∧
  total ≤ Z.of_nat (length lines) ∧
  unique_sample_count stats' = unique_sample_count stats ∧
  ∀ samples, unique_samples stats = Some samples →
    ∃ samples', unique_samples stats' = Some samples' ∧
      Z.of_nat (size samples') ≤ Z.of_nat (size samples) + valid.

(** [s] is a piece of [text], and runs from an opening to a closing brace. *)
Definition brace_span (s text : string) : Prop :=
  ∃ pre body post,
    text = pre +:+ s +:+ post ∧ s = "{" +:+ body +:+ "}".

(** The sample is matched: its code is in the codebook. *)
Definition matched (codebook : list codebook_row) (s : sample) : bool :=
  bool_decide (Exists (λ row, code_5 row = kbli_code s) codebook).

(** A service at its best: every request is answered with a text from which
    a JSON object is extracted that leaves [success], [sample_id] and
    [run_number] alone; and every write goes through. *)
Definition obliging_service (E : env) : Prop :=
  (∀ k, ∃ text d,
     service E k = Text text ∧ truthy (PStr text) = true ∧
     extract_json_from_response E (Some text) = Ret (PDict d) ∧
     d !! "success" = None ∧ d !! "sample_id" = None ∧ d !! "run_number" = None) ∧
  (∀ k, disk E k = true).

(** The fields every record of the ledger is identified by. *)
Definition identity_keys : list string :=
  [ "sample_id"; "original_row_index"; "original_text"; "assigned_kbli_code";
    "category"; "run_number"; "model_name"; "dataset_name"; "timestamp"; "success" ].

Definition identified (record : gmap string pyval) : Prop :=
  Forall (λ k, is_Some (record !! k)) identity_keys.

(** Between two states of the loop, the lines of records (JSON objects with
    the identifying fields) were written at the end of the ledger, as many as
    the count of new results has. *)
Definition grows_by_records (x y : loop_state * world) : Prop :=
  ∃ appended : list (gmap string pyval),
    written (ledger y.2) = written (ledger x.2) ++ (LJson ∘ PDict <$> appended) ∧
    new_results_count y.1 = new_results_count x.1 + Z.of_nat (length appended) ∧
    Forall identified appended.

(** The runs that are outstanding for the samples from position [idx] on,
    given a completion set: for every sample that is not skipped, the runs of
    1..[n_runs] that are not in the set. *)
Fixpoint outstanding_runs (codebook : list codebook_row) (master_template : string)
    (n_runs : Z) (completed : completion) (idx : Z) (samples : list sample) : nat :=
  match samples with
  | [] => 0
  | s :: rest =>
      (match build_prompt_for_sample master_template s codebook with
       | Some _ =>
           length (remaining_runs completed
                     (default ("row_" +:+ pretty idx) (sample_id s)) n_runs)
       | None => 0
       end
       + outstanding_runs codebook master_template n_runs completed (idx + 1) rest)%nat
  end.

(** Between two states of the loop, from a ledger that ends with a line end:
    a readable ledger stays readable, the completion set only grows, and a
    pair that has a success record in the later ledger has one in the earlier
    ledger or is in the later set. *)
Definition in_step_with_ledger (x y : loop_state * world) : Prop :=
  terminated (ledger x.2) = true →
  terminated (ledger y.2) = true ∧
  (readable (ledger x.2) = true → readable (ledger y.2) = true) ∧
  completed_runs x.1 ⊆ completed_runs y.1 ∧
  ∀ p, has_success_record (ledger y.2) p →
       has_success_record (ledger x.2) p ∨ p ∈ completed_runs y.1.

(** The names the samples from position [idx] on go by: the [sample_id], or
    [row_i] for the sample at position [i] that has none. *)
Fixpoint effective_ids (idx : Z) (samples : list sample) : list string :=
  match samples with
  | [] => []
  | s :: rest =>
      default ("row_" +:+ pretty idx) (sample_id s) :: effective_ids (idx + 1) rest
  end.

(** The handler of the executor gets through the wait that the error [e]
    suggests, if it suggests one: the digits are not too many for [int()], and
    [time.sleep()] accepts their value. *)
Definition delay_accepted (E : env) (e : exn) : Prop :=
  ∀ group, retry_delay_search (exn_msg e) = Some group →
    py_int E group = Ret group.1 ∧ sleep_error E group.1 = None.

(** The seconds the handler sleeps after a rate-limit error [e]: what the
    error suggests, or else the governor's delay. *)
Definition rate_limit_wait (rate_delay : float) (e : exn) : pyval :=
  match retry_delay_search (exn_msg e) with
  | Some group => PInt group.1
  | None => PFloat rate_delay
  end.

(** The seconds slept, in the order of the sleeps. *)
Definition sleeps_of (evs : list event) : list pyval :=
  omap (λ ev, match ev with EvSleep seconds => Some seconds | _ => None end) evs.

(** The event is no request, or a request to [model_name] that carries a
    prompt for which [allowed] holds. *)
Definition sends_only (model_name : string) (allowed : string → Prop) (ev : event) : Prop :=
  match ev with
  | EvRequest model_name' prompt => model_name' = model_name ∧ allowed prompt
  | _ => True
  end.

(** ** Scenarios used as concrete inputs *)

Module Scenario.

Definition flash : string := "models/gemini-1.5-flash-latest".

(** The error the service raises when the quota is exhausted:
    [google.api_core.exceptions.ResourceExhausted], whose text starts with the
    HTTP status. *)
Definition quota_error : exn :=
  Exn "ResourceExhausted" "429 Resource has been exhausted (e.g. check quota).".

Definition clock (n : nat) : string := "2025-01-01T00:00:" +:+ pretty n.

(** [time.sleep] with a clock that counts nanoseconds in 64 bits: more than
    9223372036 seconds do not fit. *)
Definition clock_range (seconds : Z) : option exn :=
  if 9223372036 <? seconds
  then Some (Exn "OverflowError" "timestamp too large to convert to C _PyTime_t")
  else None.

(** A service whose quota is used up: every request fails with [quota_error]. *)
Definition exhausted : env :=
  {| service := λ _, Fails quota_error;
     disk := λ _, true;
     json_loads := λ _, DecodeError "Expecting value: line 1 column 1 (char 0)";
     now := clock;
     stopwatch := λ _, 0%float;
     int_max_str_digits := 4300;
     sleep_error := clock_range |}.

Definition fresh : world := {| ledger := None; trace := [] |}.

(** The world after three requests that each hit the rate limit. *)
Definition after_three_attempts : world :=
  {| ledger := None;
     trace := [ EvRequest flash "prompt"; EvSleep (PFloat 4.4%float);
                EvRequest flash "prompt"; EvSleep (PFloat 4.4%float);
                EvRequest flash "prompt"; EvSleep (PFloat 4.4%float) ] |}.

(** What [re.search] raises when it is handed [None]. *)
Definition none_error : exn :=
  Exn "TypeError" "expected string or bytes-like object, got 'NoneType'".

Definition start : loop_state :=
  {| completed_runs := ∅; processed_samples := 0; new_results_count := 0;
     resource_exhausted := false |}.

(** A ledger record reduced to the three fields the reader looks at. *)
Definition entry (sample_id : pyval) (run_number : Z) (success : bool) : line :=
  LJson (PDict {[ "sample_id" := sample_id; "run_number" := PInt run_number;
                  "success" := PBool success ]}).

(** The ledger of the specification's example. *)
Definition three_records : list line :=
  [ entry (PStr "s1") 1 true; entry (PStr "s1") 1 false; entry (PStr "s1") 2 true ].

(** The same records in another order, one of them twice. *)
Definition three_records_shuffled : list line :=
  [ entry (PStr "s1") 2 true; entry (PStr "s1") 1 false;
    entry (PStr "s1") 1 true; entry (PStr "s1") 2 true ].

(** A ledger with a success record for [("s1", 1)] and a record whose sample
    id is a JSON array. *)
Definition poisoned : list line :=
  [ entry (PStr "s1") 1 true; entry (PList [PStr "s1"]) 2 true ].

Definition corn : codebook_row :=
  {| code_1 := "A"; title_1 := "Pertanian";
     code_2 := "01"; title_2 := "Pertanian Tanaman";
     code_3 := "011"; title_3 := "Tanaman Semusim";
     code_4 := "0111"; title_4 := "Serealia";
     code_5 := "01111"; title_5 := "Pertanian Jagung";
     desc_5 := Some "Usaha pertanian jagung" |}.

Definition template : string :=
  "Text: {job_description} Code: {code_to_check} Hierarchy: {hierarchy_context}".

(** Two samples whose code is in the codebook, and one whose code is not. *)
Definition sample_a : sample :=
  {| name := 0; sample_id := Some "id-a"; text := "petani jagung";
     kbli_code := "01111"; category := Some "agri"; dataset_name := None;
     id_created_at := None |}.
Definition sample_b : sample :=
  {| name := 1; sample_id := Some "id-b"; text := "menanam jagung";
     kbli_code := "01111"; category := None; dataset_name := None;
     id_created_at := Some "2025-01-01" |}.
Definition sample_u : sample :=
  {| name := 2; sample_id := Some "id-u"; text := "pekerjaan lain";
     kbli_code := "99999"; category := None; dataset_name := None;
     id_created_at := None |}.

(** A service that answers every request with an empty JSON object, which
    [json.loads] decodes to the empty dict. *)
Definition obliging : env :=
  {| service := λ _, Text "{}";
     disk := λ _, true;
     json_loads := λ s, if String.eqb s "{}" then Decoded (PDict ∅)
                        else DecodeError "Expecting value: line 1 column 1 (char 0)";
     now := clock;
     stopwatch := λ _, 1.5%float;
     int_max_str_digits := 4300;
     sleep_error := clock_range |}.

(** The text [{"success": false}], and a service that answers every request
    with it; [json.loads] decodes it to a dict with the one key. *)
Definition quoted (s : string) : string :=
  String (ascii_of_nat 34) EmptyString +:+ s +:+ String (ascii_of_nat 34) EmptyString.

Definition disowning_text : string := "{" +:+ quoted "success" +:+ ": false}".

Definition disowning : env :=
  {| service := λ _, Text disowning_text;
     disk := λ _, true;
     json_loads := λ s, if String.eqb s disowning_text
                        then Decoded (PDict {[ "success" := PBool false ]})
                        else DecodeError "Expecting value: line 1 column 1 (char 0)";
     now := clock;
     stopwatch := λ _, 1.5%float;
     int_max_str_digits := 4300;
     sleep_error := clock_range |}.

(** An invocation against the exhausted service: two matched samples, two
    runs each, on a fresh ledger. *)
Definition exhausted_run : outcome execution_stats * world :=
  run_pilot_study exhausted 3 [corn] [sample_a; sample_b] template flash "pilot.csv" 2 fresh.

(** A service that refuses every request with a message about the quota
    that carries neither the status 429 nor the name of the exception. *)
Definition out_of_quota : env :=
  {| service := λ _, Fails (Exn "PermissionDenied" "Daily quota exceeded for this project");
     disk := λ _, true;
     json_loads := λ _, DecodeError "Expecting value: line 1 column 1 (char 0)";
     now := clock;
     stopwatch := λ _, 0%float;
     int_max_str_digits := 4300;
     sleep_error := clock_range |}.

(** The prompt of [sample_a]. *)
Definition prompt_a : string :=
  default EmptyString (build_prompt_for_sample template sample_a [corn]).

(** The text [{"sample_id": ["id-a"]}]. *)
Definition usurping_text : string :=
  "{" +:+ quoted "sample_id" +:+ ": [" +:+ quoted "id-a" +:+ "]}".

(** A service whose first answer carries a payload with a [sample_id] of its
    own, a JSON array, and whose later answers are the empty object. *)
Definition fickle : env :=
  {| service := λ k, match k with
                     | O => Text usurping_text
                     | S _ => Text "{}"
                     end;
     disk := λ _, true;
     json_loads := λ s, if String.eqb s usurping_text
                        then Decoded (PDict {[ "sample_id" := PList [PStr "id-a"] ]})
                        else if String.eqb s "{}" then Decoded (PDict ∅)
                        else DecodeError "Expecting value: line 1 column 1 (char 0)";
     now := clock;
     stopwatch := λ _, 1.5%float;
     int_max_str_digits := 4300;
     sleep_error := clock_range |}.

(** Three invocations in a row against that service: one sample, one run. *)
Definition invocation (w : world) : outcome execution_stats * world :=
  run_pilot_study fickle 3 [corn] [sample_a] template flash "pilot.csv" 1 w.

Definition first_invocation := invocation fresh.
Definition second_invocation := invocation first_invocation.2.
Definition third_invocation := invocation second_invocation.2.

(** A service that fails once with a transient error and answers from then
    on. *)
Definition flaky : env :=
  {| service := λ k, match k with
                     | O => Fails (Exn "ServiceUnavailable"
                                     "503 The service is currently unavailable.")
                     | S _ => Text "{}"
                     end;
     disk := λ _, true;
     json_loads := λ s, if String.eqb s "{}" then Decoded (PDict ∅)
                        else DecodeError "Expecting value: line 1 column 1 (char 0)";
     now := clock;
     stopwatch := λ _, 1.5%float;
     int_max_str_digits := 4300;
     sleep_error := clock_range |}.

(** A service that is down: every request fails with the same error, which
    is not of the rate-limit class. *)
Definition down : env :=
  {| service := λ _, Fails (Exn "ServiceUnavailable"
                              "503 The service is currently unavailable.");
     disk := λ _, true;
     json_loads := λ _, DecodeError "Expecting value: line 1 column 1 (char 0)";
     now := clock;
     stopwatch := λ _, 0%float;
     int_max_str_digits := 4300;
     sleep_error := clock_range |}.

(** A service that turns every request down for a very long time: the
    error asks to wait 10^30 seconds, more than [time.sleep] accepts. *)
Definition deferring : env :=
  {| service := λ _, Fails (Exn "ResourceExhausted"
       "429 Quota exceeded. retry_delay { seconds: 1000000000000000000000000000000 }");
     disk := λ _, true;
     json_loads := λ _, DecodeError "Expecting value: line 1 column 1 (char 0)";
     now := clock;
     stopwatch := λ _, 0%float;
     int_max_str_digits := 4300;
     sleep_error := clock_range |}.

(** A run of [n] digits. *)
Fixpoint ones (n : nat) : string :=
  match n with
  | O => EmptyString
  | S m => String "1" (ones m)
  end.

(** A service whose error suggests a wait of 4429 digits, and the
    [ValueError] that [int()] raises on them: its text has [429] in it. *)
Definition overlong : env :=
  {| service := λ _, Fails (Exn "ResourceExhausted"
       ("429 Quota exceeded. retry_delay { seconds: " +:+ ones 4429 +:+ " }"));
     disk := λ _, true;
     json_loads := λ _, DecodeError "Expecting value: line 1 column 1 (char 0)";
     now := clock;
     stopwatch := λ _, 0%float;
     int_max_str_digits := 4300;
     sleep_error := clock_range |}.

Definition overlong_error : exn :=
  Exn "ValueError"
    ("Exceeds the limit (4300 digits) for integer string conversion: " +:+
     "value has 4429 digits; use sys.set_int_max_str_digits() to increase the limit").

(** A world whose ledger ends in a piece of a record that was cut off before
    its line end: no reader decodes it, with or without a line after it. *)
Definition torn : world :=
  {| ledger := Some [ LTail LInvalid (Some LInvalid) ]; trace := [] |}.

(** A world whose ledger is one success record that was left without its
    line end: a record on its own, and no JSON once another text is glued
    to it. *)
Definition unterminated : world :=
  {| ledger := Some [ LTail (entry (PStr "id-a") 1 true) (Some LInvalid) ];
     trace := [] |}.

(** A world whose ledger holds one success record, of a sample that is not
    in the test data. *)
Definition stale : world :=
  {| ledger := Some [ entry (PStr "id-z") 1 true ]; trace := [] |}.

(** An invocation that finds that ledger, for one run of a matched and of an
    unmatched sample, and the invocation after it. *)
Definition stale_run : outcome execution_stats * world :=
  run_pilot_study obliging 3 [corn] [sample_a; sample_u] template flash "pilot.csv" 1
    stale.

Definition stale_rerun : outcome execution_stats * world :=
  run_pilot_study obliging 3 [corn] [sample_a; sample_u] template flash "pilot.csv" 1
    stale_run.2.

(** An invocation that finds the ledger with the piece that was cut off, for
    one run of two rows with the same sample id, against the service that
    fails once, with one attempt for each call; and the invocation after
    it. *)
Definition torn_run : outcome execution_stats * world :=
  run_pilot_study flaky 1 [corn] [sample_a; sample_a] template flash "pilot.csv" 1 torn.

Definition torn_rerun : outcome execution_stats * world :=
  run_pilot_study flaky 1 [corn] [sample_a; sample_a] template flash "pilot.csv" 1
    torn_run.2.

End Scenario.

(** * Properties *)

Lemma registered_rpm_cases (model_name : string) :
  (AVAILABLE_MODELS !! model_name = None ∧ registered_rpm model_name = PInt 15) ∨
  (∃ cfg, AVAILABLE_MODELS !! model_name = Some cfg ∧
          (cfg !! "rpm" = Some (PInt 15) ∧ registered_rpm model_name = PInt 15 ∨
           cfg !! "rpm" = Some (PInt 2) ∧ registered_rpm model_name = PInt 2)).
Proof.
  unfold registered_rpm, AVAILABLE_MODELS.
  destruct (decide (model_name = "models/gemini-1.5-flash-latest")) as [->|H1].
  { right. eexists. split; [reflexivity|]. left. split; reflexivity. }
  destruct (decide (model_name = "models/gemini-1.5-pro-latest")) as [->|H2].
  { right. eexists. split; [reflexivity|]. right. split; reflexivity. }
  destruct (decide (model_name = "models/gemini-2.5-flash-lite")) as [->|H3].
  { right. eexists. split; [reflexivity|]. left. split; reflexivity. }
  left.
  assert (Hn : AVAILABLE_MODELS !! model_name = None).
  { unfold AVAILABLE_MODELS. rewrite !lookup_insert_ne by done. by apply lookup_singleton_ne. }
  fold AVAILABLE_MODELS. rewrite Hn. done.
Qed.

(** ** The rate governor *)

(** C6. For every model identifier the rate governor returns
    [(60 / rpm) * 1.1], where [rpm] is the limit registered for the model and
    15 when the model is not registered; it always returns (no exception) and
    is a function of the identifier alone. With 15 requests per minute the
    delay is 4.4 seconds, with 2 it is 33 seconds, and an unknown model gets
    the 15-per-minute delay. *)
Theorem rate_governor_delay :
  (∀ model_name : string, ∃ rpm : Z,
      ((∃ cfg, AVAILABLE_MODELS !! model_name = Some cfg ∧ cfg !! "rpm" = Some (PInt rpm)) ∨
       (AVAILABLE_MODELS !! model_name = None ∧ rpm = 15)) ∧
      get_rate_limit_delay model_name = Ret (spec_delay rpm)) ∧
  spec_delay 15 = 4.4%float ∧
  spec_delay 2 = 33%float ∧
  get_rate_limit_delay "models/gemini-1.5-flash-latest" = Ret 4.4%float ∧
  get_rate_limit_delay "models/gemini-1.5-pro-latest" = Ret 33%float ∧
  get_rate_limit_delay "models/gemini-2.5-flash-lite" = Ret 4.4%float ∧
  get_rate_limit_delay "models/some-unknown-model" = Ret (spec_delay 15).
Proof.
  split; [|repeat split; reflexivity].
  intros model_name. unfold get_rate_limit_delay.
  destruct (registered_rpm_cases model_name)
    as [[Hn ->]|(cfg & Hc & [[Hr ->]|[Hr ->]])].
  - exists 15. split; [right; done | reflexivity].
  - exists 15. split; [left; eauto | reflexivity].
  - exists 2. split; [left; eauto | reflexivity].
Qed.

(** ** The remote-call executor *)

Lemma get_rate_limit_delay_unknown (model_name : string) :
  AVAILABLE_MODELS !! model_name = None →
  get_rate_limit_delay model_name = Ret 4.4%float.
Proof.
  intros Hn. unfold get_rate_limit_delay.
  destruct (registered_rpm_cases model_name) as [[_ ->]|(cfg & Hc & _)];
    [reflexivity | congruence].
Qed.

(** C10. For a model name that is not in the registry, [generate_content]
    raises a [ValueError] and the world is untouched (no request was issued,
    no sleep happened), whereas the rate governor accepts the same name and
    returns the default delay. *)
Theorem unknown_model_rejected (E : env) (max_retries : Z)
    (prompt model_name : string) (w : world) :
  AVAILABLE_MODELS !! model_name = None →
  (∃ msg, generate_content E max_retries prompt model_name w
          = (Raise (Exn "ValueError" msg), w)) ∧
  get_rate_limit_delay model_name = Ret 4.4%float.
Proof.
  intros Hn. split.
  - unfold generate_content. rewrite Hn. eauto.
  - by apply get_rate_limit_delay_unknown.
Qed.

Lemma unknown_model_rejected_witness :
  AVAILABLE_MODELS !! "models/gemini-ultra" = None ∧
  (∃ msg, generate_content Scenario.exhausted 3 "prompt" "models/gemini-ultra" Scenario.fresh
          = (Raise (Exn "ValueError" msg), Scenario.fresh)) ∧
  get_rate_limit_delay "models/gemini-ultra" = Ret 4.4%float.
Proof.
  split; [reflexivity|].
  apply (unknown_model_rejected Scenario.exhausted 3 "prompt" "models/gemini-ultra").
  reflexivity.
Defined.

(** C2, at the input where the code departs from it. With [max_retries = 3]
    and a service that answers every request with a 429 error, the executor
    makes its three requests, sleeps the governor's delay after each, and then
    returns [None] to the caller: no exception is raised after the last attempt
    has failed. *)
Theorem executor_returns_none_when_rate_limited :
  generate_content Scenario.exhausted 3 "prompt" Scenario.flash Scenario.fresh
  = (Ret None, Scenario.after_three_attempts).
Proof. vm_compute. reflexivity. Qed.

(** ** Records *)

Lemma lookup_with_id_created_at_ne (s : sample) (record : gmap string pyval) (k : string) :
  k ≠ "sample_id_created_at" →
  with_id_created_at s record !! k = record !! k.
Proof.
  intros Hk. unfold with_id_created_at.
  destruct (id_created_at s); [by rewrite lookup_insert_ne|done].
Qed.

Lemma lookup_with_id_created_at_eq (s : sample) (record : gmap string pyval) :
  with_id_created_at s record !! "sample_id_created_at"
  = match id_created_at s with
    | Some created => Some (PStr created)
    | None => record !! "sample_id_created_at"
    end.
Proof.
  unfold with_id_created_at.
  destruct (id_created_at s); [by rewrite lookup_insert_eq|done].
Qed.

Lemma error_record_shares_metadata (timestamp : string) (s : sample) (error : exn)
    (run_number : Z) (model_name : string) (processing_time : float) :
  Forall (λ k, create_error_record timestamp s error run_number model_name !! k
               = success_metadata timestamp s run_number model_name processing_time !! k)
         shared_metadata_keys.
Proof.
  unfold shared_metadata_keys, create_error_record, success_metadata.
  repeat apply Forall_cons_2; try apply Forall_nil_2;
    try (rewrite !lookup_with_id_created_at_ne by discriminate; record_lookup).
  rewrite !lookup_with_id_created_at_eq. destruct (id_created_at s); record_lookup.
Qed.

(** C8. A success record is the payload laid over the metadata: at every key
    the payload defines, the record has the payload's value, and the
    metadata's value elsewhere. So [success] is [True] when the payload has no
    such key and is the payload's own value when it has one, and the same goes
    for [sample_id], [run_number], [model_name] and [timestamp]. *)
Theorem payload_keys_take_precedence (timestamp : string) (result : gmap string pyval)
    (s : sample) (run_number : Z) (model_name : string) (processing_time : float) :
  ∃ record,
    add_metadata_to_result timestamp (PDict result) s run_number model_name processing_time
      = Ret record ∧
    (∀ k, record !! k
          = match result !! k with
            | Some v => Some v
            | None => success_metadata timestamp s run_number model_name processing_time !! k
            end) ∧
    record !! "success" = Some (default (PBool true) (result !! "success")) ∧
    record !! "sample_id"
      = Some (default (PStr (default ("row_" +:+ pretty (name s)) (sample_id s)))
                      (result !! "sample_id")) ∧
    record !! "run_number" = Some (default (PInt run_number) (result !! "run_number")) ∧
    record !! "model_name" = Some (default (PStr model_name) (result !! "model_name")) ∧
    record !! "timestamp" = Some (default (PStr timestamp) (result !! "timestamp")).
Proof.
  eexists. split; [reflexivity|].
  assert (Hk : ∀ k,
    (result ∪ success_metadata timestamp s run_number model_name processing_time) !! k
    = match result !! k with
      | Some v => Some v
      | None => success_metadata timestamp s run_number model_name processing_time !! k
      end).
  { intros k. rewrite lookup_union.
    destruct (result !! k), (success_metadata _ _ _ _ _ !! k); reflexivity. }
  split; [exact Hk|].
  repeat split; rewrite Hk;
    (destruct (result !! _); [reflexivity|]);
    unfold success_metadata;
    rewrite lookup_with_id_created_at_ne by discriminate; record_lookup.
Qed.

(** ** Reloading the ledger *)

Lemma whole_not_tail (l : line) : is_tail (whole l) = false.
Proof. induction l; cbn; done. Qed.

Lemma read_lines_not_tail (lines : list line) :
  Forall (λ l, is_tail l = false) (read_lines lines).
Proof.
  assert (H : ∀ n lines, (length lines ≤ n)%nat →
                Forall (λ l, is_tail l = false) (read_lines lines)).
  { clear lines. induction n as [|n IH]; intros lines Hn.
    - destruct lines; [constructor|cbn in Hn; lia].
    - destruct lines as [|l rest]; [constructor|]. cbn in Hn.
      destruct l; cbn [read_lines];
        try (constructor; [done|apply IH; lia]).
      destruct rest as [|next rest']; [by repeat constructor; apply whole_not_tail|].
      constructor; [apply whole_not_tail|]. apply IH. cbn in Hn. lia. }
  by apply (H (length lines)).
Qed.

Lemma read_lines_terminated (lines : list line) :
  forallb (λ l, negb (is_tail l)) lines = true → read_lines lines = lines.
Proof.
  induction lines as [|l lines IH]; [done|]. cbn [forallb].
  intros [Hl Hrest]%andb_prop. destruct l; cbn [read_lines]; try by rewrite IH.
  discriminate.
Qed.

Lemma lines_of_terminated (file : option (list line)) :
  terminated file = true → lines_of file = written file.
Proof. apply read_lines_terminated. Qed.

(** A line appended to a ledger that ends with a line end is read as it is. *)
Lemma terminated_snoc (file : option (list line)) (l : line) :
  terminated file = true → is_tail l = false →
  terminated (Some (written file ++ [l])) = true ∧
  lines_of (Some (written file ++ [l])) = lines_of file ++ [l].
Proof.
  intros Hfile Hl.
  assert (terminated (Some (written file ++ [l])) = true) as Hterm.
  { unfold terminated, written in *. cbn [default from_option id].
    rewrite forallb_app, Hfile. cbn. by rewrite Hl. }
  split; [done|]. by rewrite !lines_of_terminated.
Qed.

Lemma elem_of_success_pairs (lines : list line) (p : pykey * pykey) :
  p ∈ success_pairs lines ↔ ∃ v, LJson v ∈ lines ∧ success_record_for p v.
Proof.
  unfold success_pairs, success_record_for.
  rewrite elem_of_list_to_set, list_elem_of_omap. split.
  - intros (l & Hl & Hp). destruct l as [| |[]| | |]; try discriminate. cbn in Hp.
    destruct (truthy _) eqn:Ht; [|discriminate].
    destruct (py_key (default _ (d !! "sample_id"))) eqn:H1; [|discriminate].
    destruct (py_key (default _ (d !! "run_number"))) eqn:H2; [|discriminate].
    injection Hp as <-. eauto 10.
  - intros (v & Hl & d & -> & Ht & H1 & H2). eexists. split; [exact Hl|].
    cbn. rewrite Ht, H1, H2. by destruct p.
Qed.

Lemma has_success_record_lines (file : option (list line)) (p : pykey * pykey) :
  has_success_record file p ↔ p ∈ success_pairs (lines_of file).
Proof. by rewrite elem_of_success_pairs. Qed.

Lemma py_key_hashable (v : pyval) :
  hashable v = true → ∃ k, py_key v = Ret k.
Proof. destruct v; cbn; try discriminate; eauto. Qed.

Lemma py_key_unhashable (v : pyval) :
  hashable v = false → ∃ e, py_key v = Raise e.
Proof. destruct v; cbn; try discriminate; eauto. Qed.

Lemma load_lines_readable (lines : list line) (existing : list pyval) (completed : completion) :
  forallb line_ok lines = true →
  load_lines lines existing completed
  = Ret (existing ++ records_of lines, success_pairs lines ∪ completed).
Proof.
  revert existing completed.
  induction lines as [|l lines IH]; intros existing completed Hok.
  { cbn. rewrite app_nil_r. unfold success_pairs. cbn.
    by rewrite (left_id_L ∅ (∪)). }
  cbn in Hok. apply andb_prop in Hok as [Hl Hok].
  destruct l as [| |v|e|e|alone fused]; cbn [load_lines];
    try (rewrite IH by done; done); try discriminate.
  destruct v; try discriminate. cbn in Hl |- *.
  unfold success_pairs, records_of. cbn.
  destruct (truthy _) eqn:Ht.
  - apply andb_prop in Hl as [H1 H2].
    apply py_key_hashable in H1 as [k1 H1]. apply py_key_hashable in H2 as [k2 H2].
    rewrite H1, H2. cbn. rewrite IH by done.
    rewrite <- (assoc_L (++)), <- (assoc_L (∪)). cbn.
    do 2 f_equal. unfold success_pairs.
    rewrite (assoc_L (∪)), (comm_L (∪) (list_to_set _)). by rewrite <- (assoc_L (∪)).
  - rewrite IH by done. by rewrite <- (assoc_L (++)).
Qed.

Lemma load_lines_unreadable (lines : list line) (existing : list pyval) (completed : completion) :
  forallb line_ok lines = false →
  ∃ e, load_lines lines existing completed = Raise e.
Proof.
  revert existing completed.
  induction lines as [|l lines IH]; intros existing completed Hok; [discriminate|].
  cbn in Hok. apply andb_false_iff in Hok as [Hl|Hok].
  - destruct l as [| |v|e|e|alone fused]; try discriminate; [|cbn; eauto..].
    destruct v; cbn; eauto. cbn in Hl.
    destruct (truthy _); [|discriminate].
    apply andb_false_iff in Hl as [Hl|Hl]; apply py_key_unhashable in Hl as [e He];
      rewrite He; clear He;
      [|destruct (py_key (default _ (d !! "sample_id")))]; cbn; eauto.
  - destruct l as [| |v|e|e|alone fused]; cbn [load_lines];
      try (by apply IH); [|eauto..].
    destruct v; cbn; eauto.
    destruct (truthy _); [|by apply IH].
    destruct (py_key (default _ (d !! "sample_id"))); cbn; eauto.
    destruct (py_key (default _ (d !! "run_number"))); cbn; eauto.
Qed.

Lemma load_existing_results_file (file : option (list line)) :
  load_existing_results file
  = if readable file then (records_of (lines_of file), success_pairs (lines_of file))
    else ([], ∅).
Proof.
  destruct file as [lines|]; [|done].
  unfold load_existing_results, readable, lines_of. cbn [default from_option id].
  destruct (forallb line_ok (read_lines lines)) eqn:Hok.
  - rewrite load_lines_readable by done. cbn. by rewrite (right_id_L ∅ (∪)).
  - by destruct (load_lines_unreadable (read_lines lines) [] ∅ Hok) as [e ->].
Qed.

Lemma success_pairs_same_lines (lines lines' : list line) :
  (∀ l, l ∈ lines ↔ l ∈ lines') →
  success_pairs lines' = success_pairs lines.
Proof.
  intros Hsame. apply set_eq. intros p. unfold success_pairs.
  rewrite !elem_of_list_to_set, !list_elem_of_omap.
  split; intros (l & Hl & Hp); exists l; (split; [by apply Hsame|done]).
Qed.

Lemma forallb_same_lines (f : line → bool) (lines lines' : list line) :
  (∀ l, l ∈ lines ↔ l ∈ lines') →
  forallb f lines' = forallb f lines.
Proof.
  intros Hsame. apply eq_true_iff_eq. rewrite !forallb_forall.
  split; intros H l Hl; apply H; apply list_elem_of_In; apply Hsame; by apply list_elem_of_In.
Qed.

(** The lines that the reader skips change nothing. *)
Lemma load_existing_results_skipped (lines : list line) :
  terminated (Some lines) = true →
  load_existing_results (Some (filter (λ l, skipped l = false) lines))
  = load_existing_results (Some lines).
Proof.
  intros Hterm. rewrite !load_existing_results_file.
  assert (terminated (Some (filter (λ l, skipped l = false) lines)) = true) as Hterm'.
  { unfold terminated, written in *. cbn [default from_option id] in *.
    rewrite forallb_forall in Hterm |- *. intros l Hl. apply Hterm.
    apply list_elem_of_In. apply list_elem_of_In in Hl.
    by apply list_elem_of_filter in Hl as [_ Hl]. }
  unfold readable. rewrite !lines_of_terminated by done. unfold written.
  cbn [default from_option id]. clear Hterm Hterm'.
  unfold records_of, success_pairs.
  assert (H : forallb line_ok (filter (λ l, skipped l = false) lines)
              = forallb line_ok lines
              ∧ omap line_record (filter (λ l, skipped l = false) lines)
                = omap line_record lines
              ∧ omap success_pair (filter (λ l, skipped l = false) lines)
                = omap success_pair lines).
  { induction lines as [|l lines (IH1 & IH2 & IH3)]; [done|].
    destruct l as [| |v|e|e|alone fused];
      first [ rewrite filter_cons_False by (cbn; congruence); done
            | rewrite filter_cons_True by done; cbn; by rewrite ?IH1, ?IH2, ?IH3 ]. }
  destruct H as (-> & -> & ->). done.
Qed.

(** C4, the counterexample. The ledger holds a decodable success record for
    [("s1", 1)], and a second decodable record whose [sample_id] is a JSON
    array. Hashing the array raises inside the reader, the outer [except]
    answers with the empty list and the empty set, and the pair of the first
    record is not in the result. *)
Lemma poisoned_ledger_reloads_empty :
  has_success_record (Some Scenario.poisoned) (KStr "s1", KInt 1) ∧
  load_existing_results (Some Scenario.poisoned) = ([], ∅) ∧
  (KStr "s1", KInt 1) ∉ (load_existing_results (Some Scenario.poisoned)).2.
Proof.
  split; [|split].
  - eexists. split; [apply list_elem_of_here|].
    eexists. repeat split; reflexivity.
  - reflexivity.
  - change ((KStr "s1", KInt 1) ∉ (∅ : completion)). apply not_elem_of_empty.
Qed.

(** C4, amended. The reader gets through a file when each of its lines is
    blank, is rejected by the decoder with a [JSONDecodeError], or is a JSON
    object whose sample id and run index can be hashed whenever its success
    flag is true. Then it returns the decoded records in file order and
    exactly the set of pairs that have a success record. Otherwise (a decoded
    line is no such object, or reading or decoding a line raises another
    exception) it returns the empty list and the empty set. The lines it
    skips change nothing, a missing file gives the empty list and set, a
    ledger with the same lines in another order or multiplicity gives the same
    set, and the ledger [(s1,1,true), (s1,1,false), (s1,2,true)] gives exactly
    the runs 1 and 2 for s1. *)
Theorem completion_index_of_ledger (lines lines' : list line) :
  (∀ l, l ∈ lines_of (Some lines) ↔ l ∈ lines_of (Some lines')) →
  load_existing_results (Some lines)
    = (if readable (Some lines)
       then (records_of (lines_of (Some lines)), success_pairs (lines_of (Some lines)))
       else ([], ∅)) ∧
  (∀ p, p ∈ success_pairs (lines_of (Some lines)) ↔ has_success_record (Some lines) p) ∧
  (∀ e, LRaises e ∈ lines_of (Some lines) ∨ LUnreadable e ∈ lines_of (Some lines) →
        load_existing_results (Some lines) = ([], ∅)) ∧
  (terminated (Some lines) = true →
   load_existing_results (Some (filter (λ l, skipped l = false) lines))
   = load_existing_results (Some lines)) ∧
  (load_existing_results (Some lines')).2 = (load_existing_results (Some lines)).2 ∧
  load_existing_results None = ([], ∅) ∧
  sample_completed_runs (load_existing_results (Some Scenario.three_records)).2 "s1"
    = {[ KInt 1; KInt 2 ]}.
Proof.
  intros Hsame. split_and!.
  - apply load_existing_results_file.
  - intros p. symmetry. apply has_success_record_lines.
  - intros e Hraises. rewrite load_existing_results_file.
    assert (readable (Some lines) = false) as ->; [|done].
    apply not_true_is_false. unfold readable. rewrite forallb_forall.
    intros Hall. destruct Hraises as [Hl|Hl]; apply list_elem_of_In, Hall in Hl; done.
  - apply load_existing_results_skipped.
  - rewrite !load_existing_results_file. unfold readable.
    rewrite (forallb_same_lines line_ok _ _ Hsame).
    destruct (forallb _ _); cbn; [by apply success_pairs_same_lines|done].
  - reflexivity.
  - apply (bool_decide_unpack _). by vm_compute.
Qed.

Lemma completion_index_of_ledger_witness :
  (load_existing_results (Some Scenario.three_records_shuffled)).2
  = (load_existing_results (Some Scenario.three_records)).2.
Proof.
  refine (proj1 (proj2 (proj2 (proj2 (proj2
    (completion_index_of_ledger Scenario.three_records Scenario.three_records_shuffled _)))))).
  intros l. change (l ∈ Scenario.three_records ↔ l ∈ Scenario.three_records_shuffled).
  unfold Scenario.three_records, Scenario.three_records_shuffled.
  rewrite !elem_of_cons, !elem_of_nil. tauto.
Defined.

(** ** The executor and the ledger *)

(** One attempt of the executor: a text that is not empty is returned; after
    a failure the handler decides. *)
Lemma attempt_loop_step (E : env) (max_retries : Z) (prompt model_name : string)
    (attempt : Z) (rest : list Z) (w : world) :
  let w1 := log (EvRequest model_name prompt) w in
  match attempt_failure (service E (requests_issued w)) with
  | None =>
      ∃ text, service E (requests_issued w) = Text text ∧ truthy (PStr text) = true ∧
              attempt_loop E max_retries prompt model_name (attempt :: rest) w
              = (Ret (Some text), w1)
  | Some e =>
      attempt_loop E max_retries prompt model_name (attempt :: rest) w
      = match handle_failure E max_retries model_name attempt e with
        | Ret seconds =>
            attempt_loop E max_retries prompt model_name rest (log (EvSleep seconds) w1)
        | Raise e' => (Raise e', w1)
        end
  end.
Proof.
  cbn [attempt_loop]. unfold attempt_failure.
  destruct (service E _) as [text|e]; [|done].
  destruct (truthy (PStr text)) eqn:Ht; [eauto|done].
Qed.

Lemma attempt_loop_ledger (E : env) (max_retries : Z) (prompt model_name : string)
    (attempts : list Z) (w : world) :
  ledger (attempt_loop E max_retries prompt model_name attempts w).2 = ledger w.
Proof.
  revert w. induction attempts as [|attempt rest IH]; intros w; [done|].
  pose proof (attempt_loop_step E max_retries prompt model_name attempt rest w) as Hstep.
  cbn zeta in Hstep.
  destruct (attempt_failure _) as [e|].
  - rewrite Hstep. destruct (handle_failure _ _ _ _ _); [by rewrite IH|done].
  - by destruct Hstep as (text & _ & _ & ->).
Qed.

Lemma generate_content_ledger (E : env) (max_retries : Z) (prompt model_name : string)
    (w : world) :
  ledger (generate_content E max_retries prompt model_name w).2 = ledger w.
Proof.
  unfold generate_content. destruct (AVAILABLE_MODELS !! _); [|done].
  apply attempt_loop_ledger.
Qed.

Lemma try_run_ledger (E : env) (max_retries : Z) (model_name : string) (s : sample)
    (prompt : string) (run_num : Z) (w : world) :
  ledger (try_run E max_retries model_name s prompt run_num w).2 = ledger w.
Proof.
  unfold try_run.
  pose proof (generate_content_ledger E max_retries prompt model_name w) as H.
  by destruct (generate_content _ _ _ _ _).
Qed.

(** C7, the counterexample. The metadata of a success record carries
    [processing_time_seconds]; the error record built for the same sample,
    run and model has no such field. *)
Lemma error_record_lacks_processing_time :
  success_metadata "2025-01-01T00:00:00" Scenario.sample_a 1 Scenario.flash 2.5%float
    !! "processing_time_seconds" = Some (PFloat 2.5%float) ∧
  create_error_record "2025-01-01T00:00:00" Scenario.sample_a
    (Exn "ValueError" "Empty response from API") 1 Scenario.flash
    !! "processing_time_seconds" = None.
Proof. split; reflexivity. Qed.

(** C7, amended. When a run attempt fails with an error that is not of the
    quota class, the orchestrator builds an error record and appends it to the
    ledger (when the write goes through). The record has [success = False],
    [error_type] the name of the exception's class, [error_message] its text,
    the metadata fields of a success record with the same values, except
    [processing_time_seconds], which an error record does not have, and the
    payload fields set to null or the empty list. *)
Theorem error_record_of_failed_run (E : env) (max_retries : Z) (model_name : string)
    (s : sample) (sample_id prompt : string) (run_num : Z) (st : loop_state)
    (w w1 : world) (e : exn) :
  try_run E max_retries model_name s prompt run_num w = (Raise e, w1) →
  is_quota_error e = false →
  let timestamp := now E (length (trace w1)) in
  let record := create_error_record timestamp s e run_num model_name in
  let saved := disk E (appends_tried w1) in
  (∃ w2, run_once E max_retries model_name s sample_id prompt run_num st w
         = (false, if saved then count_new_result st else st, w2) ∧
         ledger w2 = if saved then Some (default [] (ledger w) ++ [LJson (PDict record)])
                     else ledger w) ∧
  record !! "success" = Some (PBool false) ∧
  record !! "error_type" = Some (PStr (exn_type e)) ∧
  record !! "error_message" = Some (PStr (exn_msg e)) ∧
  (∀ processing_time,
     Forall (λ k, record !! k
                  = success_metadata timestamp s run_num model_name processing_time !! k)
            shared_metadata_keys) ∧
  record !! "processing_time_seconds" = None ∧
  record !! "is_correct" = Some PNone ∧
  record !! "confidence_score" = Some PNone ∧
  record !! "reasoning" = Some PNone ∧
  record !! "alternative_codes" = Some (PList []) ∧
  record !! "alternative_reasoning" = Some PNone.
Proof.
  intros Htry Hq timestamp record saved. split_and!.
  - pose proof (try_run_ledger E max_retries model_name s prompt run_num w) as Hl.
    unfold run_once. rewrite Htry in Hl |- *. cbn in Hl. rewrite Hq.
    unfold save_result_to_jsonl. fold timestamp record saved.
    eexists. split; [reflexivity|]. cbn. rewrite Hl. by destruct saved.
  - unfold record, create_error_record.
    rewrite lookup_with_id_created_at_ne by discriminate. record_lookup.
  - unfold record, create_error_record.
    rewrite lookup_with_id_created_at_ne by discriminate. record_lookup.
  - unfold record, create_error_record.
    rewrite lookup_with_id_created_at_ne by discriminate. record_lookup.
  - intros processing_time. apply error_record_shares_metadata.
  - unfold record, create_error_record.
    rewrite lookup_with_id_created_at_ne by discriminate. record_lookup.
  - unfold record, create_error_record.
    rewrite lookup_with_id_created_at_ne by discriminate. record_lookup.
  - unfold record, create_error_record.
    rewrite lookup_with_id_created_at_ne by discriminate. record_lookup.
  - unfold record, create_error_record.
    rewrite lookup_with_id_created_at_ne by discriminate. record_lookup.
  - unfold record, create_error_record.
    rewrite lookup_with_id_created_at_ne by discriminate. record_lookup.
  - unfold record, create_error_record.
    rewrite lookup_with_id_created_at_ne by discriminate. record_lookup.
Qed.

Lemma error_record_of_failed_run_witness :
  ∃ w2, run_once Scenario.exhausted 3 Scenario.flash Scenario.sample_a "id-a" "prompt" 1
          Scenario.start Scenario.fresh
        = (false, count_new_result Scenario.start, w2) ∧
        ledger w2
        = Some [LJson (PDict (create_error_record (Scenario.clock 6) Scenario.sample_a
                                Scenario.none_error 1 Scenario.flash))].
Proof.
  refine (proj1 (error_record_of_failed_run Scenario.exhausted 3 Scenario.flash
            Scenario.sample_a "id-a" "prompt" 1 Scenario.start Scenario.fresh
            Scenario.after_three_attempts Scenario.none_error _ _)).
  - vm_compute. reflexivity.
  - vm_compute. reflexivity.
Defined.

(** ** The processing loop *)

Section loop_facts.

Context (E : env) (max_retries : Z).
Context (codebook : list codebook_row) (master_template model_name : string).
Context (rate_delay : float) (n_runs : Z).

#[local] Abbreviation process :=
  (process_samples E max_retries codebook master_template model_name rate_delay n_runs).
#[local] Abbreviation remaining := (run_remaining E max_retries model_name rate_delay).

(** The loop over the samples of [pre ++ post] is the loop over [pre],
    followed, unless the breaker tripped, by the loop over [post]. *)
Lemma process_samples_app (pre post : list sample) (idx : Z) (st : loop_state) (w : world) :
  resource_exhausted st = false →
  process idx (pre ++ post) st w
  = let '(st1, w1) := process idx pre st w in
    if resource_exhausted st1 then (st1, w1)
    else process (idx + Z.of_nat (length pre)) post st1 w1.
Proof.
  revert idx st w. induction pre as [|s pre IH]; intros idx st w Hst.
  { cbn. rewrite Hst. by rewrite Z.add_0_r. }
  cbn [app process_samples length].
  replace (idx + Z.of_nat (S (length pre))) with (idx + 1 + Z.of_nat (length pre)) by lia.
  destruct (build_prompt_for_sample _ _ _) as [prompt|]; [|by apply IH].
  destruct (remaining_runs _ _ _) as [|run_num runs]; [by apply IH|].
  destruct (remaining _ _ _ _ _ _) as [st1 w1].
  destruct (resource_exhausted (count_processed st1)) eqn:Hx.
  - by rewrite Hx.
  - by apply IH.
Qed.

(** One pass of the inner loop, by the outcome of the [try] block and of
    the write. *)
Lemma run_once_cases (s : sample) (sample_id prompt : string) (run_num : Z)
    (st : loop_state) (w : world) :
  ∃ tried w1,
    try_run E max_retries model_name s prompt run_num w = (tried, w1) ∧
    ledger w1 = ledger w ∧
    let saved := disk E (appends_tried w1) in
    let appended (record : gmap string pyval) :=
      {| ledger := if saved then Some (default [] (ledger w) ++ [LJson (PDict record)])
                   else ledger w;
         trace := trace w1 ++ [EvAppend saved] |} in
    run_once E max_retries model_name s sample_id prompt run_num st w
    = match tried with
      | Ret full_result =>
          (false,
           if saved then mark_completed (KStr sample_id, KInt run_num) st else st,
           appended full_result)
      | Raise e =>
          if is_quota_error e then (true, trip_breaker st, w1)
          else (false, if saved then count_new_result st else st,
                appended (create_error_record (now E (length (trace w1))) s e
                            run_num model_name))
      end.
Proof.
  pose proof (try_run_ledger E max_retries model_name s prompt run_num w) as Hl.
  unfold run_once. destruct (try_run _ _ _ _ _ _ _) as [tried w1].
  exists tried, w1. cbn in Hl. split; [done|]. split; [done|]. cbn zeta.
  unfold save_result_to_jsonl. rewrite Hl.
  destruct tried as [full_result|e].
  - by destruct (disk E _).
  - destruct (is_quota_error e); [done|]. by destruct (disk E _).
Qed.

(** A relation between the state of the loop before and after some of its
    steps holds across the whole loop when it is reflexive, transitive, and
    holds for every step: a pass of the inner loop for a sample of the data,
    the rate-limited delay, and the count of a processed sample. *)
Section relation.

Context (P : sample → Prop) (R : loop_state * world → loop_state * world → Prop).
Hypothesis R_refl : ∀ x, R x x.
Hypothesis R_trans : ∀ x y z, R x y → R y z → R x z.
Hypothesis R_once : ∀ s (idx : Z) prompt run_num st w,
  P s →
  R (st, w)
    (let '(_, st', w') :=
       run_once E max_retries model_name s
         (default ("row_" +:+ pretty idx) (sample_id s)) prompt run_num st w in
     (st', w')).
Hypothesis R_sleep : ∀ st w, R (st, w) (st, log (EvSleep (PFloat rate_delay)) w).
Hypothesis R_count : ∀ st w, R (st, w) (count_processed st, w).

Lemma run_remaining_relation (s : sample) (idx : Z) (prompt : string) (runs : list Z)
    (st : loop_state) (w : world) :
  P s →
  R (st, w)
    (remaining s (default ("row_" +:+ pretty idx) (sample_id s)) prompt runs st w).
Proof.
  intros Hs. revert st w. induction runs as [|run_num runs IH]; intros st w; [done|].
  cbn [run_remaining]. destruct (resource_exhausted st); [done|].
  pose proof (R_once s idx prompt run_num st w Hs) as Hstep.
  destruct (run_once _ _ _ _ _ _ _ _ _) as [[stop st1] w1].
  destruct stop; [done|].
  eapply R_trans; [exact Hstep|]. eapply R_trans; [apply R_sleep|]. apply IH.
Qed.

Lemma process_samples_relation (samples : list sample) (idx : Z)
    (st : loop_state) (w : world) :
  Forall P samples →
  R (st, w) (process idx samples st w).
Proof.
  intros Hall. revert idx st w.
  induction Hall as [|s samples Hs _ IH]; intros idx st w; [done|].
  cbn [process_samples].
  destruct (build_prompt_for_sample _ _ _) as [prompt|]; [|by apply IH].
  destruct (remaining_runs _ _ _) as [|run_num runs] eqn:Hruns.
  { eapply R_trans; [apply R_count|]. apply IH. }
  pose proof (run_remaining_relation s idx prompt (run_num :: runs) st w Hs) as Hrun.
  destruct (remaining _ _ _ _ _ _) as [st1 w1].
  assert (R (st, w) (count_processed st1, w1)) as Hcount.
  { eapply R_trans; [exact Hrun|]. apply R_count. }
  destruct (resource_exhausted (count_processed st1)); [done|].
  eapply R_trans; [exact Hcount|]. apply IH.
Qed.

End relation.

End loop_facts.

Lemma build_prompt_set_dataset_name (template dataset_filename : string) (s : sample)
    (codebook : list codebook_row) :
  build_prompt_for_sample template (set_dataset_name dataset_filename s) codebook
  = build_prompt_for_sample template s codebook.
Proof. reflexivity. Qed.

Lemma get_rate_limit_delay_returns (model_name : string) :
  ∃ rate_delay, get_rate_limit_delay model_name = Ret rate_delay.
Proof.
  unfold get_rate_limit_delay.
  destruct (registered_rpm_cases model_name)
    as [[_ ->]|(cfg & _ & [[_ ->]|[_ ->]])]; cbn; eauto.
Qed.

(** C5, the counterexample. The code 99999 of the sample is not in the
    codebook, so no prompt is built and the sample is skipped; yet it adds its
    three runs to the expected total, which is the number of rows of the test
    data times the number of runs. *)
Lemma skipped_sample_counts_in_total :
  build_prompt_for_sample Scenario.template Scenario.sample_u [Scenario.corn] = None ∧
  total_expected_runs [Scenario.sample_a] 3 = 3 ∧
  total_expected_runs [Scenario.sample_a; Scenario.sample_u] 3 = 6.
Proof. split_and!; reflexivity. Qed.

(** C5, amended. A sample whose code has no match in the codebook is stepped
    over wherever it stands in the test data: the loop over the data is the
    loop over the samples before it followed (unless the breaker tripped) by
    the loop over the samples after it, so no request is issued and no record
    is appended for it, and the loop does not count it as processed. It is
    counted, however, in the total of expected runs, which is the number of
    rows times the number of runs, matched or not. So for every invocation:
    when the completion set has as many pairs as that total, the invocation
    leaves at once and reports every row as processed, the skipped sample
    included; otherwise it runs the loop, in which the sample has no part, and
    reports the counts of the loop. *)
Theorem unmatched_sample_is_skipped (E : env) (max_retries : Z)
    (codebook : list codebook_row) (master_template model_name dataset_filename : string)
    (n_runs : Z) (pre post : list sample) (s : sample) :
  build_prompt_for_sample master_template s codebook = None →
  (∀ rate_delay idx st w,
     resource_exhausted st = false →
     process_samples E max_retries codebook master_template model_name rate_delay n_runs
       idx (pre ++ s :: post) st w
     = (let '(st1, w1) :=
          process_samples E max_retries codebook master_template model_name rate_delay
            n_runs idx pre st w in
        if resource_exhausted st1 then (st1, w1)
        else process_samples E max_retries codebook master_template model_name rate_delay
               n_runs (idx + Z.of_nat (length pre) + 1) post st1 w1)) ∧
  total_expected_runs (pre ++ s :: post) n_runs
  = total_expected_runs (pre ++ post) n_runs + n_runs ∧
  (∀ rate_delay w,
     get_rate_limit_delay model_name = Ret rate_delay →
     run_pilot_study E max_retries codebook (pre ++ s :: post) master_template model_name
       dataset_filename n_runs w
     = let '(existing_results, completed_runs) := load_existing_results (ledger w) in
       if bool_decide (Z.of_nat (size completed_runs)
                       = total_expected_runs (pre ++ s :: post) n_runs)
       then
         (Ret {| stat_processed_samples := Z.of_nat (length (pre ++ s :: post));
                 stat_total_completed := Z.of_nat (length existing_results);
                 stat_new_results_generated := 0;
                 stat_success_rate := calculate_success_rate (ledger w) |}, w)
       else
         let '(st, w') :=
           (let '(st1, w1) :=
              process_samples E max_retries codebook master_template model_name
                rate_delay n_runs 0 (set_dataset_name dataset_filename <$> pre)
                {| completed_runs := completed_runs; processed_samples := 0;
                   new_results_count := 0; resource_exhausted := false |} w in
            if resource_exhausted st1 then (st1, w1)
            else process_samples E max_retries codebook master_template model_name
                   rate_delay n_runs (Z.of_nat (length pre) + 1)
                   (set_dataset_name dataset_filename <$> post) st1 w1) in
         (Ret {| stat_processed_samples := processed_samples st;
                 stat_total_completed
                   := Z.of_nat (length existing_results) + new_results_count st;
                 stat_new_results_generated := new_results_count st;
                 stat_success_rate := calculate_success_rate (ledger w') |}, w')).
Proof.
  intros Hskip.
  assert (Hloop : ∀ rate_delay idx (pre' post' : list sample) s' st w,
    build_prompt_for_sample master_template s' codebook = None →
    resource_exhausted st = false →
    process_samples E max_retries codebook master_template model_name rate_delay n_runs
      idx (pre' ++ s' :: post') st w
    = (let '(st1, w1) :=
         process_samples E max_retries codebook master_template model_name rate_delay
           n_runs idx pre' st w in
       if resource_exhausted st1 then (st1, w1)
       else process_samples E max_retries codebook master_template model_name rate_delay
              n_runs (idx + Z.of_nat (length pre') + 1) post' st1 w1)).
  { intros rate_delay idx pre' post' s' st w Hskip' Hst.
    rewrite process_samples_app by done.
    destruct (process_samples _ _ _ _ _ _ _ _ _ _ _) as [st1 w1].
    destruct (resource_exhausted st1); [done|].
    cbn [process_samples]. by rewrite Hskip'. }
  split_and!.
  - intros rate_delay idx st w. by apply Hloop.
  - unfold total_expected_runs. rewrite !length_app. cbn [length]. lia.
  - intros rate_delay w Hdelay. unfold run_pilot_study. rewrite Hdelay.
    destruct (load_existing_results (ledger w)) as [existing completed].
    assert (total_expected_runs (set_dataset_name dataset_filename <$> pre ++ s :: post)
              n_runs
            = total_expected_runs (pre ++ s :: post) n_runs) as ->
      by (unfold total_expected_runs; by rewrite length_fmap).
    rewrite length_fmap. case_bool_decide; [done|].
    rewrite fmap_app, fmap_cons, Hloop, length_fmap, Z.add_0_l; done.
Qed.

Lemma unmatched_sample_is_skipped_witness :
  run_pilot_study Scenario.obliging 3 [Scenario.corn]
    ([Scenario.sample_a] ++ Scenario.sample_u :: [Scenario.sample_b]) Scenario.template
    Scenario.flash "pilot.csv" 1 Scenario.fresh
  = let '(existing_results, completed_runs) :=
      load_existing_results (ledger Scenario.fresh) in
    if bool_decide (Z.of_nat (size completed_runs)
                    = total_expected_runs
                        ([Scenario.sample_a] ++ Scenario.sample_u :: [Scenario.sample_b]) 1)
    then
      (Ret {| stat_processed_samples
                := Z.of_nat (length ([Scenario.sample_a] ++ Scenario.sample_u
                                       :: [Scenario.sample_b]));
              stat_total_completed := Z.of_nat (length existing_results);
              stat_new_results_generated := 0;
              stat_success_rate := calculate_success_rate (ledger Scenario.fresh) |},
       Scenario.fresh)
    else
      let '(st, w') :=
        (let '(st1, w1) :=
           process_samples Scenario.obliging 3 [Scenario.corn] Scenario.template
             Scenario.flash 4.4%float 1 0 (set_dataset_name "pilot.csv" <$> [Scenario.sample_a])
             {| completed_runs := completed_runs; processed_samples := 0;
                new_results_count := 0; resource_exhausted := false |} Scenario.fresh in
         if resource_exhausted st1 then (st1, w1)
         else process_samples Scenario.obliging 3 [Scenario.corn] Scenario.template
                Scenario.flash 4.4%float 1 (Z.of_nat (length [Scenario.sample_a]) + 1)
                (set_dataset_name "pilot.csv" <$> [Scenario.sample_b]) st1 w1) in
      (Ret {| stat_processed_samples := processed_samples st;
              stat_total_completed
                := Z.of_nat (length existing_results) + new_results_count st;
              stat_new_results_generated := new_results_count st;
              stat_success_rate := calculate_success_rate (ledger w') |}, w').
Proof.
  refine (proj2 (proj2
    (unmatched_sample_is_skipped Scenario.obliging 3 [Scenario.corn] Scenario.template
       Scenario.flash "pilot.csv" 1 [Scenario.sample_a] [Scenario.sample_b]
       Scenario.sample_u _)) 4.4%float Scenario.fresh _); reflexivity.
Defined.

(** ** The remaining runs *)

Lemma elem_of_sample_completed_runs (completed : completion) (sample_id : string)
    (k : pykey) :
  k ∈ sample_completed_runs completed sample_id ↔ (KStr sample_id, k) ∈ completed.
Proof.
  unfold sample_completed_runs. rewrite elem_of_map. split.
  - intros ([k1 k2] & -> & Hp). apply elem_of_filter in Hp as [Hk Hp].
    cbn in Hk. by subst k1.
  - intros Hp. exists (KStr sample_id, k). split; [done|]. by apply elem_of_filter.
Qed.

Lemma elem_of_remaining_runs (completed : completion) (sample_id : string)
    (n_runs k : Z) :
  k ∈ remaining_runs completed sample_id n_runs
  ↔ 1 ≤ k ≤ n_runs ∧ (KStr sample_id, KInt k) ∉ completed.
Proof.
  unfold remaining_runs.
  rewrite list_elem_of_filter, elem_of_seqZ, elem_of_sample_completed_runs.
  split; intros [H1 H2]; (split; [lia || done|lia || done]).
Qed.

Lemma remaining_runs_nil (completed : completion) (sample_id : string) (n_runs : Z) :
  (∀ k, 1 ≤ k ≤ n_runs → (KStr sample_id, KInt k) ∈ completed) →
  remaining_runs completed sample_id n_runs = [].
Proof.
  intros Hall. destruct (remaining_runs _ _ _) as [|k runs] eqn:Hruns; [done|].
  assert (k ∈ remaining_runs completed sample_id n_runs) as Hk
    by (rewrite Hruns; apply list_elem_of_here).
  apply elem_of_remaining_runs in Hk as [Hk Hnot]. by destruct Hnot; apply Hall.
Qed.

Lemma completeb_complete (codebook : list codebook_row) (master_template : string)
    (test_data : list sample) (n_runs : Z) (file : option (list line)) :
  completeb codebook master_template test_data n_runs file = true →
  complete codebook master_template test_data n_runs file.
Proof.
  unfold completeb, complete. rewrite forallb_forall.
  intros Hall i s Hi [prompt Hprompt] k Hk.
  specialize (Hall (i, s)). cbn in Hall. rewrite Hprompt in Hall.
  rewrite forallb_forall in Hall.
  apply has_success_record_lines.
  eapply bool_decide_eq_true_1, Hall.
  - apply list_elem_of_In, list_elem_of_lookup. exists i.
    by rewrite list_lookup_imap, Hi.
  - apply list_elem_of_In, elem_of_seqZ. lia.
Qed.

(** ** The completion set and the ledger *)

Lemma attempt_loop_answer (E : env) (max_retries : Z) (prompt model_name : string)
    (attempts : list Z) (w w1 : world) (text : string) :
  attempt_loop E max_retries prompt model_name attempts w = (Ret (Some text), w1) →
  ∃ k, service E k = Text text ∧ truthy (PStr text) = true.
Proof.
  revert w. induction attempts as [|attempt rest IH]; intros w; [done|].
  pose proof (attempt_loop_step E max_retries prompt model_name attempt rest w) as Hstep.
  cbn zeta in Hstep.
  destruct (attempt_failure _) as [e0|].
  - rewrite Hstep. destruct (handle_failure _ _ _ _ _); [apply IH|done].
  - destruct Hstep as (text' & Hk & Ht & ->). intros [= -> _]. eauto.
Qed.

Lemma try_run_ret (E : env) (max_retries : Z) (model_name : string) (s : sample)
    (prompt : string) (run_num : Z) (w w1 : world) (full_result : gmap string pyval) :
  try_run E max_retries model_name s prompt run_num w = (Ret full_result, w1) →
  ∃ k text d,
    service E k = Text text ∧
    extract_json_from_response E (Some text) = Ret (PDict d) ∧
    full_result
    = d ∪ success_metadata (now E (length (trace w1))) s run_num model_name
            (stopwatch E (length (trace w1))).
Proof.
  unfold try_run.
  destruct (generate_content _ _ _ _ _) as [raw w1'] eqn:Hgen.
  intros [= Hfull <-].
  destruct raw as [[text|]|e]; [|by cbn in Hfull..].
  cbn [mbind outcome_bind] in Hfull.
  destruct (extract_json_from_response E (Some text)) as [parsed|e] eqn:Hparsed;
    [|discriminate].
  destruct parsed; cbn in Hfull; try discriminate. injection Hfull as <-.
  unfold generate_content in Hgen.
  destruct (AVAILABLE_MODELS !! _); [|discriminate].
  apply attempt_loop_answer in Hgen as (k & Hk & _). eauto 10.
Qed.

Lemma has_success_record_mono (file file' : option (list line)) (appended : list line)
    (p : pykey * pykey) :
  lines_of file' = lines_of file ++ appended →
  has_success_record file p → has_success_record file' p.
Proof.
  intros Hext (v & Hv & Hp). exists v. split; [|done].
  rewrite Hext. apply elem_of_app. by left.
Qed.

Lemma extends_backed_refl (x : loop_state * world) : extends_backed x x.
Proof. intros Hterm. split_and!; [done|exists []; by rewrite app_nil_r|auto]. Qed.

Lemma extends_backed_trans (x y z : loop_state * world) :
  extends_backed x y → extends_backed y z → extends_backed x z.
Proof.
  intros Hxy Hyz Hterm.
  destruct (Hxy Hterm) as (Hy & [a1 Hl1] & Hb1).
  destruct (Hyz Hy) as (Hz & [a2 Hl2] & Hb2). split_and!.
  - done.
  - exists (a1 ++ a2). by rewrite Hl2, Hl1, (assoc_L (++)).
  - intros p Hp. destruct (Hb2 p Hp) as [Hy'|Hz']; [|by right].
    destruct (Hb1 p Hy') as [Hx|Hy'']; [by left|right].
    by eapply has_success_record_mono.
Qed.

Lemma extends_backed_same (st st' : loop_state) (w w' : world) :
  completed_runs st' = completed_runs st →
  ledger w' = ledger w →
  extends_backed (st, w) (st', w').
Proof.
  intros Hc Hl Hterm. cbn in *. split_and!.
  - by rewrite Hl.
  - exists []. by rewrite Hl, app_nil_r.
  - intros p Hp. left. by rewrite <- Hc.
Qed.

Lemma success_metadata_identity (timestamp : string) (s : sample) (run_number : Z)
    (model_name : string) (processing_time : float) :
  let metadata := success_metadata timestamp s run_number model_name processing_time in
  metadata !! "success" = Some (PBool true) ∧
  metadata !! "sample_id"
  = Some (PStr (default ("row_" +:+ pretty (name s)) (sample_id s))) ∧
  metadata !! "run_number" = Some (PInt run_number).
Proof.
  cbn zeta. unfold success_metadata.
  rewrite !lookup_with_id_created_at_ne by discriminate. split_and!; record_lookup.
Qed.

(** The line of a success record whose payload leaves the identity alone. *)
Lemma success_record_line (timestamp : string) (d : gmap string pyval) (s : sample)
    (run_number : Z) (model_name : string) (processing_time : float) :
  d !! "success" = None → d !! "sample_id" = None → d !! "run_number" = None →
  let record :=
    d ∪ success_metadata timestamp s run_number model_name processing_time in
  line_ok (LJson (PDict record)) = true ∧
  success_pair (LJson (PDict record))
  = Some (KStr (default ("row_" +:+ pretty (name s)) (sample_id s)), KInt run_number).
Proof.
  intros H1 H2 H3 record.
  destruct (success_metadata_identity timestamp s run_number model_name processing_time)
    as (M1 & M2 & M3).
  cbn. unfold record. rewrite !lookup_union_r by done. rewrite M1, M2, M3. done.
Qed.

Lemma error_record_success (timestamp : string) (s : sample) (error : exn)
    (run_number : Z) (model_name : string) :
  create_error_record timestamp s error run_number model_name !! "success"
  = Some (PBool false).
Proof.
  unfold create_error_record.
  rewrite lookup_with_id_created_at_ne by discriminate. record_lookup.
Qed.

Lemma error_record_line (timestamp : string) (s : sample) (error : exn)
    (run_number : Z) (model_name : string) :
  let l := LJson (PDict (create_error_record timestamp s error run_number model_name)) in
  line_ok l = true ∧ success_pair l = None.
Proof. cbn. by rewrite error_record_success. Qed.

Lemma success_pairs_app (lines lines' : list line) :
  success_pairs (lines ++ lines') = success_pairs lines ∪ success_pairs lines'.
Proof. unfold success_pairs. by rewrite omap_app, list_to_set_app_L. Qed.

Lemma success_pairs_singleton (l : line) :
  success_pairs [l] = match success_pair l with Some p => {[ p ]} | None => ∅ end.
Proof.
  unfold success_pairs.
  change (omap success_pair [l])
    with (match success_pair l with Some p => [p] | None => [] end).
  destruct (success_pair l); cbn; [|done]. by rewrite (right_id_L ∅ (∪)).
Qed.

(** What one more line, after a line end, does to what the reader sees. *)
Lemma readable_snoc (file : option (list line)) (l : line) :
  terminated file = true → is_tail l = false →
  readable (Some (written file ++ [l])) = readable file && line_ok l.
Proof.
  intros Hterm Hl. destruct (terminated_snoc file l Hterm Hl) as [_ Hlines].
  unfold readable. rewrite Hlines, forallb_app. cbn [forallb].
  by rewrite andb_true_r.
Qed.

Lemma has_success_record_snoc (file : option (list line)) (l : line) (p : pykey * pykey) :
  terminated file = true → is_tail l = false →
  has_success_record (Some (written file ++ [l])) p
  ↔ has_success_record file p ∨ success_pair l = Some p.
Proof.
  intros Hterm Hl. destruct (terminated_snoc file l Hterm Hl) as [_ Hlines].
  rewrite !has_success_record_lines, Hlines.
  rewrite success_pairs_app, success_pairs_singleton, elem_of_union.
  destruct (success_pair l) as [q|].
  - rewrite elem_of_singleton. split; (intros [?|?]; [by left|right; congruence]).
  - rewrite elem_of_empty. split; (intros [?|?]; [by left|done]).
Qed.

Lemma load_existing_results_snoc (file : option (list line)) (l : line) :
  terminated file = true → is_tail l = false →
  load_existing_results (Some (written file ++ [l]))
  = if readable file && line_ok l
    then ((load_existing_results file).1 ++ omap line_record [l],
          (load_existing_results file).2 ∪ success_pairs [l])
    else ([], ∅).
Proof.
  intros Hterm Hl. destruct (terminated_snoc file l Hterm Hl) as [_ Hlines].
  rewrite (load_existing_results_file (Some _)), readable_snoc, Hlines by done.
  rewrite (load_existing_results_file file).
  destruct (readable file); cbn [andb]; [|done].
  destruct (line_ok l); [|done]. cbn [fst snd].
  unfold records_of. by rewrite omap_app, success_pairs_app.
Qed.

Section backing.

Context (E : env) (max_retries : Z).
Context (codebook : list codebook_row) (master_template model_name : string).
Context (rate_delay : float) (n_runs : Z).
Hypothesis payloads : payload_keeps_identity E.

Lemma run_once_extends_backed (s : sample) (idx : Z) (prompt : string) (run_num : Z)
    (st : loop_state) (w : world) :
  is_Some (sample_id s) →
  extends_backed (st, w)
    (let '(_, st', w') :=
       run_once E max_retries model_name s
         (default ("row_" +:+ pretty idx) (sample_id s)) prompt run_num st w in
     (st', w')).
Proof.
  intros [sid Hsid]. rewrite Hsid. cbn [default from_option id].
  destruct (run_once_cases E max_retries model_name s sid prompt run_num st w)
    as (tried & w1 & Htry & Hl & ->). cbn zeta.
  assert (Hsave : ∀ (record : gmap string pyval) (st1 : loop_state),
    (∀ p, p ∈ completed_runs st1 →
          p ∈ completed_runs st ∨ success_pair (LJson (PDict record)) = Some p) →
    extends_backed (st, w)
      (st1, {| ledger := Some (default [] (ledger w) ++ [LJson (PDict record)]);
               trace := trace w1 ++ [EvAppend true] |})).
  { intros record st1 Hst1 Hterm. cbn [fst snd ledger] in *.
    change (default [] (ledger w)) with (written (ledger w)).
    destruct (terminated_snoc (ledger w) (LJson (PDict record)) Hterm eq_refl)
      as [Hterm' Hlines].
    split_and!; [done|by eexists|].
    intros p Hp. destruct (Hst1 p Hp) as [Hold|Hnew]; [by left|right].
    apply has_success_record_snoc; auto. }
  destruct tried as [full_result|e].
  - destruct (disk E _); [|by apply extends_backed_same].
    apply Hsave. intros p Hp. cbn in Hp.
    apply elem_of_union in Hp as [Hp|Hp]; [right|by left].
    apply elem_of_singleton in Hp as ->.
    apply try_run_ret in Htry as (k & text & d & Hk & Hd & ->).
    destruct (payloads k text d Hk Hd) as (H1 & H2 & H3).
    destruct (success_record_line (now E (length (trace w1))) d s run_num model_name
                (stopwatch E (length (trace w1))) H1 H2 H3) as [_ Hpair].
    by rewrite Hsid in Hpair.
  - destruct (is_quota_error e); [by apply extends_backed_same|].
    destruct (disk E _); [|by apply extends_backed_same].
    apply Hsave. by left.
Qed.

Lemma process_samples_extends_backed (samples : list sample) (idx : Z)
    (st : loop_state) (w : world) :
  Forall (λ s, is_Some (sample_id s)) samples →
  extends_backed (st, w)
    (process_samples E max_retries codebook master_template model_name rate_delay
       n_runs idx samples st w).
Proof.
  apply (process_samples_relation E max_retries codebook master_template model_name
           rate_delay n_runs (λ s, is_Some (sample_id s)) extends_backed).
  - apply extends_backed_refl.
  - apply extends_backed_trans.
  - intros s idx' prompt run_num st' w'. apply run_once_extends_backed.
  - intros st' w'. by apply extends_backed_same.
  - intros st' w'. by apply extends_backed_same.
Qed.

End backing.

Lemma loaded_completion_backed (file : option (list line)) (p : pykey * pykey) :
  p ∈ (load_existing_results file).2 → has_success_record file p.
Proof.
  rewrite load_existing_results_file. destruct (readable file); cbn.
  - by rewrite has_success_record_lines.
  - by intros ?%not_elem_of_empty.
Qed.

(** C9, the counterexample. First, the service answers with the payload
    [{"success": false}]. The payload's key wins over the metadata, so the
    record that is appended (the write goes through) says [success = False];
    the pair of the run joins the completion set all the same, and the ledger
    has no success record for it. Second, the service answers with the empty
    object, but the ledger ends in a piece of a line that was cut off: the
    append reports success, the pair joins the set, and the record is one line
    with the piece before it, which no reader decodes. *)
Lemma completion_set_not_backed :
  ((KStr "id-a", KInt 1)
   ∈ completed_runs
       (process_samples Scenario.disowning 3 [Scenario.corn] Scenario.template
          Scenario.flash 4.4%float 1 0 [Scenario.sample_a]
          Scenario.start Scenario.fresh).1 ∧
   ¬ has_success_record
       (ledger (process_samples Scenario.disowning 3 [Scenario.corn] Scenario.template
                  Scenario.flash 4.4%float 1 0 [Scenario.sample_a]
                  Scenario.start Scenario.fresh).2)
       (KStr "id-a", KInt 1) ∧
   (λ v, match v with PDict d => d !! "success" | _ => None end)
     <$> records_of (lines_of (ledger
           (process_samples Scenario.disowning 3 [Scenario.corn] Scenario.template
              Scenario.flash 4.4%float 1 0 [Scenario.sample_a]
              Scenario.start Scenario.fresh).2))
   = [Some (PBool false)]) ∧
  ((KStr "id-a", KInt 1)
   ∈ completed_runs
       (process_samples Scenario.obliging 3 [Scenario.corn] Scenario.template
          Scenario.flash 4.4%float 1 0 [Scenario.sample_a]
          Scenario.start Scenario.torn).1 ∧
   ¬ has_success_record
       (ledger (process_samples Scenario.obliging 3 [Scenario.corn] Scenario.template
                  Scenario.flash 4.4%float 1 0 [Scenario.sample_a]
                  Scenario.start Scenario.torn).2)
       (KStr "id-a", KInt 1) ∧
   trace (process_samples Scenario.obliging 3 [Scenario.corn] Scenario.template
            Scenario.flash 4.4%float 1 0 [Scenario.sample_a]
            Scenario.start Scenario.torn).2
   = [EvRequest Scenario.flash Scenario.prompt_a; EvAppend true;
      EvSleep (PFloat 4.4%float)]).
Proof.
  split; split_and!.
  - apply (bool_decide_unpack _). by vm_compute.
  - rewrite has_success_record_lines. apply (bool_decide_unpack _). by vm_compute.
  - by vm_compute.
  - apply (bool_decide_unpack _). by vm_compute.
  - rewrite has_success_record_lines. apply (bool_decide_unpack _). by vm_compute.
  - by vm_compute.
Qed.

(** C9, amended. In the loop, whatever the service and the disk do, a pass
    for a run either leaves the completion set as it is, or adds the pair of
    the run right after the [try] block produced a record and the append of
    that record reported success, the line of the record then being written
    at the end of the file; when the append fails nothing is added. When no
    payload of the service defines [success], [sample_id] or [run_number], the
    samples carry a sample id (as the loader of the test data sees to), the
    ledger found ends with a line end and every append goes through, every
    pair of the completion set has a success record in the ledger at the end
    of the loop, started from the set that the reader built. *)
Theorem completion_set_backed_by_ledger (E : env) (max_retries : Z)
    (codebook : list codebook_row) (master_template model_name : string)
    (rate_delay : float) (n_runs : Z) (test_data : list sample)
    (w w' : world) (st' : loop_state) :
  payload_keeps_identity E →
  Forall (λ s, is_Some (sample_id s)) test_data →
  terminated (ledger w) = true →
  appends_succeed E →
  process_samples E max_retries codebook master_template model_name rate_delay n_runs
    0 test_data
    {| completed_runs := (load_existing_results (ledger w)).2;
       processed_samples := 0; new_results_count := 0;
       resource_exhausted := false |} w = (st', w') →
  backed st' w' ∧
  (∀ (E0 : env) max_retries0 model_name0 s sample_id prompt run_num st0 w0,
     let '(_, st1, w1) :=
       run_once E0 max_retries0 model_name0 s sample_id prompt run_num st0 w0 in
     completed_runs st1 = completed_runs st0 ∨
     ∃ full_result w_try,
       try_run E0 max_retries0 model_name0 s prompt run_num w0
       = (Ret full_result, w_try) ∧
       disk E0 (appends_tried w_try) = true ∧
       completed_runs st1 = {[ (KStr sample_id, KInt run_num) ]} ∪ completed_runs st0 ∧
       written (ledger w1) = written (ledger w0) ++ [LJson (PDict full_result)]).
Proof.
  intros Hpayloads Hids Hterm _ Hrun. split.
  - pose proof (process_samples_extends_backed E max_retries codebook master_template
      model_name rate_delay n_runs Hpayloads test_data 0
      {| completed_runs := (load_existing_results (ledger w)).2;
         processed_samples := 0; new_results_count := 0;
         resource_exhausted := false |} w Hids Hterm) as (_ & [appended Hext] & Hnew).
    rewrite Hrun in Hext, Hnew. cbn in Hext, Hnew.
    intros p Hp. destruct (Hnew p Hp) as [Hold|Hrec]; [|done].
    eapply has_success_record_mono; [exact Hext|]. by apply loaded_completion_backed.
  - intros E0 max_retries0 model_name0 s sample_id prompt run_num st0 w0.
    destruct (run_once_cases E0 max_retries0 model_name0 s sample_id prompt run_num st0 w0)
      as (tried & w_try & Htry & Hl & ->). cbn zeta.
    destruct tried as [full_result|e].
    + destruct (disk E0 _) eqn:Hdisk; [right|by left].
      exists full_result, w_try. done.
    + destruct (is_quota_error e); [by left|]. destruct (disk E0 _); by left.
Qed.

Lemma completion_set_backed_by_ledger_witness :
  backed
    (process_samples Scenario.obliging 3 [Scenario.corn] Scenario.template Scenario.flash
       4.4%float 2 0 [Scenario.sample_a; Scenario.sample_u]
       {| completed_runs := (load_existing_results (ledger Scenario.fresh)).2;
          processed_samples := 0; new_results_count := 0;
          resource_exhausted := false |} Scenario.fresh).1
    (process_samples Scenario.obliging 3 [Scenario.corn] Scenario.template Scenario.flash
       4.4%float 2 0 [Scenario.sample_a; Scenario.sample_u]
       {| completed_runs := (load_existing_results (ledger Scenario.fresh)).2;
          processed_samples := 0; new_results_count := 0;
          resource_exhausted := false |} Scenario.fresh).2.
Proof.
  refine (proj1 (completion_set_backed_by_ledger Scenario.obliging 3 [Scenario.corn]
            Scenario.template Scenario.flash 4.4%float 2
            [Scenario.sample_a; Scenario.sample_u] Scenario.fresh _ _ _ _ _ _ _)).
  - intros k text d [= <-] Hd. vm_compute in Hd. injection Hd as <-. done.
  - repeat constructor; eexists; reflexivity.
  - reflexivity.
  - intros k. reflexivity.
  - apply surjective_pairing.
Defined.

(** ** The circuit breaker *)

(** C1, at the input where the code departs from it. Two samples, two runs
    each, and a service whose quota is exhausted: every request fails with a
    429 error, which the orchestrator's own test counts as a quota error. The
    executor swallows the error on each of its three attempts and returns
    [None]; extracting a payload from [None] raises a [TypeError], which is
    not of the quota class. So nothing trips the breaker: all four runs are
    attempted (twelve requests), and an error record is appended for each. *)
Theorem quota_failure_does_not_trip_breaker :
  is_quota_error Scenario.quota_error = true ∧
  Scenario.exhausted_run.1
  = Ret {| stat_processed_samples := 2; stat_total_completed := 4;
           stat_new_results_generated := 4; stat_success_rate := 0%float |} ∧
  requests_issued Scenario.exhausted_run.2 = 12%nat ∧
  (λ v, match v with PDict d => d !! "error_type" | _ => None end)
    <$> records_of (lines_of (ledger Scenario.exhausted_run.2))
  = [ Some (PStr "TypeError"); Some (PStr "TypeError");
      Some (PStr "TypeError"); Some (PStr "TypeError") ].
Proof. split_and!; by vm_compute. Qed.

Lemma requests_issued_log (ev : event) (w : world) :
  requests_issued (log ev w)
  = (requests_issued w + if is_request ev then 1 else 0)%nat.
Proof.
  unfold requests_issued, log. cbn [trace].
  rewrite filter_app, length_app. f_equal.
  destruct ev; reflexivity.
Qed.

(** ** The handler of a failed attempt *)

(** A failure that is not of the rate-limit class: before the last attempt
    the handler sleeps [DEFAULT_RETRY_DELAY * (attempt + 1)] seconds, at the
    last attempt it raises the failure again. *)
Lemma handle_failure_plain (E : env) (max_retries : Z) (model_name : string)
    (attempt : Z) (e : exn) :
  is_rate_limit_error (exn_msg e) = false →
  handle_failure E max_retries model_name attempt e
  = if attempt <? max_retries - 1
    then sleep_int E (DEFAULT_RETRY_DELAY * (attempt + 1))
    else Raise e.
Proof. intros Hrate. unfold handle_failure. by rewrite Hrate. Qed.

(** A failure of the rate-limit class, at any attempt: the handler sleeps the
    wait that the message suggests, when [int()] and [time.sleep()] accept
    it, or else the governor's delay. *)
Lemma handle_failure_rate_limit (E : env) (max_retries : Z) (model_name : string)
    (attempt : Z) (e : exn) (rate_delay : float) :
  get_rate_limit_delay model_name = Ret rate_delay →
  is_rate_limit_error (exn_msg e) = true →
  delay_accepted E e →
  handle_failure E max_retries model_name attempt e = Ret (rate_limit_wait rate_delay e).
Proof.
  intros Hdelay Hrate Hacc. unfold handle_failure, rate_limit_wait. rewrite Hrate.
  destruct (retry_delay_search (exn_msg e)) as [group|] eqn:Hgroup.
  - destruct (Hacc group Hgroup) as [Hint Hsleep].
    rewrite Hint. cbn [mbind outcome_bind]. unfold sleep_int. by rewrite Hsleep.
  - by rewrite Hdelay.
Qed.

(** Where an exception of the handler comes from: [int()] or [time.sleep()]
    after a rate-limit error, [time.sleep()] before the last attempt after
    another error, and the error itself at the last attempt. *)
Lemma handle_failure_raise (E : env) (max_retries : Z) (model_name : string)
    (attempt : Z) (e e' : exn) :
  handle_failure E max_retries model_name attempt e = Raise e' →
  if is_rate_limit_error (exn_msg e) then
    ∃ group, retry_delay_search (exn_msg e) = Some group ∧
      (py_int E group = Raise e' ∨
       ∃ suggested_delay,
         py_int E group = Ret suggested_delay ∧ sleep_error E suggested_delay = Some e')
  else if attempt <? max_retries - 1 then
    sleep_error E (DEFAULT_RETRY_DELAY * (attempt + 1)) = Some e'
  else e' = e.
Proof.
  unfold handle_failure, sleep_int.
  destruct (get_rate_limit_delay_returns model_name) as [rate_delay ->].
  destruct (is_rate_limit_error _).
  - destruct (retry_delay_search _) as [group|]; [|done].
    intros Hraise. exists group. split; [done|].
    destruct (py_int E group) as [d|e0]; cbn [mbind outcome_bind] in Hraise.
    + right. exists d. split; [done|]. destruct (sleep_error E d); congruence.
    + left. congruence.
  - destruct (_ <? _).
    + destruct (sleep_error E _); congruence.
    + congruence.
Qed.

Section all_attempts_fail.

Context (E : env) (max_retries : Z) (prompt model_name : string).

(** When every attempt fails and the handler of every attempt but the last
    sleeps, the loop makes all its requests and ends as the handler of the
    last attempt does. *)
Lemma attempt_loop_all_fail (n : nat) (a : Z) (w : world) :
  (∀ i, (i < S n)%nat →
     ∃ e, attempt_failure (service E (requests_issued w + i)) = Some e ∧
          ((i < n)%nat →
           ∃ seconds,
             handle_failure E max_retries model_name (a + Z.of_nat i) e = Ret seconds)) →
  ∃ e w',
    attempt_failure (service E (requests_issued w + n)) = Some e ∧
    attempt_loop E max_retries prompt model_name (seqZ a (Z.of_nat (S n))) w
    = (match handle_failure E max_retries model_name (a + Z.of_nat n) e with
       | Ret _ => Ret None
       | Raise e' => Raise e'
       end, w') ∧
    requests_issued w' = (requests_issued w + S n)%nat.
Proof.
  revert a w. induction n as [|n IH]; intros a w Hfail.
  - (* the last attempt *)
    destruct (Hfail 0%nat) as (e & He & _); [lia|].
    rewrite Nat.add_0_r in He |- *. rewrite Z.add_0_r.
    change (seqZ a (Z.of_nat 1)) with [0 + a]. rewrite Z.add_0_l.
    pose proof (attempt_loop_step E max_retries prompt model_name a [] w) as Hstep.
    cbn zeta in Hstep. rewrite He in Hstep.
    exists e. rewrite Hstep.
    destruct (handle_failure _ _ _ _ _) as [seconds|e'].
    + eexists. split_and!; [done..|]. cbn [attempt_loop].
      rewrite !requests_issued_log. cbn. lia.
    + eexists. split_and!; [done..|]. rewrite requests_issued_log. cbn. lia.
  - (* an attempt before the last: the handler sleeps and the loop goes on *)
    destruct (Hfail 0%nat) as (e0 & He0 & Hgo); [lia|].
    destruct Hgo as [seconds Hseconds]; [lia|].
    rewrite Nat.add_0_r in He0. rewrite Z.add_0_r in Hseconds.
    rewrite seqZ_cons by lia.
    replace (Z.pred (Z.of_nat (S (S n)))) with (Z.of_nat (S n)) by lia.
    pose proof (attempt_loop_step E max_retries prompt model_name a
                  (seqZ (Z.succ a) (Z.of_nat (S n))) w) as Hstep.
    cbn zeta in Hstep. rewrite He0 in Hstep. rewrite Hstep, Hseconds.
    destruct (IH (Z.succ a)
                (log (EvSleep seconds) (log (EvRequest model_name prompt) w)))
      as (e & w' & He & Hloop & Hcount).
    { intros i Hi. rewrite !requests_issued_log. cbn.
      destruct (Hfail (S i)) as (e & He & Hgo); [lia|].
      exists e. split.
      - rewrite <- He. do 2 f_equal. lia.
      - intros Hin. destruct Hgo as [seconds' Hs']; [lia|].
        exists seconds'. rewrite <- Hs'. f_equal. lia. }
    rewrite !requests_issued_log in He, Hcount. cbn in He, Hcount.
    exists e, w'. split_and!.
    + rewrite <- He. do 2 f_equal. lia.
    + rewrite Hloop.
      by replace (Z.succ a + Z.of_nat n) with (a + Z.of_nat (S n)) by lia.
    + lia.
Qed.

End all_attempts_fail.

Lemma generate_content_registered (E : env) (max_retries : Z) (prompt model_name : string)
    (w : world) :
  is_Some (AVAILABLE_MODELS !! model_name) →
  generate_content E max_retries prompt model_name w
  = attempt_loop E max_retries prompt model_name (seqZ 0 max_retries) w.
Proof. intros [cfg Hcfg]. unfold generate_content. by rewrite Hcfg. Qed.

(** X1. When each of the [r >= 1] attempts of the executor fails (on a
    registered model) and the handler of every attempt but the last sleeps
    (neither [int()] nor [time.sleep()] raises there), the executor issues
    exactly [r] requests and then ends as the handler of the last attempt
    does. With [e] the failure of the last attempt: when [e] is not a
    rate-limit error the executor raises [e]; when it is, the executor returns
    [None] if the handler sleeps, and lets the exception of [int()] or
    [time.sleep()] through if the handler raises. *)
Theorem executor_after_all_attempts_fail (E : env) (max_retries : Z)
    (prompt model_name : string) (w : world) :
  1 ≤ max_retries →
  is_Some (AVAILABLE_MODELS !! model_name) →
  (∀ i, (i < Z.to_nat max_retries)%nat →
     ∃ e, attempt_failure (service E (requests_issued w + i)) = Some e ∧
          (Z.of_nat i < max_retries - 1 →
           ∃ seconds,
             handle_failure E max_retries model_name (Z.of_nat i) e = Ret seconds)) →
  ∃ e w',
    attempt_failure (service E (requests_issued w + Z.to_nat max_retries - 1)) = Some e ∧
    generate_content E max_retries prompt model_name w
    = (match handle_failure E max_retries model_name (max_retries - 1) e with
       | Ret _ => Ret None
       | Raise e' => Raise e'
       end, w') ∧
    requests_issued w' = (requests_issued w + Z.to_nat max_retries)%nat ∧
    (is_rate_limit_error (exn_msg e) = false →
     handle_failure E max_retries model_name (max_retries - 1) e = Raise e).
Proof.
  intros Hr Hreg Hfail.
  destruct (attempt_loop_all_fail E max_retries prompt model_name
              (Z.to_nat max_retries - 1) 0 w) as (e & w' & He & Hloop & Hcount).
  { intros i Hi. destruct (Hfail i) as (e & He & Hgo); [lia|].
    exists e. split; [done|]. intros Hin. rewrite Z.add_0_l. apply Hgo. lia. }
  replace (Z.of_nat (S (Z.to_nat max_retries - 1))) with max_retries in Hloop by lia.
  replace (0 + Z.of_nat (Z.to_nat max_retries - 1)) with (max_retries - 1) in Hloop by lia.
  exists e, w'. split_and!.
  - rewrite <- He. do 2 f_equal. lia.
  - by rewrite generate_content_registered.
  - lia.
  - intros Hrate. rewrite handle_failure_plain by done.
    by replace (max_retries - 1 <? max_retries - 1) with false by lia.
Qed.

Lemma executor_after_all_attempts_fail_witness :
  ∃ e w',
    attempt_failure (service Scenario.out_of_quota
                       (requests_issued Scenario.fresh + Z.to_nat 3 - 1)) = Some e ∧
    generate_content Scenario.out_of_quota 3 "prompt" Scenario.flash Scenario.fresh
    = (match handle_failure Scenario.out_of_quota 3 Scenario.flash (3 - 1) e with
       | Ret _ => Ret None
       | Raise e' => Raise e'
       end, w') ∧
    requests_issued w' = (requests_issued Scenario.fresh + Z.to_nat 3)%nat ∧
    (is_rate_limit_error (exn_msg e) = false →
     handle_failure Scenario.out_of_quota 3 Scenario.flash (3 - 1) e = Raise e).
Proof.
  apply (executor_after_all_attempts_fail Scenario.out_of_quota 3 "prompt"
           Scenario.flash Scenario.fresh).
  - lia.
  - eexists. reflexivity.
  - intros i Hi. eexists. split; [reflexivity|]. intros Hlast.
    assert (i = 0 ∨ i = 1)%nat as [->| ->] by lia; eexists; reflexivity.
Defined.

(** X2. When the [try] block of a run raises an exception that the
    orchestrator classes as a quota error, the loop over the samples ends
    there: the world is the one the failed attempt left (nothing is appended
    to the ledger, nothing is requested after it, no delay is slept), the
    breaker is set, and neither the remaining runs of the sample nor the
    samples after it are attempted. *)
Theorem breaker_halts_batch (E : env) (max_retries : Z)
    (codebook : list codebook_row) (master_template model_name : string)
    (rate_delay : float) (n_runs : Z) (s : sample) (rest : list sample) (idx : Z)
    (prompt : string) (run_num : Z) (runs : list Z) (st : loop_state) (w w1 : world)
    (e : exn) :
  resource_exhausted st = false →
  build_prompt_for_sample master_template s codebook = Some prompt →
  remaining_runs (completed_runs st) (default ("row_" +:+ pretty idx) (sample_id s)) n_runs
    = run_num :: runs →
  try_run E max_retries model_name s prompt run_num w = (Raise e, w1) →
  is_quota_error e = true →
  process_samples E max_retries codebook master_template model_name rate_delay n_runs
    idx (s :: rest) st w
  = (count_processed (trip_breaker st), w1) ∧
  ledger w1 = ledger w.
Proof.
  intros Hst Hprompt Hruns Htry Hquota. split.
  - cbn [process_samples]. rewrite Hprompt, Hruns. cbn [run_remaining]. rewrite Hst.
    unfold run_once. rewrite Htry, Hquota. reflexivity.
  - pose proof (try_run_ledger E max_retries model_name s prompt run_num w) as Hl.
    by rewrite Htry in Hl.
Qed.

Lemma breaker_halts_batch_witness :
  process_samples Scenario.out_of_quota 3 [Scenario.corn] Scenario.template Scenario.flash
    4.4%float 2 0 [Scenario.sample_a; Scenario.sample_b] Scenario.start Scenario.fresh
  = (count_processed (trip_breaker Scenario.start),
     (try_run Scenario.out_of_quota 3 Scenario.flash Scenario.sample_a Scenario.prompt_a
        1 Scenario.fresh).2) ∧
  ledger (try_run Scenario.out_of_quota 3 Scenario.flash Scenario.sample_a
            Scenario.prompt_a 1 Scenario.fresh).2
  = ledger Scenario.fresh.
Proof.
  apply (breaker_halts_batch Scenario.out_of_quota 3 [Scenario.corn] Scenario.template
           Scenario.flash 4.4%float 2 Scenario.sample_a [Scenario.sample_b] 0
           Scenario.prompt_a 1 [2] Scenario.start Scenario.fresh _
           (Exn "PermissionDenied" "Daily quota exceeded for this project")).
  - reflexivity.
  - by vm_compute.
  - by vm_compute.
  - by vm_compute.
  - by vm_compute.
Defined.

(** * Further properties of the code *)

(** ** The executor, attempt by attempt *)

Lemma trace_log (ev : event) (w : world) : trace (log ev w) = trace w ++ [ev].
Proof. reflexivity. Qed.

Lemma requests_in_cons (ev : event) (evs : list event) :
  requests_in (ev :: evs) = ((if is_request ev then 1 else 0) + requests_in evs)%nat.
Proof. unfold requests_in. by destruct ev. Qed.

Lemma requests_in_app (evs1 evs2 : list event) :
  requests_in (evs1 ++ evs2) = (requests_in evs1 + requests_in evs2)%nat.
Proof. unfold requests_in. by rewrite filter_app, length_app. Qed.

Lemma filter_is_append_cons (ev : event) (evs : list event) :
  filter is_append (ev :: evs)
  = if is_append ev then ev :: filter is_append evs else filter is_append evs.
Proof. by destruct ev. Qed.

(** What the executor adds to the trace: requests kept apart by sleeps, at
    most one for each attempt, and no append. *)
Lemma attempt_loop_trace (E : env) (max_retries : Z) (prompt model_name : string)
    (attempts : list Z) (w : world) :
  ∃ evs,
    trace (attempt_loop E max_retries prompt model_name attempts w).2 = trace w ++ evs ∧
    spaced false evs = true ∧
    (requests_in evs ≤ length attempts)%nat ∧
    filter is_append evs = [].
Proof.
  revert w. induction attempts as [|attempt rest IH]; intros w.
  { exists []. cbn. by rewrite app_nil_r. }
  pose proof (attempt_loop_step E max_retries prompt model_name attempt rest w) as Hstep.
  cbn zeta in Hstep.
  destruct (attempt_failure _) as [e|].
  - rewrite Hstep. destruct (handle_failure _ _ _ _ _) as [seconds|e'].
    + destruct (IH (log (EvSleep seconds) (log (EvRequest model_name prompt) w)))
        as (evs & Htrace & Hspaced & Hcount & Happ).
      exists (EvRequest model_name prompt :: EvSleep seconds :: evs).
      rewrite Htrace, !trace_log, <- !(assoc_L (++)). split_and!.
      * done.
      * done.
      * rewrite !requests_in_cons. cbn. lia.
      * by rewrite !filter_is_append_cons.
    + exists [EvRequest model_name prompt]. split_and!; try done.
      rewrite requests_in_cons. cbn. lia.
  - destruct Hstep as (text & _ & _ & ->).
    exists [EvRequest model_name prompt]. split_and!; try done.
    rewrite requests_in_cons. cbn. lia.
Qed.

(** An exception leaves the loop from the handler of a failed attempt. *)
Lemma attempt_loop_raise (E : env) (max_retries : Z) (prompt model_name : string)
    (n : nat) (a : Z) (w w' : world) (e : exn) :
  attempt_loop E max_retries prompt model_name (seqZ a (Z.of_nat n)) w = (Raise e, w') →
  ∃ (i : nat) (e0 : exn),
    (i < n)%nat ∧
    attempt_failure (service E (requests_issued w + i)) = Some e0 ∧
    handle_failure E max_retries model_name (a + Z.of_nat i) e0 = Raise e ∧
    requests_issued w' = (requests_issued w + i + 1)%nat.
Proof.
  revert a w. induction n as [|n IH]; intros a w; [done|].
  rewrite seqZ_cons by lia.
  replace (Z.pred (Z.of_nat (S n))) with (Z.of_nat n) by lia.
  pose proof (attempt_loop_step E max_retries prompt model_name a
                (seqZ (Z.succ a) (Z.of_nat n)) w) as Hstep.
  cbn zeta in Hstep.
  destruct (attempt_failure _) as [e0|] eqn:He0.
  - rewrite Hstep. destruct (handle_failure _ _ _ _ _) as [seconds|e'] eqn:Hh.
    + intros Hloop. apply IH in Hloop as (i & e1 & Hi & He1 & Hh1 & Hcount).
      rewrite !requests_issued_log in He1, Hcount. cbn in He1, Hcount.
      exists (S i), e1. split_and!; [lia| | |lia].
      * rewrite <- He1. do 2 f_equal. lia.
      * rewrite <- Hh1. f_equal. lia.
    + intros [= <- <-]. exists 0%nat, e0.
      rewrite Nat.add_0_r, Z.add_0_r, requests_issued_log. cbn.
      split_and!; [lia|done|done|lia].
  - destruct Hstep as (text & _ & _ & ->). done.
Qed.

(** The first attempt that is answered with a text ends the loop, when the
    handlers of the failed attempts before it sleep. *)
Lemma attempt_loop_first_text (E : env) (max_retries : Z) (prompt model_name : string)
    (i n : nat) (a : Z) (w : world) (text : string) :
  (i < n)%nat →
  (∀ j, (j < i)%nat →
     ∃ e seconds,
       attempt_failure (service E (requests_issued w + j)) = Some e ∧
       handle_failure E max_retries model_name (a + Z.of_nat j) e = Ret seconds) →
  service E (requests_issued w + i) = Text text →
  truthy (PStr text) = true →
  ∃ w',
    attempt_loop E max_retries prompt model_name (seqZ a (Z.of_nat n)) w
    = (Ret (Some text), w') ∧
    requests_issued w' = (requests_issued w + i + 1)%nat.
Proof.
  revert n a w. induction i as [|i IH]; intros n a w Hi Hfail Htext Ht.
  - destruct n as [|n]; [lia|].
    rewrite seqZ_cons by lia.
    pose proof (attempt_loop_step E max_retries prompt model_name a
                  (seqZ (Z.succ a) (Z.pred (Z.of_nat (S n)))) w) as Hstep.
    cbn zeta in Hstep. rewrite Nat.add_0_r in Htext.
    unfold attempt_failure in Hstep. rewrite Htext, Ht in Hstep.
    destruct Hstep as (text' & [= <-] & _ & ->).
    eexists. split; [reflexivity|]. rewrite requests_issued_log. cbn. lia.
  - destruct n as [|n]; [lia|].
    rewrite seqZ_cons by lia.
    replace (Z.pred (Z.of_nat (S n))) with (Z.of_nat n) by lia.
    pose proof (attempt_loop_step E max_retries prompt model_name a
                  (seqZ (Z.succ a) (Z.of_nat n)) w) as Hstep.
    cbn zeta in Hstep.
    destruct (Hfail 0%nat) as (e0 & seconds & He0 & Hh0); [lia|].
    rewrite Nat.add_0_r in He0. rewrite Z.add_0_r in Hh0.
    rewrite He0, Hh0 in Hstep. rewrite Hstep.
    destruct (IH n (Z.succ a)
                (log (EvSleep seconds) (log (EvRequest model_name prompt) w)))
      as (w' & -> & Hcount).
    + lia.
    + intros j Hj. rewrite !requests_issued_log. cbn.
      destruct (Hfail (S j)) as (e & seconds' & He & Hh); [lia|].
      exists e, seconds'. split.
      * rewrite <- He. do 2 f_equal. lia.
      * rewrite <- Hh. f_equal. lia.
    + rewrite !requests_issued_log. cbn.
      by replace (requests_issued w + 1 + 0 + i)%nat with (requests_issued w + S i)%nat by lia.
    + done.
    + exists w'. split; [done|].
      rewrite Hcount, !requests_issued_log. cbn. lia.
Qed.

Lemma seqZ_to_nat (m len : Z) : seqZ m len = seqZ m (Z.of_nat (Z.to_nat len)).
Proof. unfold seqZ. by rewrite Nat2Z.id. Qed.

(** X3. Where an exception of the executor comes from, on a registered
    model. When [generate_content] raises [e], some attempt failed with an
    error [e0] and the handler of that attempt raised [e]; no request follows
    it and the ledger is as it was. Either [e0] is not of the rate-limit class
    and the attempt is the last: then [e] is [e0], raised again. Or [e] was
    raised inside the handler: by [int()], when a rate-limit error suggests a
    wait of more digits than [int()] converts, or by [time.sleep()], when the
    wait is more than it accepts. A rate-limit error itself is never raised
    again. *)
Theorem executor_raise_origin (E : env) (max_retries : Z)
    (prompt model_name : string) (w w' : world) (e : exn) :
  is_Some (AVAILABLE_MODELS !! model_name) →
  generate_content E max_retries prompt model_name w = (Raise e, w') →
  ∃ (i : nat) (e0 : exn),
    Z.of_nat i < max_retries ∧
    attempt_failure (service E (requests_issued w + i)) = Some e0 ∧
    handle_failure E max_retries model_name (Z.of_nat i) e0 = Raise e ∧
    requests_issued w' = (requests_issued w + i + 1)%nat ∧
    ledger w' = ledger w ∧
    if is_rate_limit_error (exn_msg e0) then
      ∃ group, retry_delay_search (exn_msg e0) = Some group ∧
        (py_int E group = Raise e ∨
         ∃ suggested_delay,
           py_int E group = Ret suggested_delay ∧ sleep_error E suggested_delay = Some e)
    else if Z.of_nat i <? max_retries - 1 then
      sleep_error E (DEFAULT_RETRY_DELAY * (Z.of_nat i + 1)) = Some e
    else e = e0 ∧ Z.of_nat i = max_retries - 1.
Proof.
  intros Hreg Hgen.
  pose proof (generate_content_ledger E max_retries prompt model_name w) as Hl.
  rewrite Hgen in Hl. cbn in Hl.
  rewrite generate_content_registered, seqZ_to_nat in Hgen by done.
  apply attempt_loop_raise in Hgen as (i & e0 & Hi & He0 & Hh & Hcount).
  rewrite Z.add_0_l in Hh.
  exists i, e0. split_and!; [lia|done..|].
  pose proof (handle_failure_raise _ _ _ _ _ _ Hh) as Horigin.
  destruct (is_rate_limit_error _); [done|].
  destruct (_ <? _) eqn:Hlast; [done|]. split; [done|lia].
Qed.

Lemma executor_raise_origin_witness :
  ∃ (i : nat) (e0 : exn),
    Z.of_nat i < 3 ∧
    attempt_failure (service Scenario.deferring (requests_issued Scenario.fresh + i))
    = Some e0 ∧
    handle_failure Scenario.deferring 3 Scenario.flash (Z.of_nat i) e0
    = Raise (Exn "OverflowError" "timestamp too large to convert to C _PyTime_t") ∧
    requests_issued
      (generate_content Scenario.deferring 3 "prompt" Scenario.flash Scenario.fresh).2
    = (requests_issued Scenario.fresh + i + 1)%nat ∧
    ledger (generate_content Scenario.deferring 3 "prompt" Scenario.flash Scenario.fresh).2
    = ledger Scenario.fresh ∧
    if is_rate_limit_error (exn_msg e0) then
      ∃ group, retry_delay_search (exn_msg e0) = Some group ∧
        (py_int Scenario.deferring group
         = Raise (Exn "OverflowError" "timestamp too large to convert to C _PyTime_t") ∨
         ∃ suggested_delay,
           py_int Scenario.deferring group = Ret suggested_delay ∧
           sleep_error Scenario.deferring suggested_delay
           = Some (Exn "OverflowError" "timestamp too large to convert to C _PyTime_t"))
    else if Z.of_nat i <? 3 - 1 then
      sleep_error Scenario.deferring (DEFAULT_RETRY_DELAY * (Z.of_nat i + 1))
      = Some (Exn "OverflowError" "timestamp too large to convert to C _PyTime_t")
    else Exn "OverflowError" "timestamp too large to convert to C _PyTime_t" = e0 ∧
         Z.of_nat i = 3 - 1.
Proof.
  apply (executor_raise_origin Scenario.deferring 3 "prompt" Scenario.flash
           Scenario.fresh _
           (Exn "OverflowError" "timestamp too large to convert to C _PyTime_t")).
  - eexists. reflexivity.
  - by vm_compute.
Defined.

Lemma add_metadata_error_not_quota (timestamp : string) (result : pyval) (s : sample)
    (run_number : Z) (model_name : string) (processing_time : float) (e : exn) :
  add_metadata_to_result timestamp result s run_number model_name processing_time = Raise e →
  is_quota_error e = false.
Proof. destruct result; intros [= <-]; by vm_compute. Qed.

(** An exception of the extraction is the [ValueError] it raises itself, or
    an exception of the decoder that is not a [JSONDecodeError]. *)
Lemma extract_error_origin (E : env) (text : string) (e : exn) :
  extract_json_from_response E (Some text) = Raise e →
  exn_type e = "ValueError" ∨ ∃ json_str, json_loads E json_str = OtherError e.
Proof.
  unfold extract_json_from_response.
  destruct (search_fenced text) as [g|]; cbn [mbind outcome_bind].
  - destruct (json_loads E g) eqn:Hg; [done| |].
    + intros [= <-]. by left.
    + intros [= <-]. eauto.
  - destruct (search_braces text) as [g|]; cbn [mbind outcome_bind].
    + destruct (json_loads E g) eqn:Hg; [done| |].
      * intros [= <-]. by left.
      * intros [= <-]. eauto.
    + intros [= <-]. by left.
Qed.

(** X4. What can trip the breaker on a registered model. When the [try]
    block of a run raises an exception that the orchestrator classes as a
    quota error, then one of three things happened. The executor raised again
    the failure of its last attempt, whose text has [quota] (in whatever
    case) but neither [ResourceExhausted] nor [429]. Or the handler of a
    failed attempt of the executor raised it: [int()], on a suggested wait of
    too many digits, or [time.sleep()]. Or the service answered with a text
    and the extraction of the payload raised it: its own [ValueError], whose
    message quotes the response or the decoder, or an exception of the decoder
    that is not a [JSONDecodeError]. The [None] that the executor returns
    after rate-limit errors and a payload that is not an object never trip the
    breaker. *)
Theorem breaker_trip_causes (E : env) (max_retries : Z) (model_name : string)
    (s : sample) (prompt : string) (run_num : Z) (w w1 : world) (e : exn) :
  is_Some (AVAILABLE_MODELS !! model_name) →
  try_run E max_retries model_name s prompt run_num w = (Raise e, w1) →
  is_quota_error e = true →
  (∃ k, attempt_failure (service E k) = Some e ∧
        is_rate_limit_error (exn_msg e) = false ∧
        Str.contains "quota" (Str.lower (exn_msg e)) = true) ∨
  (∃ k e0,
     attempt_failure (service E k) = Some e0 ∧
     ((∃ group, retry_delay_search (exn_msg e0) = Some group ∧ py_int E group = Raise e) ∨
      (∃ seconds, sleep_error E seconds = Some e))) ∨
  (∃ k text, service E k = Text text ∧ truthy (PStr text) = true ∧
             extract_json_from_response E (Some text) = Raise e ∧
             (exn_type e = "ValueError" ∨
              ∃ json_str, json_loads E json_str = OtherError e)).
Proof.
  intros Hreg Htry Hquota. unfold try_run in Htry.
  destruct (generate_content _ _ _ _ _) as [raw w1'] eqn:Hgen.
  injection Htry as Htry <-.
  destruct raw as [[text|]|e0]; cbn [mbind outcome_bind] in Htry.
  - right. right. rewrite generate_content_registered in Hgen by done.
    apply attempt_loop_answer in Hgen as (k & Hk & Ht).
    destruct (extract_json_from_response E (Some text)) as [parsed|e0] eqn:Hparsed.
    + apply add_metadata_error_not_quota in Htry. congruence.
    + injection Htry as ->. exists k, text. split_and!; try done.
      by eapply extract_error_origin.
  - injection Htry as <-. by vm_compute in Hquota.
  - injection Htry as ->.
    rewrite generate_content_registered, seqZ_to_nat in Hgen by done.
    apply attempt_loop_raise in Hgen as (i & e0 & Hi & He0 & Hh & Hcount).
    apply handle_failure_raise in Hh.
    destruct (is_rate_limit_error (exn_msg e0)) eqn:Hrate.
    + right. left. destruct Hh as (group & Hgroup & [Hint|(d & _ & Hsleep)]).
      * exists (requests_issued w + i)%nat, e0. split; [exact He0|]. left. eauto.
      * exists (requests_issued w + i)%nat, e0. split; [exact He0|]. right. eauto.
    + destruct (_ <? _).
      * right. left. exists (requests_issued w + i)%nat, e0. split; [exact He0|]. right. eauto.
      * subst e0. left. exists (requests_issued w + i)%nat. split_and!; [exact He0|done|].
        unfold is_quota_error in Hquota. unfold is_rate_limit_error in Hrate.
        rewrite Hrate in Hquota. done.
Qed.

Lemma breaker_trip_causes_witness :
  (∃ k, attempt_failure (service Scenario.overlong k) = Some Scenario.overlong_error ∧
        is_rate_limit_error (exn_msg Scenario.overlong_error) = false ∧
        Str.contains "quota" (Str.lower (exn_msg Scenario.overlong_error)) = true) ∨
  (∃ k e0,
     attempt_failure (service Scenario.overlong k) = Some e0 ∧
     ((∃ group, retry_delay_search (exn_msg e0) = Some group ∧
                py_int Scenario.overlong group = Raise Scenario.overlong_error) ∨
      (∃ seconds, sleep_error Scenario.overlong seconds = Some Scenario.overlong_error))) ∨
  (∃ k text, service Scenario.overlong k = Text text ∧ truthy (PStr text) = true ∧
             extract_json_from_response Scenario.overlong (Some text)
             = Raise Scenario.overlong_error ∧
             (exn_type Scenario.overlong_error = "ValueError" ∨
              ∃ json_str, json_loads Scenario.overlong json_str
                          = OtherError Scenario.overlong_error)).
Proof.
  apply (breaker_trip_causes Scenario.overlong 3 Scenario.flash Scenario.sample_a
           Scenario.prompt_a 1 Scenario.fresh
           (try_run Scenario.overlong 3 Scenario.flash Scenario.sample_a
              Scenario.prompt_a 1 Scenario.fresh).2
           Scenario.overlong_error).
  - eexists. reflexivity.
  - by vm_compute.
  - by vm_compute.
Defined.

(** X5. The executor returns the first text it gets. When the first [i]
    requests fail (with an exception of whatever class, or an empty text) and
    the handler sleeps after each of them, [i < max_retries], and the next
    request is answered with a text that is not empty, [generate_content]
    returns that text after exactly [i + 1] requests, and the ledger is as it
    was. *)
Theorem executor_returns_first_text (E : env) (max_retries : Z)
    (prompt model_name : string) (w : world) (i : nat) (text : string) :
  is_Some (AVAILABLE_MODELS !! model_name) →
  Z.of_nat i < max_retries →
  (∀ j, (j < i)%nat →
     ∃ e seconds,
       attempt_failure (service E (requests_issued w + j)) = Some e ∧
       handle_failure E max_retries model_name (Z.of_nat j) e = Ret seconds) →
  service E (requests_issued w + i) = Text text →
  truthy (PStr text) = true →
  ∃ w',
    generate_content E max_retries prompt model_name w = (Ret (Some text), w') ∧
    requests_issued w' = (requests_issued w + i + 1)%nat ∧
    ledger w' = ledger w.
Proof.
  intros Hreg Hi Hfail Htext Ht.
  pose proof (generate_content_ledger E max_retries prompt model_name w) as Hl.
  rewrite generate_content_registered, seqZ_to_nat in Hl |- * by done.
  destruct (attempt_loop_first_text E max_retries prompt model_name i
              (Z.to_nat max_retries) 0 w text) as (w' & Hloop & Hcount);
    [lia| |done..|].
  { intros j Hj. rewrite Z.add_0_l. by apply Hfail. }
  rewrite Hloop in Hl |- *. eauto.
Qed.

Lemma executor_returns_first_text_witness :
  ∃ w',
    generate_content Scenario.flaky 3 "prompt" Scenario.flash Scenario.fresh
    = (Ret (Some "{}"), w') ∧
    requests_issued w' = (requests_issued Scenario.fresh + 1 + 1)%nat ∧
    ledger w' = ledger Scenario.fresh.
Proof.
  apply (executor_returns_first_text Scenario.flaky 3 "prompt" Scenario.flash
           Scenario.fresh 1 "{}").
  - eexists. reflexivity.
  - lia.
  - intros [|j] Hj; [eexists _, _; split; reflexivity|lia].
  - reflexivity.
  - reflexivity.
Defined.

Lemma generate_content_trace (E : env) (max_retries : Z)
    (prompt model_name : string) (w : world) :
  ∃ evs,
    trace (generate_content E max_retries prompt model_name w).2 = trace w ++ evs ∧
    spaced false evs = true ∧
    (requests_in evs ≤ Z.to_nat max_retries)%nat ∧
    filter is_append evs = [].
Proof.
  unfold generate_content. destruct (AVAILABLE_MODELS !! model_name).
  - destruct (attempt_loop_trace E max_retries prompt model_name (seqZ 0 max_retries) w)
      as (evs & Htrace & Hspaced & Hcount & Happ).
    exists evs. rewrite length_seqZ in Hcount. done.
  - exists []. cbn. rewrite app_nil_r. split_and!; [done..|lia|done].
Qed.

(** X6. Whatever the service does, one call of the executor issues at most
    [max_retries] requests, sleeps between any two of them, appends nothing
    and leaves the ledger as it was. With [max_retries <= 0] it returns [None]
    at once, without a request. *)
Theorem executor_request_budget (E : env) (max_retries : Z)
    (prompt model_name : string) (w : world) :
  (∃ evs,
     trace (generate_content E max_retries prompt model_name w).2 = trace w ++ evs ∧
     spaced false evs = true ∧
     (requests_in evs ≤ Z.to_nat max_retries)%nat ∧
     filter is_append evs = []) ∧
  ledger (generate_content E max_retries prompt model_name w).2 = ledger w ∧
  (max_retries ≤ 0 → is_Some (AVAILABLE_MODELS !! model_name) →
   generate_content E max_retries prompt model_name w = (Ret None, w)).
Proof.
  split_and!.
  - apply generate_content_trace.
  - apply generate_content_ledger.
  - intros Hr Hreg. rewrite generate_content_registered, seqZ_to_nat by done.
    by replace (Z.to_nat max_retries) with 0%nat by lia.
Qed.

Lemma generate_content_all_fail (E : env) (max_retries : Z) (prompt model_name : string)
    (w : world) (text : string) :
  (∀ k, is_Some (attempt_failure (service E k))) →
  (generate_content E max_retries prompt model_name w).1 ≠ Ret (Some text).
Proof.
  intros Hfail Hgen. unfold generate_content in Hgen.
  destruct (AVAILABLE_MODELS !! model_name); [|done].
  destruct (attempt_loop _ _ _ _ _ _) as [r w'] eqn:Hloop. cbn in Hgen. subst r.
  apply attempt_loop_answer in Hloop as (k & Hk & Ht).
  destruct (Hfail k) as [e He]. unfold attempt_failure in He.
  rewrite Hk, Ht in He. done.
Qed.

(** X7. [test_connection] never raises and leaves the world as the one call
    of the executor it makes left it. It answers [True] only when some request
    was answered with a text that is not blank; it answers [False], without a
    request, for a model that is not registered; [False] when every attempt
    fails, whether the executor then raises or returns [None]; and [False]
    when the service only sends blank texts. *)
Theorem connection_test_verdict (E : env) (max_retries : Z) (model_name : string)
    (w : world) :
  (test_connection E max_retries model_name w).2
  = (generate_content E max_retries test_prompt model_name w).2 ∧
  ((test_connection E max_retries model_name w).1 = true →
   ∃ k text, service E k = Text text ∧ Str.strip text ≠ EmptyString) ∧
  (AVAILABLE_MODELS !! model_name = None →
   test_connection E max_retries model_name w = (false, w)) ∧
  ((∀ k, is_Some (attempt_failure (service E k))) →
   (test_connection E max_retries model_name w).1 = false) ∧
  ((∀ k, ∃ text, service E k = Text text ∧ Str.strip text = EmptyString) →
   (test_connection E max_retries model_name w).1 = false).
Proof.
  unfold test_connection. split_and!.
  - by destruct (generate_content _ _ _ _ _) as [[[text|]|e] w1].
  - destruct (generate_content _ _ _ _ _) as [[[text|]|e] w1] eqn:Hgen; [|done..].
    cbn. intros Hlen. unfold generate_content in Hgen.
    destruct (AVAILABLE_MODELS !! model_name); [|done].
    apply attempt_loop_answer in Hgen as (k & Hk & _).
    exists k, text. split; [done|]. intros Hs. rewrite Hs in Hlen. done.
  - intros Hn. unfold generate_content. by rewrite Hn.
  - intros Hfail.
    pose proof (generate_content_all_fail E max_retries test_prompt model_name w) as Hno.
    destruct (generate_content _ _ _ _ _) as [[[text|]|e] w1]; [|done..].
    by destruct (Hno text Hfail).
  - intros Hblank.
    destruct (generate_content _ _ _ _ _) as [[[text|]|e] w1] eqn:Hgen; [|done..].
    cbn. unfold generate_content in Hgen.
    destruct (AVAILABLE_MODELS !! model_name); [|done].
    apply attempt_loop_answer in Hgen as (k & Hk & _).
    destruct (Hblank k) as (text' & Hk' & Hs). rewrite Hk in Hk'. injection Hk' as <-.
    by rewrite Hs.
Qed.

(** ** Extracting the payload *)

Lemma string_prefix_cons (c a : ascii) (s : string) :
  String.prefix (String c EmptyString) (String a s) = Ascii.eqb a c.
Proof.
  cbn. destruct (ascii_dec c a) as [->|Hne].
  - rewrite Ascii.eqb_refl. by destruct s.
  - symmetry. apply Ascii.eqb_neq. congruence.
Qed.

Lemma contains_char_cons (c a : ascii) (s : string) :
  Str.contains (String c EmptyString) (String a s)
  = Ascii.eqb a c || Str.contains (String c EmptyString) s.
Proof. cbn [Str.contains]. by rewrite string_prefix_cons. Qed.

Lemma contains_char_drop (c : ascii) (n : nat) (s : string) :
  Str.contains (String c EmptyString) s = false →
  Str.contains (String c EmptyString) (Str.drop n s) = false.
Proof.
  revert s. induction n as [|n IH]; intros s Hs; [by destruct s|].
  destruct s as [|a s]; [done|]. cbn [Str.drop]. apply IH.
  rewrite contains_char_cons in Hs. by apply orb_false_iff in Hs as [_ Hs].
Qed.

Lemma contains_char_lstrip (c : ascii) (s : string) :
  Str.contains (String c EmptyString) s = false →
  Str.contains (String c EmptyString) (Str.lstrip s) = false.
Proof.
  induction s as [|a s IH]; intros Hs; [done|]. cbn [Str.lstrip].
  destruct (Str.is_space a); [|done]. apply IH.
  rewrite contains_char_cons in Hs. by apply orb_false_iff in Hs as [_ Hs].
Qed.

Lemma string_append_cons (a : ascii) (s1 s2 : string) :
  String a s1 +:+ s2 = String a (s1 +:+ s2).
Proof. reflexivity. Qed.

Lemma lstrip_suffix (s : string) : ∃ blanks, s = blanks +:+ Str.lstrip s.
Proof.
  induction s as [|a s [blanks IH]]; [by exists EmptyString|]. cbn [Str.lstrip].
  destruct (Str.is_space a).
  - exists (String a blanks). rewrite string_append_cons. by f_equal.
  - by exists EmptyString.
Qed.

Lemma string_prefix_drop (p s : string) :
  String.prefix p s = true → s = p +:+ Str.drop (String.length p) s.
Proof.
  revert s. induction p as [|a p IH]; intros s Hp; [by destruct s|].
  destruct s as [|b s]; [done|]. cbn in Hp |- *.
  destruct (ascii_dec a b) as [->|]; [|done]. rewrite string_append_cons. f_equal. by apply IH.
Qed.

Lemma string_append_assoc (s1 s2 s3 : string) : (s1 +:+ s2) +:+ s3 = s1 +:+ s2 +:+ s3.
Proof. induction s1 as [|a s1 IH]; [done|]. by rewrite !string_append_cons, IH. Qed.

Lemma upto_last_brace_none (s : string) :
  upto_last_brace s = None → Str.contains "}" s = false.
Proof.
  induction s as [|a s IH]; [done|]. cbn [upto_last_brace].
  destruct (upto_last_brace s); [done|].
  destruct (Ascii.eqb a "}") eqn:Ha; [done|]. intros _.
  rewrite contains_char_cons, Ha. by apply IH.
Qed.

Lemma upto_last_brace_some (s t : string) :
  upto_last_brace s = Some t →
  ∃ body post, t = body +:+ "}" ∧ s = t +:+ post ∧ Str.contains "}" post = false.
Proof.
  revert t. induction s as [|a s IH]; intros t; [done|]. cbn [upto_last_brace].
  destruct (upto_last_brace s) as [t'|] eqn:Hs.
  - intros [= <-]. destruct (IH t' eq_refl) as (body & post & -> & Hs' & Hpost).
    exists (String a body), post. rewrite !string_append_cons. by rewrite <- Hs'.
  - destruct (Ascii.eqb a "}") eqn:Ha; [|done]. intros [= <-].
    apply Ascii.eqb_eq in Ha as ->.
    exists EmptyString, s. split_and!; [done..|]. by apply upto_last_brace_none.
Qed.

Lemma search_braces_some (s g : string) :
  search_braces s = Some g →
  ∃ pre body post,
    s = pre +:+ g +:+ post ∧ g = "{" +:+ body +:+ "}" ∧
    Str.contains "{" pre = false ∧ Str.contains "}" post = false.
Proof.
  revert g. induction s as [|a s IH]; intros g; [done|]. cbn [search_braces].
  destruct (Ascii.eqb a "{") eqn:Ha.
  - apply Ascii.eqb_eq in Ha as ->.
    destruct (upto_last_brace s) as [t|] eqn:Hs; [|done]. intros [= <-].
    apply upto_last_brace_some in Hs as (body & post & -> & Hs & Hpost).
    exists EmptyString, body, post. split_and!; [|done..].
    change (String "{" s = String "{" ((body +:+ "}") +:+ post)). by f_equal.
  - intros Hg. destruct (IH g Hg) as (pre & body & post & -> & -> & Hpre & Hpost).
    exists (String a pre), body, post. split_and!; [done..| |done].
    by rewrite contains_char_cons, Ha.
Qed.

Lemma search_braces_none (s : string) :
  Str.contains "{" s = false → search_braces s = None.
Proof.
  induction s as [|a s IH]; [done|]. rewrite contains_char_cons.
  intros [Ha Hs]%orb_false_iff. cbn [search_braces]. rewrite Ha. by apply IH.
Qed.

Lemma fenced_close_some (s t : string) :
  fenced_close s = Some t → ∃ body post, t = body +:+ "}" ∧ s = t +:+ post.
Proof.
  revert t. induction s as [|a s IH]; intros t; [done|]. cbn [fenced_close].
  destruct (Ascii.eqb a "}" && String.prefix "```" (Str.lstrip s)) eqn:Hclose.
  - intros [= <-]. apply andb_prop in Hclose as [Ha _].
    apply Ascii.eqb_eq in Ha as ->. by exists EmptyString, s.
  - destruct (fenced_close s) as [t'|]; [|done]. intros [= <-].
    destruct (IH t' eq_refl) as (body & post & -> & Hs).
    exists (String a body), post. rewrite !string_append_cons. by rewrite <- Hs.
Qed.

Lemma search_fenced_some (s g : string) :
  search_fenced s = Some g → brace_span g s.
Proof.
  revert g. induction s as [|a s IH]; intros g.
  { cbn. done. }
  cbn [search_fenced].
  set (here := if String.prefix "```json" (String a s) then _ else _).
  assert (Hhere : ∀ g, here = Some g → brace_span g (String a s)).
  { intros g'. unfold here.
    destruct (String.prefix "```json" (String a s)) eqn:Hp; [|done].
    apply string_prefix_drop in Hp.
    change (String.length "```json") with 7%nat in Hp.
    generalize dependent (Str.drop 7 (String a s)). intros dropped Hp.
    destruct (lstrip_suffix dropped) as [blanks Hblanks].
    destruct (Str.lstrip dropped) as [|c rest]; [done|].
    destruct (Ascii.eqb c "{") eqn:Hc; [|done]. apply Ascii.eqb_eq in Hc as ->.
    destruct (fenced_close rest) as [t|] eqn:Hrest; [|done].
    cbv zeta. cbn [fmap option_fmap option_map]. intros [= <-].
    apply fenced_close_some in Hrest as (body & post & -> & Hrest).
    exists ("```json" +:+ blanks), body, post. split; [|done].
    rewrite Hp, Hblanks, Hrest.
    by rewrite !string_append_assoc, !string_append_cons, !string_append_assoc. }
  destruct here as [g'|].
  - intros [= <-]. by apply Hhere.
  - intros Hg. destruct (IH g Hg) as (pre & body & post & -> & ->).
    by exists (String a pre), body, post.
Qed.

Lemma search_fenced_none (s : string) :
  Str.contains "{" s = false → search_fenced s = None.
Proof.
  induction s as [|a s IH]; [done|]. intros Hs. cbn [search_fenced].
  pose proof (contains_char_lstrip _ _ (contains_char_drop _ 7 _ Hs)) as Hno.
  destruct (Str.lstrip (Str.drop 7 (String a s))) as [|c rest].
  - rewrite contains_char_cons in Hs. apply orb_false_iff in Hs as [_ Hs].
    destruct (String.prefix "```json" (String a s)); by apply IH.
  - rewrite contains_char_cons in Hno. apply orb_false_iff in Hno as [Hc _].
    rewrite Hc. rewrite contains_char_cons in Hs. apply orb_false_iff in Hs as [_ Hs].
    destruct (String.prefix "```json" (String a s)); by apply IH.
Qed.

(** X8. The text handed to the JSON decoder is a piece of the response that
    runs from an opening brace to a closing brace; without a fenced block it
    is the piece from the first opening brace to the last closing brace. When
    [extract_json_from_response] returns a value, it is what the decoder made
    of that piece. An exception it raises on a text is a [ValueError] of its
    own, or an exception of the decoder on that piece that is not a
    [JSONDecodeError] and that it lets through as it is. On a text without an
    opening brace it raises the [ValueError] [No JSON found in response],
    quoting the first 200 characters, without consulting the decoder. *)
Theorem extracted_json_is_brace_span (E : env) (text : string) :
  match extract_json_from_response E (Some text) with
  | Ret v =>
      ∃ json_str,
        brace_span json_str text ∧ json_loads E json_str = Decoded v ∧
        (search_fenced text = None →
         ∃ pre post, text = pre +:+ json_str +:+ post ∧
                     Str.contains "{" pre = false ∧ Str.contains "}" post = false)
  | Raise e =>
      exn_type e = "ValueError" ∨
      ∃ json_str, brace_span json_str text ∧ json_loads E json_str = OtherError e
  end ∧
  (Str.contains "{" text = false →
   extract_json_from_response E (Some text)
   = Raise (Exn "ValueError"
              ("No JSON found in response: " +:+ Str.take 200 text +:+ "..."))).
Proof.
  unfold extract_json_from_response. split.
  - destruct (search_fenced text) as [g|] eqn:Hf; cbn [mbind outcome_bind].
    + destruct (json_loads E g) as [v|msg|e] eqn:Hg.
      * exists g. split_and!; [by apply search_fenced_some|done|done].
      * by left.
      * right. exists g. split; [by apply search_fenced_some|done].
    + destruct (search_braces text) as [g|] eqn:Hb; cbn [mbind outcome_bind];
        [|by left].
      apply search_braces_some in Hb as (pre & body & post & -> & -> & Hpre & Hpost).
      destruct (json_loads E _) as [v|msg|e] eqn:Hg.
      * eexists. split_and!; [by eexists _, _, _|done|eauto].
      * by left.
      * right. eexists. split; [by eexists _, _, _|done].
  - intros Hno. by rewrite search_fenced_none, search_braces_none.
Qed.

(** ** Appending to the ledger and reading it back *)

(** X9. An error record never counts as a completed run, in a ledger whose
    last line is ended. When the ledger ends in a line end and the append goes
    through, appending the record that [create_error_record] builds leaves a
    ledger that ends in a line end, and leaves the readability of the ledger
    and the completion set that [load_existing_results] builds from it as they
    were, so the runs that remain for any sample are the same; the list of
    existing results gets the record at its end when the ledger is readable.
    After a last line that was left without its line end the record is glued
    to that line: where the line was a success record on its own, the run it
    recorded is no longer in the completion set. *)
Theorem error_record_never_completes (E : env) (timestamp : string) (s : sample)
    (error : exn) (run_number : Z) (model_name : string) (w : world) :
  terminated (ledger w) = true →
  disk E (appends_tried w) = true →
  let record := create_error_record timestamp s error run_number model_name in
  (∃ w',
     save_result_to_jsonl E record w = (true, w') ∧
     terminated (ledger w') = true ∧
     readable (ledger w') = readable (ledger w) ∧
     (load_existing_results (ledger w')).2 = (load_existing_results (ledger w)).2 ∧
     (load_existing_results (ledger w')).1
     = (if readable (ledger w)
        then (load_existing_results (ledger w)).1 ++ [PDict record]
        else (load_existing_results (ledger w)).1) ∧
     ∀ sample_id n_runs,
       remaining_runs (load_existing_results (ledger w')).2 sample_id n_runs
       = remaining_runs (load_existing_results (ledger w)).2 sample_id n_runs) ∧
  (terminated (ledger Scenario.unterminated) = false ∧
   (load_existing_results (ledger Scenario.unterminated)).2
   = {[ (KStr "id-a", KInt 1) ]} ∧
   (load_existing_results
      (ledger (save_result_to_jsonl Scenario.obliging
                 (create_error_record "2025-01-01T00:00:00" Scenario.sample_a
                    Scenario.none_error 2 Scenario.flash)
                 Scenario.unterminated).2)).2 = ∅).
Proof.
  intros Hterm Hdisk record. split.
  - assert (Hok : line_ok (LJson (PDict record)) = true).
    { cbn. unfold record. by rewrite error_record_success. }
    assert (Hpair : success_pairs [LJson (PDict record)] = ∅).
    { rewrite success_pairs_singleton. cbn. unfold record.
      by rewrite error_record_success. }
    unfold save_result_to_jsonl. rewrite Hdisk.
    eexists. split; [reflexivity|]. cbn [ledger].
    change (default [] (ledger w)) with (written (ledger w)).
    assert (Hset : (load_existing_results
                      (Some (written (ledger w) ++ [LJson (PDict record)]))).2
                   = (load_existing_results (ledger w)).2).
    { rewrite load_existing_results_snoc, Hok, andb_true_r, Hpair by done.
      rewrite (load_existing_results_file (ledger w)).
      destruct (readable (ledger w)); cbn; [|done]. by rewrite (right_id_L ∅ (∪)). }
    split_and!.
    + by apply terminated_snoc.
    + by rewrite readable_snoc, Hok, andb_true_r.
    + exact Hset.
    + rewrite load_existing_results_snoc, Hok, andb_true_r by done.
      rewrite (load_existing_results_file (ledger w)).
      by destruct (readable (ledger w)).
    + intros sample_id n_runs. by rewrite Hset.
  - split_and!.
    + reflexivity.
    + apply (bool_decide_unpack _). by vm_compute.
    + apply (bool_decide_unpack _). by vm_compute.
Qed.

Lemma error_record_never_completes_witness :
  let record :=
    create_error_record "2025-01-01T00:00:00" Scenario.sample_a Scenario.none_error 2
      Scenario.flash in
  (∃ w',
     save_result_to_jsonl Scenario.obliging record Scenario.stale = (true, w') ∧
     terminated (ledger w') = true ∧
     readable (ledger w') = readable (ledger Scenario.stale) ∧
     (load_existing_results (ledger w')).2
     = (load_existing_results (ledger Scenario.stale)).2 ∧
     (load_existing_results (ledger w')).1
     = (if readable (ledger Scenario.stale)
        then (load_existing_results (ledger Scenario.stale)).1 ++ [PDict record]
        else (load_existing_results (ledger Scenario.stale)).1) ∧
     ∀ sample_id n_runs,
       remaining_runs (load_existing_results (ledger w')).2 sample_id n_runs
       = remaining_runs (load_existing_results (ledger Scenario.stale)).2
           sample_id n_runs) ∧
  (terminated (ledger Scenario.unterminated) = false ∧
   (load_existing_results (ledger Scenario.unterminated)).2
   = {[ (KStr "id-a", KInt 1) ]} ∧
   (load_existing_results
      (ledger (save_result_to_jsonl Scenario.obliging
                 (create_error_record "2025-01-01T00:00:00" Scenario.sample_a
                    Scenario.none_error 2 Scenario.flash)
                 Scenario.unterminated).2)).2 = ∅).
Proof.
  apply (error_record_never_completes Scenario.obliging "2025-01-01T00:00:00"
           Scenario.sample_a Scenario.none_error 2 Scenario.flash Scenario.stale);
    reflexivity.
Defined.

(** X10. Writing a success record and reading the ledger back. For a
    payload that defines none of [success], [sample_id], [run_number], a
    sample that carries a sample id, a readable ledger that ends in a line end
    and a write that goes through: the record that [add_metadata_to_result]
    builds is appended by [save_result_to_jsonl], after which
    [load_existing_results] returns the earlier results followed by that
    record, and the earlier completion set with the pair of the sample id and
    the run index added; the ledger stays readable and the run is no longer
    among the remaining runs. *)
Theorem saved_success_record_reloads (E : env) (timestamp : string)
    (d : gmap string pyval) (s : sample) (sid : string) (run_number : Z)
    (model_name : string) (processing_time : float) (n_runs : Z) (w : world) :
  sample_id s = Some sid →
  d !! "success" = None → d !! "sample_id" = None → d !! "run_number" = None →
  terminated (ledger w) = true →
  readable (ledger w) = true →
  disk E (appends_tried w) = true →
  ∃ record w',
    add_metadata_to_result timestamp (PDict d) s run_number model_name processing_time
    = Ret record ∧
    save_result_to_jsonl E record w = (true, w') ∧
    load_existing_results (ledger w')
    = ((load_existing_results (ledger w)).1 ++ [PDict record],
       {[ (KStr sid, KInt run_number) ]} ∪ (load_existing_results (ledger w)).2) ∧
    terminated (ledger w') = true ∧
    readable (ledger w') = true ∧
    run_number ∉ remaining_runs (load_existing_results (ledger w')).2 sid n_runs.
Proof.
  intros Hsid H1 H2 H3 Hterm Hread Hdisk.
  destruct (success_record_line timestamp d s run_number model_name processing_time
              H1 H2 H3) as [Hok Hpair].
  rewrite Hsid in Hpair. cbn [default from_option id] in Hpair.
  eexists. eexists. split; [reflexivity|].
  assert (Hload : load_existing_results
            (Some (written (ledger w) ++
               [LJson (PDict (d ∪ success_metadata timestamp s run_number model_name
                                processing_time))]))
          = ((load_existing_results (ledger w)).1 ++
               [PDict (d ∪ success_metadata timestamp s run_number model_name
                         processing_time)],
             {[ (KStr sid, KInt run_number) ]} ∪ (load_existing_results (ledger w)).2)).
  { rewrite load_existing_results_snoc, Hread, Hok by done. cbn [andb]. f_equal.
    rewrite success_pairs_singleton, Hpair. by rewrite (comm_L (∪)). }
  unfold save_result_to_jsonl. rewrite Hdisk. split; [reflexivity|]. cbn [ledger].
  change (default [] (ledger w)) with (written (ledger w)).
  split_and!.
  - exact Hload.
  - by apply terminated_snoc.
  - by rewrite readable_snoc, Hread, Hok.
  - rewrite Hload. cbn [snd].
    rewrite elem_of_remaining_runs. intros [_ Hnot]. apply Hnot.
    apply elem_of_union. left. by apply elem_of_singleton.
Qed.

Lemma saved_success_record_reloads_witness :
  ∃ record w',
    add_metadata_to_result "2025-01-01T00:00:00" (PDict {[ "is_correct" := PBool true ]})
      Scenario.sample_a 1 Scenario.flash 1.5%float = Ret record ∧
    save_result_to_jsonl Scenario.obliging record Scenario.fresh = (true, w') ∧
    load_existing_results (ledger w')
    = ((load_existing_results (ledger Scenario.fresh)).1 ++ [PDict record],
       {[ (KStr "id-a", KInt 1) ]} ∪ (load_existing_results (ledger Scenario.fresh)).2) ∧
    terminated (ledger w') = true ∧
    readable (ledger w') = true ∧
    1 ∉ remaining_runs (load_existing_results (ledger w')).2 "id-a" 2.
Proof.
  apply (saved_success_record_reloads Scenario.obliging "2025-01-01T00:00:00"
           {[ "is_correct" := PBool true ]} Scenario.sample_a "id-a" 1 Scenario.flash
           1.5%float 2 Scenario.fresh); reflexivity.
Defined.

(** ** The success rate *)

Lemma count_lines_objects (lines : list line) (successful_count total_count : Z) :
  forallb object_line lines = true →
  count_lines lines successful_count total_count
  = Ret (successful_count + Z.of_nat (length (filter flagged (records_of lines))),
         total_count + Z.of_nat (length (records_of lines))).
Proof.
  revert successful_count total_count.
  induction lines as [|l lines IH]; intros a b Hok.
  { cbn. by rewrite !Z.add_0_r. }
  cbn in Hok. apply andb_prop in Hok as [Hl Hok].
  destruct l as [| |v|e|e|alone fused]; try discriminate;
    cbn [count_lines]; try (rewrite IH by done; done).
  destruct v; try discriminate. cbn [py_get mbind outcome_bind].
  rewrite IH by done. unfold records_of. cbn [omap list_omap line_record].
  destruct (truthy (default (PBool false) (d !! "success"))) eqn:Ht.
  - rewrite filter_cons_True by (unfold flagged; by rewrite Ht). cbn [length]. do 2 f_equal; lia.
  - rewrite filter_cons_False by (unfold flagged; rewrite Ht; auto). cbn [length]. do 2 f_equal; lia.
Qed.

Lemma count_lines_not_objects (lines : list line) (successful_count total_count : Z) :
  forallb object_line lines = false →
  ∃ e, count_lines lines successful_count total_count = Raise e.
Proof.
  revert successful_count total_count.
  induction lines as [|l lines IH]; intros a b Hok; [discriminate|].
  cbn in Hok. apply andb_false_iff in Hok as [Hl|Hok].
  - destruct l as [| |v|e|e|alone fused]; try discriminate; [|cbn; eauto..].
    destruct v; try discriminate; cbn; eauto.
  - destruct l as [| |v|e|e|alone fused]; cbn [count_lines]; try (by apply IH); eauto.
    destruct v; cbn; eauto.
Qed.

Lemma line_ok_object_line (l : line) : line_ok l = true → object_line l = true.
Proof. by destruct l as [| |[]| | |]. Qed.

Lemma readable_object_lines (file : option (list line)) :
  readable file = true → forallb object_line (lines_of file) = true.
Proof.
  unfold readable. rewrite !forallb_forall.
  intros Hall l Hl. by apply line_ok_object_line, Hall.
Qed.

Lemma size_insert_le (p : pykey * pykey) (X : completion) :
  (size ({[ p ]} ∪ X) ≤ S (size X))%nat.
Proof.
  rewrite size_union_alt, size_singleton.
  apply le_n_S, subseteq_size. by intros x [Hx _]%elem_of_difference.
Qed.

Lemma size_success_pairs (lines : list line) :
  (size (success_pairs lines) ≤ length (filter flagged (records_of lines)))%nat.
Proof.
  induction lines as [|l lines IH]; [done|].
  change (l :: lines) with ([l] ++ lines).
  rewrite success_pairs_app, success_pairs_singleton.
  unfold records_of. rewrite omap_app, filter_app, length_app.
  fold (records_of lines).
  destruct l as [| |v|e|e|alone fused]; cbn [success_pair];
    try (rewrite (left_id_L ∅ (∪)); cbn; lia).
  destruct v; cbn [success_pair]; try (rewrite (left_id_L ∅ (∪)); cbn; lia).
  cbn [omap list_omap line_record].
  destruct (truthy (default (PBool false) (d !! "success"))) eqn:Ht.
  - rewrite filter_cons_True by (unfold flagged; by rewrite Ht). cbn [length filter].
    destruct (py_key (default _ (d !! "sample_id"))) as [k1|];
      [destruct (py_key (default _ (d !! "run_number"))) as [k2|]|];
      try (rewrite (left_id_L ∅ (∪)); cbn; lia).
    pose proof (size_insert_le (k1, k2) (success_pairs lines)). cbn. lia.
  - rewrite (left_id_L ∅ (∪)). lia.
Qed.

(** X11. [calculate_success_rate] is the number of decoded records whose
    success flag is true divided by the number of decoded records (in binary64
    arithmetic), when every line is read and is blank, rejected by the decoder
    with a [JSONDecodeError], or decoded to a JSON object, and there is at
    least one record; it is 0.0 for a missing file, a file without a decoded
    line, a file with a decoded line that is not an object, and a file with a
    line on which reading or decoding raises another exception. The count of
    successes is at most the count of records. On a readable ledger the count
    of records is the length of the list that [load_existing_results]
    returns, and the completion set has at most as many pairs as there are
    success records. *)
Theorem success_rate_of_ledger (file : option (list line)) :
  let records := records_of (lines_of file) in
  let total := Z.of_nat (length records) in
  let successes := Z.of_nat (length (filter flagged records)) in
  calculate_success_rate file
  = (if forallb object_line (lines_of file) && (0 <? total)
     then PrimFloat.div (float_of_Z successes) (float_of_Z total)
     else 0%float) ∧
  0 ≤ successes ≤ total ∧
  (readable file = true →
   forallb object_line (lines_of file) = true ∧
   total = Z.of_nat (length (load_existing_results file).1) ∧
   Z.of_nat (size (load_existing_results file).2) ≤ successes).
Proof.
  intros records total successes. split_and!.
  - destruct file as [lines|]; [|done]. unfold calculate_success_rate.
    unfold total, records, lines_of. cbn [default from_option id].
    destruct (forallb object_line (read_lines lines)) eqn:Hok.
    + rewrite count_lines_objects by done. cbn [andb]. rewrite !Z.add_0_l. done.
    + by destruct (count_lines_not_objects (read_lines lines) 0 0 Hok) as [e ->].
  - lia.
  - unfold successes, total.
    pose proof (length_filter flagged records). lia.
  - intros Hread. rewrite load_existing_results_file, Hread. cbn [fst snd].
    split_and!.
    + by apply readable_object_lines.
    + done.
    + pose proof (size_success_pairs (lines_of file)). unfold successes, records. lia.
Qed.

(** ** The validator *)

Lemma size_insert_key_le (k : pykey) (X : gset pykey) :
  (size ({[ k ]} ∪ X) ≤ S (size X))%nat.
Proof.
  rewrite size_union_alt, size_singleton.
  apply le_n_S, subseteq_size. by intros x [Hx _]%elem_of_difference.
Qed.

Lemma counted_from_nil (stats : jsonl_stats) : counted_from [] stats stats.
Proof.
  unfold counted_from. cbn. split_and!; try lia; try done.
  intros samples ->. eexists. split; [done|lia].
Qed.

(** A line that was counted in full, followed by the rest of the reading. *)
Lemma counted_from_cons (l : line) (lines : list line) (stats stats1 stats' : jsonl_stats) :
  total_lines stats1 = total_lines stats + 1 →
  0 ≤ empty_lines stats1 - empty_lines stats →
  0 ≤ invalid_json_lines stats1 - invalid_json_lines stats →
  0 ≤ successful_results stats1 - successful_results stats →
  0 ≤ failed_results stats1 - failed_results stats →
  1 = (empty_lines stats1 - empty_lines stats)
      + (valid_json_lines stats1 - valid_json_lines stats)
      + (invalid_json_lines stats1 - invalid_json_lines stats) →
  (successful_results stats1 - successful_results stats)
  + (failed_results stats1 - failed_results stats)
  = valid_json_lines stats1 - valid_json_lines stats →
  unique_sample_count stats1 = unique_sample_count stats →
  (∀ samples, unique_samples stats = Some samples →
     ∃ samples', unique_samples stats1 = Some samples' ∧
       Z.of_nat (size samples')
       ≤ Z.of_nat (size samples) + (valid_json_lines stats1 - valid_json_lines stats)) →
  counted_from lines stats1 stats' →
  counted_from (l :: lines) stats stats'.
Proof.
  intros H1 H2 H3 H4 H5 H6 H7 H8 H9.
  unfold counted_from. cbn zeta. cbn [length].
  intros (I1 & I1' & I2 & I3 & I4 & I5 & I6 & I7 & I8 & I9).
  split_and!; try lia; try congruence.
  - intros Hno.
    assert (∀ e, LRaises e ∉ lines) as Hno'.
    { intros e He. apply (Hno e). by apply list_elem_of_further. }
    specialize (I1' Hno'). lia.
  - intros samples Hs. destruct (H9 samples Hs) as (samples1 & Hs1 & Hle1).
    destruct (I9 samples1 Hs1) as (samples' & Hs' & Hle').
    exists samples'. split; [done|lia].
Qed.

(** A decoded line at which the reading stopped. *)
Lemma counted_from_stop (l : line) (lines : list line) (e : exn)
    (stats stats1 : jsonl_stats) :
  total_lines stats1 = total_lines stats + 1 →
  valid_json_lines stats1 = valid_json_lines stats + 1 →
  invalid_json_lines stats1 = invalid_json_lines stats →
  empty_lines stats1 = empty_lines stats →
  0 ≤ successful_results stats1 - successful_results stats →
  0 ≤ failed_results stats1 - failed_results stats →
  (successful_results stats1 - successful_results stats)
  + (failed_results stats1 - failed_results stats) ≤ 1 →
  unique_sample_count stats1 = unique_sample_count stats →
  unique_samples stats1 = unique_samples stats →
  counted_from (l :: lines) stats (read_error e stats1).
Proof.
  intros H1 H2 H3 H4 H5 H6 H7 H8 H9. unfold counted_from. cbn.
  split_and!; try lia; try congruence.
  intros samples Hs. exists samples. split; [congruence|lia].
Qed.

Lemma validate_lines_counts (decode_error : Z → string) (line_num : Z) (lines : list line)
    (stats : jsonl_stats) :
  counted_from lines stats (validate_lines decode_error line_num lines stats).
Proof.
  revert line_num stats. induction lines as [|l lines IH]; intros line_num stats.
  { apply counted_from_nil. }
  assert (Hsame : ∀ samples, unique_samples stats = Some samples →
    ∃ samples', unique_samples stats = Some samples' ∧
      Z.of_nat (size samples') ≤ Z.of_nat (size samples) + 1).
  { intros samples ->. eexists. split; [done|lia]. }
  destruct l as [| |result|e|e|alone fused]; cbn [validate_lines].
  - eapply counted_from_cons; [..|apply IH]; cbn; try lia; try done.
    intros samples ->. eexists. split; [done|lia].
  - eapply counted_from_cons; [..|apply IH]; cbn; try lia; try done.
    intros samples ->. eexists. split; [done|lia].
  - destruct result; cbn [py_get];
      try (apply counted_from_stop; cbn; (lia || done)).
    destruct (truthy (default (PBool false) (d !! "success")));
      (destruct (truthy (default PNone (d !! "sample_id")));
       [destruct (py_key (default PNone (d !! "sample_id"))) as [k|e]|]);
      try (apply counted_from_stop; cbn; (lia || done));
      (eapply counted_from_cons; [..|apply IH]; cbn; try lia; try done).
    all: intros samples ->; cbn; eexists; (split; [done|]);
      try (match goal with
           | |- context [size ({[ ?k ]} ∪ ?X)] => pose proof (size_insert_key_le k X)
           end); lia.
  - unfold counted_from. cbn. split_and!; try lia; try done.
    + intros Hno. destruct (Hno e). apply list_elem_of_here.
    + intros samples ->. eexists. split; [done|lia].
  - unfold counted_from. cbn. split_and!; try lia; try done.
    intros samples ->. eexists. split; [done|lia].
  - eapply counted_from_cons; [..|apply IH]; cbn; try lia; try done.
    intros samples ->. eexists. split; [done|lia].
Qed.

Lemma validate_lines_valid (decode_error : Z → string) (line_num : Z) (lines : list line)
    (stats : jsonl_stats) :
  forallb valid_line lines = true →
  let stats' := validate_lines decode_error line_num lines stats in
  total_lines stats' = total_lines stats + Z.of_nat (length lines) ∧
  valid_json_lines stats'
  = valid_json_lines stats + Z.of_nat (length (records_of lines)) ∧
  successful_results stats'
  = successful_results stats + Z.of_nat (length (filter flagged (records_of lines))) ∧
  successful_results stats' + failed_results stats'
  = successful_results stats + failed_results stats
    + Z.of_nat (length (records_of lines)) ∧
  Z.of_nat (length (errors stats')) - invalid_json_lines stats'
  = Z.of_nat (length (errors stats)) - invalid_json_lines stats.
Proof.
  revert line_num stats. induction lines as [|l lines IH]; intros line_num stats Hok.
  { cbn. lia. }
  cbn in Hok. apply andb_prop in Hok as [Hl Hok].
  cbn zeta in *. cbn [validate_lines length]. unfold records_of in *.
  destruct l as [| |result|e|e|alone fused]; try discriminate.
  - destruct (IH (line_num + 1) (count_empty (count_line stats)) Hok)
      as (I1 & I2 & I3 & I4 & I5).
    cbn in *. lia.
  - destruct (IH (line_num + 1)
                (append_error
                   ("Line " +:+ pretty line_num +:+ ": " +:+ decode_error line_num)
                   (count_invalid (count_line stats))) Hok)
      as (I1 & I2 & I3 & I4 & I5).
    cbn in I1, I2, I3, I4, I5. rewrite length_app in I5. cbn in I5 |- *. lia.
  - destruct result; try discriminate. cbn [py_get]. cbn in Hl.
    cbn [omap list_omap line_record].
    destruct (truthy (default (PBool false) (d !! "success"))) eqn:Ht;
      [rewrite filter_cons_True by (unfold flagged; by rewrite Ht)
      |rewrite filter_cons_False by (unfold flagged; rewrite Ht; auto)];
      (destruct (truthy (default PNone (d !! "sample_id")));
       [cbn in Hl; apply py_key_hashable in Hl as [k ->]|]);
      match goal with
      | |- context [validate_lines _ _ _ ?stats1] =>
          destruct (IH (line_num + 1) stats1 Hok) as (I1 & I2 & I3 & I4 & I5)
      end;
      cbn in I1, I2, I3, I4, I5 |- *; lia.
  - destruct (IH (line_num + 1)
                (append_error
                   ("Line " +:+ pretty line_num +:+ ": " +:+ decode_error line_num)
                   (count_invalid (count_line stats))) Hok)
      as (I1 & I2 & I3 & I4 & I5).
    cbn in I1, I2, I3, I4, I5. rewrite length_app in I5. cbn in I5 |- *. lia.
Qed.

(** X12. The counters of [validate_jsonl_file] on an existing file, whose
    lines are the lines as they are read. Always: [total_lines] is the sum of
    the empty, the valid and the invalid lines, or one more (when decoding a
    line raised something else than a [JSONDecodeError]: that line is counted
    in [total_lines] only), and the sum itself when no line does that;
    [total_lines] is at most the number of lines of the file; the successful
    and the failed results add up to the valid lines, or to one less (when a
    decoded line that is not an object stopped the reading);
    [unique_samples] is replaced by [unique_sample_count], which is at most
    the number of valid lines. When every line is read and is blank, rejected
    with a [JSONDecodeError], or an object whose sample id, if it is there and
    true, can be hashed: all lines are read, the valid lines are the decoded
    records, the successful results are the records whose flag is true, the
    errors are as many as the invalid lines, and the success rate that
    [calculate_success_rate] reports is the quotient of the validator's
    counts. For a missing file the counters are zero, the one error says
    [File not found], and the report keeps the empty set and has no count. *)
Theorem validation_counts (decode_error : Z → string) (file_path : string)
    (lines : list line) :
  let stats := validate_jsonl_file decode_error file_path (Some lines) in
  let read := lines_of (Some lines) in
  empty_lines stats + valid_json_lines stats + invalid_json_lines stats
  ≤ total_lines stats
  ≤ empty_lines stats + valid_json_lines stats + invalid_json_lines stats + 1 ∧
  ((∀ e, LRaises e ∉ read) →
   total_lines stats
   = empty_lines stats + valid_json_lines stats + invalid_json_lines stats) ∧
  0 ≤ empty_lines stats ∧ 0 ≤ invalid_json_lines stats ∧
  0 ≤ successful_results stats ∧ 0 ≤ failed_results stats ∧
  total_lines stats ≤ Z.of_nat (length read) ∧
  successful_results stats + failed_results stats ≤ valid_json_lines stats ∧
  valid_json_lines stats ≤ successful_results stats + failed_results stats + 1 ∧
  unique_samples stats = None ∧
  (∃ count, unique_sample_count stats = Some count ∧
            0 ≤ count ≤ valid_json_lines stats) ∧
  (forallb valid_line read = true →
   total_lines stats = Z.of_nat (length read) ∧
   valid_json_lines stats = Z.of_nat (length (records_of read)) ∧
   successful_results stats = Z.of_nat (length (filter flagged (records_of read))) ∧
   valid_json_lines stats = successful_results stats + failed_results stats ∧
   Z.of_nat (length (errors stats)) = invalid_json_lines stats ∧
   calculate_success_rate (Some lines)
   = if 0 <? valid_json_lines stats
     then PrimFloat.div (float_of_Z (successful_results stats))
            (float_of_Z (valid_json_lines stats))
     else 0%float) ∧
  validate_jsonl_file decode_error file_path None
  = {| total_lines := 0; valid_json_lines := 0; invalid_json_lines := 0;
       empty_lines := 0; successful_results := 0; failed_results := 0;
       unique_samples := Some ∅; errors := ["File not found: " +:+ file_path];
       unique_sample_count := None |}.
Proof.
  cbn zeta. unfold validate_jsonl_file, lines_of. cbn [default from_option id].
  set (stats0 := {| total_lines := 0; valid_json_lines := 0; invalid_json_lines := 0;
                    empty_lines := 0; successful_results := 0; failed_results := 0;
                    unique_samples := Some ∅; errors := [];
                    unique_sample_count := None |}).
  destruct (validate_lines_counts decode_error 1 (read_lines lines) stats0)
    as (I1 & I1' & I2 & I3 & I4 & I5 & I6 & I8 & I9 & I10).
  destruct (I10 ∅ eq_refl) as (samples' & Hs' & Hle).
  cbn in I1, I1', I2, I3, I4, I5, I6, I8, Hle. rewrite size_empty in Hle.
  cbn [total_lines valid_json_lines invalid_json_lines empty_lines successful_results
       failed_results unique_samples errors unique_sample_count].
  split_and!; try lia; try done.
  - intros Hno. specialize (I1' Hno). lia.
  - rewrite Hs'. eexists. split; [reflexivity|]. cbn. lia.
  - intros Hok.
    destruct (validate_lines_valid decode_error 1 (read_lines lines) stats0 Hok)
      as (V1 & V2 & V3 & V4 & V5).
    cbn in V1, V2, V3, V4, V5.
    split_and!; try lia.
    unfold calculate_success_rate.
    rewrite count_lines_objects.
    + rewrite V2, V3, !Z.add_0_l. done.
    + rewrite forallb_forall in Hok |- *. intros l Hl. specialize (Hok l Hl).
      by destruct l as [| |[]| | |].
Qed.

(** ** The prompt and the remaining runs *)

Lemma replace_from_absent (fuel : nat) (old new s : string) :
  Str.contains old s = false → Str.replace_from fuel old new s = s.
Proof.
  revert s. induction fuel as [|fuel IH]; intros s Hs; [done|].
  cbn [Str.replace_from].
  destruct s as [|c rest]; cbn [Str.contains] in Hs;
    apply orb_false_iff in Hs as [-> Hs]; [done|].
  by rewrite IH.
Qed.

Lemma replace_absent (old new s : string) :
  Str.contains old s = false → Str.replace old new s = s.
Proof. apply replace_from_absent. Qed.

Lemma get_codebook_entry_none (codebook : list codebook_row) (code : string) :
  get_codebook_entry codebook code = None ↔ Forall (λ row, code_5 row ≠ code) codebook.
Proof.
  unfold get_codebook_entry. induction codebook as [|row codebook IH].
  { split; [constructor|done]. }
  destruct (decide (code_5 row = code)) as [Hrow|Hrow].
  - rewrite filter_cons_True by done. split; [done|].
    intros [Hne _]%Forall_cons. done.
  - rewrite filter_cons_False by done. rewrite IH, Forall_cons. tauto.
Qed.

Lemma get_codebook_entry_first (pre post : list codebook_row) (row : codebook_row)
    (code : string) :
  Forall (λ r, code_5 r ≠ code) pre →
  code_5 row = code →
  get_codebook_entry (pre ++ row :: post) code = Some row.
Proof.
  intros Hpre Hrow. unfold get_codebook_entry.
  induction Hpre as [|r pre Hr _ IH]; cbn [app].
  - by rewrite filter_cons_True.
  - by rewrite filter_cons_False.
Qed.

Lemma build_prompt_get_codebook_entry (template : string) (s : sample)
    (codebook : list codebook_row) :
  build_prompt_for_sample template s codebook
  = (λ row,
       Str.replace "{hierarchy_context}" (format_hierarchy row)
         (Str.replace "{code_to_check}" (kbli_code s)
            (Str.replace "{job_description}" (text s) template)))
    <$> get_codebook_entry codebook (kbli_code s).
Proof.
  unfold build_prompt_for_sample, get_codebook_entry.
  by destruct (filter _ codebook).
Qed.

Lemma build_prompt_matched (template : string) (s : sample)
    (codebook : list codebook_row) :
  is_Some (build_prompt_for_sample template s codebook) ↔ matched codebook s = true.
Proof.
  rewrite build_prompt_get_codebook_entry, fmap_is_Some.
  unfold matched. rewrite bool_decide_eq_true.
  rewrite <- not_eq_None_Some, get_codebook_entry_none. split.
  - intros Hn.
    destruct (decide (Exists (λ row, code_5 row = kbli_code s) codebook)) as [|He];
      [done|].
    destruct Hn. by apply Forall_Exists_neg.
  - intros He Hn. by apply Forall_Exists_neg in Hn.
Qed.

(** X13. The prompt is built from the entry that the codebook lookup
    returns: the first row whose [code_5] is the code of the sample. No prompt
    is built exactly when no row has that code; rows after the first match,
    and rows before it (which do not match), do not matter. The three
    placeholders are replaced in the order job description, code, hierarchy;
    a template without any of them is returned unchanged. *)
Theorem prompt_uses_first_codebook_entry (template : string) (s : sample)
    (codebook : list codebook_row) :
  build_prompt_for_sample template s codebook
  = (λ row,
       Str.replace "{hierarchy_context}" (format_hierarchy row)
         (Str.replace "{code_to_check}" (kbli_code s)
            (Str.replace "{job_description}" (text s) template)))
    <$> get_codebook_entry codebook (kbli_code s) ∧
  (build_prompt_for_sample template s codebook = None
   ↔ Forall (λ row, code_5 row ≠ kbli_code s) codebook) ∧
  (∀ pre row post,
     codebook = pre ++ row :: post →
     Forall (λ r, code_5 r ≠ kbli_code s) pre →
     code_5 row = kbli_code s →
     get_codebook_entry codebook (kbli_code s) = Some row) ∧
  (Str.contains "{job_description}" template = false →
   Str.contains "{code_to_check}" template = false →
   Str.contains "{hierarchy_context}" template = false →
   ∀ prompt, build_prompt_for_sample template s codebook = Some prompt →
             prompt = template).
Proof.
  split_and!.
  - apply build_prompt_get_codebook_entry.
  - rewrite build_prompt_get_codebook_entry, fmap_None. apply get_codebook_entry_none.
  - intros pre row post -> Hpre Hrow. by apply get_codebook_entry_first.
  - intros H1 H2 H3 prompt. rewrite build_prompt_get_codebook_entry.
    destruct (get_codebook_entry _ _); [|done].
    cbn [fmap option_fmap option_map]. intros [= <-].
    rewrite (replace_absent "{job_description}") by done.
    rewrite (replace_absent "{code_to_check}") by done.
    by rewrite (replace_absent "{hierarchy_context}").
Qed.

Lemma StronglySorted_seqZ (m : Z) (n : nat) : StronglySorted Z.lt (seqZ m (Z.of_nat n)).
Proof.
  revert m. induction n as [|n IH]; intros m; [constructor|].
  rewrite seqZ_cons by lia.
  replace (Z.pred (Z.of_nat (S n))) with (Z.of_nat n) by lia.
  constructor; [apply IH|].
  apply Forall_forall. intros k Hk%elem_of_seqZ. lia.
Qed.

Lemma StronglySorted_list_filter {A} (R : relation A) (P : A → Prop)
    `{!∀ x, Decision (P x)} (l : list A) :
  StronglySorted R l → StronglySorted R (filter P l).
Proof.
  induction 1 as [|x l Hl IH Hx]; [constructor|].
  destruct (decide (P x)).
  - rewrite filter_cons_True by done. constructor; [done|].
    apply Forall_forall. intros y [_ Hy]%list_elem_of_filter.
    by eapply Forall_forall in Hx.
  - by rewrite filter_cons_False.
Qed.

(** X14. The runs that remain for a sample are listed in strictly ascending
    order, so without repetition, and there are at most [n_runs] of them. *)
Theorem remaining_runs_ascending (completed : completion) (sample_id : string)
    (n_runs : Z) :
  StronglySorted Z.lt (remaining_runs completed sample_id n_runs) ∧
  NoDup (remaining_runs completed sample_id n_runs) ∧
  (length (remaining_runs completed sample_id n_runs) ≤ Z.to_nat n_runs)%nat.
Proof.
  unfold remaining_runs. split_and!.
  - apply StronglySorted_list_filter. unfold seqZ. rewrite <- (Nat2Z.id (Z.to_nat n_runs)). apply StronglySorted_seqZ.
  - apply NoDup_filter, NoDup_seqZ.
  - rewrite <- (length_seqZ 1 n_runs). apply length_filter.
Qed.

(** ** What an invocation does to the ledger and to the trace *)

Lemma success_metadata_identified (timestamp : string) (s : sample) (run_number : Z)
    (model_name : string) (processing_time : float) :
  identified (success_metadata timestamp s run_number model_name processing_time).
Proof.
  unfold identified, identity_keys, success_metadata.
  repeat apply Forall_cons_2; try apply Forall_nil_2;
    rewrite lookup_with_id_created_at_ne by discriminate; record_lookup; eauto.
Qed.

Lemma error_record_identified (timestamp : string) (s : sample) (error : exn)
    (run_number : Z) (model_name : string) :
  identified (create_error_record timestamp s error run_number model_name).
Proof.
  unfold identified, identity_keys, create_error_record.
  repeat apply Forall_cons_2; try apply Forall_nil_2;
    rewrite lookup_with_id_created_at_ne by discriminate; record_lookup; eauto.
Qed.

Lemma identified_union (d metadata : gmap string pyval) :
  identified metadata → identified (d ∪ metadata).
Proof.
  unfold identified. intros Hall. eapply Forall_impl; [exact Hall|].
  intros k Hk. apply lookup_union_is_Some. by right.
Qed.

Lemma grows_by_records_refl (x : loop_state * world) : grows_by_records x x.
Proof. exists []. cbn. rewrite app_nil_r. split_and!; [done|lia|constructor]. Qed.

Lemma grows_by_records_trans (x y z : loop_state * world) :
  grows_by_records x y → grows_by_records y z → grows_by_records x z.
Proof.
  intros (a1 & Hl1 & Hn1 & Hi1) (a2 & Hl2 & Hn2 & Hi2). exists (a1 ++ a2).
  rewrite Hl2, Hl1, Hn2, Hn1, fmap_app, length_app, (assoc_L (++)).
  split_and!; [done|lia|by apply Forall_app].
Qed.

Lemma grows_by_records_same (st st' : loop_state) (w w' : world) :
  new_results_count st' = new_results_count st →
  ledger w' = ledger w →
  grows_by_records (st, w) (st', w').
Proof.
  intros Hn Hl. exists []. cbn. rewrite Hl, Hn, app_nil_r.
  split_and!; [done|lia|constructor].
Qed.

Lemma run_once_grows_by_records (E : env) (max_retries : Z) (model_name : string)
    (s : sample) (sample_id prompt : string) (run_num : Z) (st : loop_state) (w : world) :
  grows_by_records (st, w)
    (let '(_, st', w') :=
       run_once E max_retries model_name s sample_id prompt run_num st w in
     (st', w')).
Proof.
  destruct (run_once_cases E max_retries model_name s sample_id prompt run_num st w)
    as (tried & w1 & Htry & Hl & ->). cbn zeta.
  assert (Hsave : ∀ (record : gmap string pyval) (st1 : loop_state),
    identified record →
    new_results_count st1 = new_results_count st + 1 →
    grows_by_records (st, w)
      (if disk E (appends_tried w1) then st1 else st,
       {| ledger := if disk E (appends_tried w1)
                    then Some (default [] (ledger w) ++ [LJson (PDict record)])
                    else ledger w;
          trace := trace w1 ++ [EvAppend (disk E (appends_tried w1))] |})).
  { intros record st1 Hrecord Hst1. destruct (disk E _).
    - exists [record]. cbn. split_and!; [done|lia|by constructor].
    - by apply grows_by_records_same. }
  destruct tried as [full_result|e].
  - apply Hsave; [|done].
    apply try_run_ret in Htry as (k & text & d & _ & _ & ->).
    apply identified_union, success_metadata_identified.
  - destruct (is_quota_error e); [by apply grows_by_records_same|].
    apply Hsave; [apply error_record_identified|done].
Qed.

(** Records appended after a line end leave a ledger that ends in a line end,
    and are read as they were written. *)
Lemma written_records_terminated (file file' : option (list line))
    (appended : list (gmap string pyval)) :
  terminated file = true →
  written file' = written file ++ (LJson ∘ PDict <$> appended) →
  terminated file' = true ∧
  lines_of file' = lines_of file ++ (LJson ∘ PDict <$> appended).
Proof.
  intros Hterm Hwritten.
  assert (terminated file' = true) as Hterm'.
  { unfold terminated in *. rewrite Hwritten, forallb_app, Hterm. cbn.
    clear. by induction appended. }
  split; [done|]. by rewrite !lines_of_terminated.
Qed.

(** X15. The ledger is append-only. When the ledger ends in a line end and
    every append goes through, whatever the service does, an invocation
    returns its statistics, and the ledger it leaves behind ends in a line end
    and is the ledger it found followed by new records: JSON objects, each
    with the ten identifying fields ([sample_id], [original_row_index],
    [original_text], [assigned_kbli_code], [category], [run_number],
    [model_name], [dataset_name], [timestamp], [success]), as many as the
    statistics report as new results; the total it reports is the number of
    results the reader returned at the start plus the new ones. *)
Theorem ledger_is_append_only (E : env) (max_retries : Z)
    (codebook : list codebook_row) (test_data : list sample) (master_template : string)
    (model_name dataset_filename : string) (n_runs : Z) (w : world) :
  terminated (ledger w) = true →
  appends_succeed E →
  ∃ stats appended,
    (run_pilot_study E max_retries codebook test_data master_template model_name
       dataset_filename n_runs w).1 = Ret stats ∧
    terminated (ledger (run_pilot_study E max_retries codebook test_data master_template
                          model_name dataset_filename n_runs w).2) = true ∧
    lines_of (ledger (run_pilot_study E max_retries codebook test_data master_template
                        model_name dataset_filename n_runs w).2)
    = lines_of (ledger w) ++ (LJson ∘ PDict <$> appended) ∧
    stat_new_results_generated stats = Z.of_nat (length appended) ∧
    stat_total_completed stats
    = Z.of_nat (length (load_existing_results (ledger w)).1) + Z.of_nat (length appended) ∧
    Forall identified appended.
Proof.
  intros Hterm _. unfold run_pilot_study.
  destruct (get_rate_limit_delay_returns model_name) as [rate_delay ->].
  destruct (load_existing_results (ledger w)) as [existing completed].
  case_bool_decide.
  { eexists _, []. cbn [fst snd]. split; [reflexivity|]. cbn. rewrite app_nil_r.
    split_and!; [done..|lia|constructor]. }
  pose proof (process_samples_relation E max_retries codebook master_template model_name
    rate_delay n_runs (λ _, True) grows_by_records grows_by_records_refl
    grows_by_records_trans) as Hloop.
  destruct (Hloop
    (λ s idx prompt run_num st' w' _,
       run_once_grows_by_records E max_retries model_name s _ prompt run_num st' w')
    (λ st' w', grows_by_records_same st' st' w' _ eq_refl eq_refl)
    (λ st' w', grows_by_records_same st' _ w' w' eq_refl eq_refl)
    (set_dataset_name dataset_filename <$> test_data) 0
    {| completed_runs := completed; processed_samples := 0;
       new_results_count := 0; resource_exhausted := false |} w
    (Forall_true _ _ (λ _, I))) as (appended & Hlines & Hnew & Hident).
  destruct (process_samples _ _ _ _ _ _ _ _ _ _ _) as [st1 w1].
  cbn in Hlines, Hnew.
  destruct (written_records_terminated _ _ _ Hterm Hlines) as [Hterm1 Hlines1].
  eexists _, appended. cbn [fst snd]. split; [reflexivity|]. cbn.
  split_and!; [done|done|lia|lia|done].
Qed.

Lemma ledger_is_append_only_witness :
  ∃ stats appended,
    (run_pilot_study Scenario.obliging 3 [Scenario.corn]
       [Scenario.sample_a; Scenario.sample_u] Scenario.template Scenario.flash
       "data.csv" 2 Scenario.stale).1 = Ret stats ∧
    terminated (ledger (run_pilot_study Scenario.obliging 3 [Scenario.corn]
                          [Scenario.sample_a; Scenario.sample_u] Scenario.template
                          Scenario.flash "data.csv" 2 Scenario.stale).2) = true ∧
    lines_of (ledger (run_pilot_study Scenario.obliging 3 [Scenario.corn]
                        [Scenario.sample_a; Scenario.sample_u] Scenario.template
                        Scenario.flash "data.csv" 2 Scenario.stale).2)
    = lines_of (ledger Scenario.stale) ++ (LJson ∘ PDict <$> appended) ∧
    stat_new_results_generated stats = Z.of_nat (length appended) ∧
    stat_total_completed stats
    = Z.of_nat (length (load_existing_results (ledger Scenario.stale)).1)
      + Z.of_nat (length appended) ∧
    Forall identified appended.
Proof.
  apply (ledger_is_append_only Scenario.obliging 3 [Scenario.corn]
           [Scenario.sample_a; Scenario.sample_u] Scenario.template Scenario.flash
           "data.csv" 2 Scenario.stale).
  - reflexivity.
  - intros k. reflexivity.
Defined.

Lemma spaced_app_sleep (pending : bool) (evs rest : list event) (seconds : pyval) :
  spaced pending (evs ++ EvSleep seconds :: rest) = spaced pending evs && spaced false rest.
Proof.
  revert pending. induction evs as [|ev evs IH]; intros pending; [done|].
  destruct ev; cbn; rewrite ?IH; [|done..]. by rewrite andb_assoc.
Qed.

Lemma spaced_app_quiet (pending : bool) (evs rest : list event) :
  requests_in rest = 0%nat →
  spaced pending (evs ++ rest) = spaced pending evs.
Proof.
  intros Hrest. revert pending. induction evs as [|ev evs IH]; intros pending.
  - cbn. revert pending. induction rest as [|ev rest IH]; intros pending; [done|].
    rewrite requests_in_cons in Hrest. destruct ev; cbn in *; [lia|by apply IH..].
  - destruct ev; cbn; by rewrite ?IH.
Qed.

Lemma spaced_app_settled (evs rest : list event) :
  settled evs →
  spaced false (evs ++ rest) = spaced false evs && spaced false rest.
Proof.
  intros [->|(evs' & seconds & ->)]; [done|].
  rewrite <- (assoc_L (++)). cbn [app]. rewrite !spaced_app_sleep. cbn.
  by rewrite andb_true_r.
Qed.

Lemma settled_app (evs rest : list event) :
  settled evs → settled rest → settled (evs ++ rest).
Proof.
  intros Hevs [->|(rest' & seconds & ->)]; [by rewrite app_nil_r|].
  right. exists (evs ++ rest'), seconds. by rewrite (assoc_L (++)).
Qed.

(** A larger completion set leaves fewer runs. *)
Lemma remaining_runs_mono (completed completed' : completion) (sample_id : string)
    (n_runs : Z) :
  completed ⊆ completed' →
  (length (remaining_runs completed' sample_id n_runs)
   ≤ length (remaining_runs completed sample_id n_runs))%nat.
Proof.
  intros Hsub. unfold remaining_runs.
  set (P := λ run_num : Z, KInt run_num ∉ sample_completed_runs completed sample_id).
  set (P' := λ run_num : Z, KInt run_num ∉ sample_completed_runs completed' sample_id).
  assert (Himpl : ∀ k, P' k → P k).
  { intros k Hk' Hk. apply Hk'.
    apply elem_of_sample_completed_runs, Hsub. by apply elem_of_sample_completed_runs. }
  induction (seqZ 1 n_runs) as [|k l IH]; [done|].
  destruct (decide (P' k)) as [Hk'|Hk'].
  - rewrite (filter_cons_True P') by done.
    rewrite (filter_cons_True P) by by apply Himpl.
    cbn [length]. lia.
  - rewrite (filter_cons_False P') by done.
    destruct (decide (P k)) as [Hk|Hk].
    + rewrite (filter_cons_True P) by done. cbn [length]. lia.
    + by rewrite (filter_cons_False P).
Qed.

Lemma outstanding_runs_mono (codebook : list codebook_row) (master_template : string)
    (n_runs : Z) (completed completed' : completion) (idx : Z) (samples : list sample) :
  completed ⊆ completed' →
  (outstanding_runs codebook master_template n_runs completed' idx samples
   ≤ outstanding_runs codebook master_template n_runs completed idx samples)%nat.
Proof.
  intros Hsub. revert idx. induction samples as [|s samples IH]; intros idx; [done|].
  cbn [outstanding_runs]. specialize (IH (idx + 1)).
  destruct (build_prompt_for_sample _ _ _); [|lia].
  pose proof (remaining_runs_mono completed completed'
                (default ("row_" +:+ pretty idx) (sample_id s)) n_runs Hsub).
  lia.
Qed.

Lemma outstanding_runs_le (codebook : list codebook_row) (master_template : string)
    (n_runs : Z) (completed : completion) (idx : Z) (samples : list sample) :
  (outstanding_runs codebook master_template n_runs completed idx samples
   ≤ length samples * Z.to_nat n_runs)%nat.
Proof.
  revert idx. induction samples as [|s samples IH]; intros idx; [done|].
  cbn [outstanding_runs length]. specialize (IH (idx + 1)).
  destruct (build_prompt_for_sample _ _ _); [|lia].
  pose proof (length_filter
    (λ run_num, KInt run_num
                ∉ sample_completed_runs completed
                    (default ("row_" +:+ pretty idx) (sample_id s)))
    (seqZ 1 n_runs)) as Hlen.
  rewrite length_seqZ in Hlen. unfold remaining_runs. lia.
Qed.

Lemma outstanding_runs_complete (codebook : list codebook_row) (master_template : string)
    (n_runs : Z) (completed : completion) (idx : Z) (samples : list sample) :
  (∀ (i : nat) (s : sample),
     samples !! i = Some s →
     is_Some (build_prompt_for_sample master_template s codebook) →
     ∀ k, 1 ≤ k ≤ n_runs →
       (KStr (default ("row_" +:+ pretty (idx + Z.of_nat i)) (sample_id s)), KInt k)
       ∈ completed) →
  outstanding_runs codebook master_template n_runs completed idx samples = 0%nat.
Proof.
  revert idx. induction samples as [|s samples IH]; intros idx Hall; [done|].
  cbn [outstanding_runs]. rewrite IH.
  - destruct (build_prompt_for_sample _ s _) as [prompt|] eqn:Hprompt; [|done].
    rewrite remaining_runs_nil; [done|].
    intros k Hk. specialize (Hall 0%nat s eq_refl (mk_is_Some _ _ Hprompt) k Hk).
    by rewrite Z.add_0_r in Hall.
  - intros i s' Hi Hs' k Hk.
    replace (idx + 1 + Z.of_nat i) with (idx + Z.of_nat (S i)) by lia.
    by apply (Hall (S i)).
Qed.

Lemma outstanding_runs_set_dataset_name (codebook : list codebook_row)
    (master_template dataset_filename : string) (n_runs : Z) (completed : completion)
    (idx : Z) (samples : list sample) :
  outstanding_runs codebook master_template n_runs completed idx
    (set_dataset_name dataset_filename <$> samples)
  = outstanding_runs codebook master_template n_runs completed idx samples.
Proof.
  revert idx. induction samples as [|s samples IH]; intros idx; [done|].
  cbn [fmap list_fmap outstanding_runs]. rewrite build_prompt_set_dataset_name.
  fold (fmap (M:=list) (set_dataset_name dataset_filename) samples).
  by rewrite IH.
Qed.

Section traces.

Context (E : env) (max_retries : Z).
Context (codebook : list codebook_row) (master_template model_name : string).
Context (rate_delay : float) (n_runs : Z).

(** [budget] bounds the requests of one call of the executor. *)
Context (budget : nat).
Hypothesis within_budget : ∀ prompt w,
  ∃ evs,
    trace (generate_content E max_retries prompt model_name w).2 = trace w ++ evs ∧
    spaced false evs = true ∧
    (requests_in evs ≤ budget)%nat.

Lemma try_run_trace (s : sample) (prompt : string) (run_num : Z) (w : world) :
  ∃ evs,
    trace (try_run E max_retries model_name s prompt run_num w).2 = trace w ++ evs ∧
    spaced false evs = true ∧
    (requests_in evs ≤ budget)%nat.
Proof.
  pose proof (within_budget prompt w) as Hevs.
  unfold try_run. by destruct (generate_content _ _ _ _ _).
Qed.

Lemma run_once_trace (s : sample) (sample_id prompt : string) (run_num : Z)
    (st : loop_state) (w : world) :
  ∃ evs,
    trace (run_once E max_retries model_name s sample_id prompt run_num st w).2
    = trace w ++ evs ∧
    spaced false evs = true ∧
    (requests_in evs ≤ budget)%nat ∧
    resource_exhausted
      (run_once E max_retries model_name s sample_id prompt run_num st w).1.2
    = (run_once E max_retries model_name s sample_id prompt run_num st w).1.1
      || resource_exhausted st ∧
    completed_runs st
    ⊆ completed_runs
        (run_once E max_retries model_name s sample_id prompt run_num st w).1.2.
Proof.
  destruct (run_once_cases E max_retries model_name s sample_id prompt run_num st w)
    as (tried & w1 & Htry & _ & ->). cbn zeta.
  destruct (try_run_trace s prompt run_num w) as (evs & Htrace & Hspaced & Hcount).
  rewrite Htry in Htrace. cbn in Htrace.
  assert (Hsaved : ∀ ok, spaced false (evs ++ [EvAppend ok]) = true ∧
                         (requests_in (evs ++ [EvAppend ok]) ≤ budget)%nat).
  { intros ok. rewrite spaced_app_quiet by done. rewrite requests_in_app.
    change (requests_in [EvAppend ok]) with 0%nat. split; [done|lia]. }
  destruct tried as [full_result|e].
  - exists (evs ++ [EvAppend (disk E (appends_tried w1))]).
    destruct (Hsaved (disk E (appends_tried w1))) as [H1 H2].
    cbn. rewrite Htrace, <- (assoc_L (++)). split_and!; [done..| |].
    + by destruct (disk E _).
    + destruct (disk E _); [|done]. cbn. intros p Hp. apply elem_of_union. by right.
  - destruct (is_quota_error e).
    + exists evs. done.
    + exists (evs ++ [EvAppend (disk E (appends_tried w1))]).
      destruct (Hsaved (disk E (appends_tried w1))) as [H1 H2].
      cbn. rewrite Htrace, <- (assoc_L (++)). split_and!; [done..| |].
      * by destruct (disk E _).
      * by destruct (disk E _).
Qed.

Lemma run_remaining_trace (s : sample) (sample_id prompt : string) (runs : list Z)
    (st : loop_state) (w : world) :
  resource_exhausted st = false →
  ∃ evs,
    trace (run_remaining E max_retries model_name rate_delay s sample_id prompt runs st w).2
    = trace w ++ evs ∧
    spaced false evs = true ∧
    (resource_exhausted
       (run_remaining E max_retries model_name rate_delay s sample_id prompt runs st w).1
     = false → settled evs) ∧
    (requests_in evs ≤ length runs * budget)%nat ∧
    completed_runs st
    ⊆ completed_runs
        (run_remaining E max_retries model_name rate_delay s sample_id prompt runs st w).1.
Proof.
  revert st w. induction runs as [|run_num runs IH]; intros st w Hst.
  { exists []. cbn. rewrite app_nil_r. split_and!; [done..|by left|lia|done]. }
  cbn [run_remaining]. rewrite Hst.
  destruct (run_once_trace s sample_id prompt run_num st w)
    as (evs & Htrace & Hspaced & Hcount & Hx & Hsub).
  destruct (run_once _ _ _ _ _ _ _ _ _) as [[stop st1] w1]. cbn in Htrace, Hx, Hsub.
  rewrite Hst, orb_false_r in Hx. destruct stop.
  - exists evs. cbn. split_and!; [done..|congruence|lia|done].
  - destruct (IH st1 (log (EvSleep (PFloat rate_delay)) w1) Hx)
      as (evs' & Htrace' & Hspaced' & Hsettled' & Hcount' & Hsub').
    exists (evs ++ EvSleep (PFloat rate_delay) :: evs').
    rewrite Htrace', trace_log, Htrace, <- !(assoc_L (++)). split_and!.
    + done.
    + by rewrite spaced_app_sleep, Hspaced, Hspaced'.
    + intros Hno. specialize (Hsettled' Hno).
      replace (evs ++ EvSleep (PFloat rate_delay) :: evs')
        with ((evs ++ [EvSleep (PFloat rate_delay)]) ++ evs')
        by by rewrite <- (assoc_L (++)).
      apply settled_app; [|done]. right. eauto.
    + rewrite requests_in_app, requests_in_cons. cbn [is_request length]. lia.
    + by etrans.
Qed.

Lemma process_samples_trace (samples : list sample) (idx : Z) (st : loop_state) (w : world) :
  resource_exhausted st = false →
  ∃ evs,
    trace (process_samples E max_retries codebook master_template model_name rate_delay
             n_runs idx samples st w).2 = trace w ++ evs ∧
    spaced false evs = true ∧
    (resource_exhausted
       (process_samples E max_retries codebook master_template model_name rate_delay
          n_runs idx samples st w).1 = false → settled evs) ∧
    (requests_in evs
     ≤ outstanding_runs codebook master_template n_runs (completed_runs st) idx samples
       * budget)%nat.
Proof.
  revert idx st w. induction samples as [|s samples IH]; intros idx st w Hst.
  { exists []. cbn. rewrite app_nil_r. split_and!; [done..|by left|lia]. }
  cbn [process_samples outstanding_runs].
  destruct (build_prompt_for_sample _ _ _) as [prompt|]; [|by apply IH].
  destruct (remaining_runs _ _ _) as [|run_num runs] eqn:Hruns.
  { destruct (IH (idx + 1) (count_processed st) w Hst) as (evs & H1 & H2 & H3 & H4).
    exists evs. cbn in H4. split_and!; [done..|]. cbn [length]. lia. }
  destruct (run_remaining_trace s (default ("row_" +:+ pretty idx) (sample_id s)) prompt
              (run_num :: runs) st w Hst)
    as (evs & Htrace & Hspaced & Hsettled & Hcount & Hsub).
  destruct (run_remaining _ _ _ _ _ _ _ _ _ _) as [st1 w1].
  cbn [fst snd] in Htrace, Hsettled, Hsub.
  destruct (resource_exhausted (count_processed st1)) eqn:Hx.
  - exists evs. cbn [fst snd]. split_and!; [done..|congruence|]. nia.
  - destruct (IH (idx + 1) (count_processed st1) w1 Hx)
      as (evs' & Htrace' & Hspaced' & Hsettled' & Hcount').
    pose proof (outstanding_runs_mono codebook master_template n_runs
                  (completed_runs st) (completed_runs st1) (idx + 1) samples Hsub) as Hmono.
    cbn [completed_runs count_processed] in Hcount'.
    exists (evs ++ evs').
    rewrite Htrace', Htrace, <- (assoc_L (++)). split_and!.
    + done.
    + rewrite spaced_app_settled by by apply Hsettled. by rewrite Hspaced, Hspaced'.
    + intros Hno. apply settled_app; [by apply Hsettled|by apply Hsettled'].
    + rewrite requests_in_app. nia.
Qed.

End traces.

Lemma generate_content_within_budget (E : env) (max_retries : Z) (model_name : string)
    (prompt : string) (w : world) :
  ∃ evs,
    trace (generate_content E max_retries prompt model_name w).2 = trace w ++ evs ∧
    spaced false evs = true ∧
    (requests_in evs ≤ Z.to_nat max_retries)%nat.
Proof.
  destruct (generate_content_trace E max_retries prompt model_name w)
    as (evs & H1 & H2 & H3 & _). eauto.
Qed.

Lemma generate_content_unregistered (E : env) (max_retries : Z) (model_name : string)
    (prompt : string) (w : world) :
  AVAILABLE_MODELS !! model_name = None →
  ∃ evs,
    trace (generate_content E max_retries prompt model_name w).2 = trace w ++ evs ∧
    spaced false evs = true ∧
    (requests_in evs ≤ 0)%nat.
Proof.
  intros Hn. exists []. unfold generate_content. rewrite Hn. cbn.
  by rewrite app_nil_r.
Qed.

Lemma run_pilot_study_trace (E : env) (max_retries : Z)
    (codebook : list codebook_row) (test_data : list sample) (master_template : string)
    (model_name dataset_filename : string) (n_runs : Z) (budget : nat) (w : world) :
  (∀ prompt w,
     ∃ evs,
       trace (generate_content E max_retries prompt model_name w).2 = trace w ++ evs ∧
       spaced false evs = true ∧
       (requests_in evs ≤ budget)%nat) →
  ∃ evs,
    trace (run_pilot_study E max_retries codebook test_data master_template model_name
             dataset_filename n_runs w).2 = trace w ++ evs ∧
    spaced false evs = true ∧
    (requests_in evs
     ≤ outstanding_runs codebook master_template n_runs
         (load_existing_results (ledger w)).2 0 test_data * budget)%nat.
Proof.
  intros Hbudget. unfold run_pilot_study.
  destruct (get_rate_limit_delay_returns model_name) as [rate_delay ->].
  destruct (load_existing_results (ledger w)) as [existing completed].
  case_bool_decide.
  { exists []. cbn. rewrite app_nil_r. split_and!; [done..|lia]. }
  destruct (process_samples_trace E max_retries codebook master_template model_name
              rate_delay n_runs budget Hbudget
              (set_dataset_name dataset_filename <$> test_data) 0
              {| completed_runs := completed; processed_samples := 0;
                 new_results_count := 0; resource_exhausted := false |} w eq_refl)
    as (evs & Htrace & Hspaced & _ & Hcount).
  destruct (process_samples _ _ _ _ _ _ _ _ _ _ _) as [st1 w1].
  exists evs. cbn [completed_runs] in Hcount.
  rewrite outstanding_runs_set_dataset_name in Hcount. done.
Qed.

Lemma requests_issued_app (w w' : world) (evs : list event) :
  trace w' = trace w ++ evs →
  requests_issued w' = (requests_issued w + requests_in evs)%nat.
Proof.
  intros Htrace. unfold requests_issued, requests_in.
  by rewrite Htrace, filter_app, length_app.
Qed.

(** X16. Within an invocation no two requests go out without a sleep between
    them, whatever the service and the disk do: the events that
    [run_pilot_study] adds to the trace keep the requests apart. *)
Theorem requests_are_paced (E : env) (max_retries : Z)
    (codebook : list codebook_row) (test_data : list sample) (master_template : string)
    (model_name dataset_filename : string) (n_runs : Z) (w : world) :
  ∃ evs,
    trace (run_pilot_study E max_retries codebook test_data master_template model_name
             dataset_filename n_runs w).2 = trace w ++ evs ∧
    spaced false evs = true.
Proof.
  destruct (run_pilot_study_trace E max_retries codebook test_data master_template
              model_name dataset_filename n_runs (Z.to_nat max_retries) w)
    as (evs & Htrace & Hspaced & _); [|by eauto].
  apply generate_content_within_budget.
Qed.

(** X17. What resuming costs. An invocation issues at most [max_retries]
    requests for each run that is outstanding when it starts: a run index of
    1..[n_runs], of a sample that is not skipped, whose pair is not in the
    completion set that the reader builds from the ledger. So it issues at
    most [max_retries] requests for each of the [n_runs] runs of each row of
    the test data; none when the ledger is readable and complete; and none
    for a model that is not registered. *)
Theorem batch_request_budget (E : env) (max_retries : Z)
    (codebook : list codebook_row) (test_data : list sample) (master_template : string)
    (model_name dataset_filename : string) (n_runs : Z) (w : world) :
  let w' := (run_pilot_study E max_retries codebook test_data master_template model_name
               dataset_filename n_runs w).2 in
  let outstanding :=
    outstanding_runs codebook master_template n_runs
      (load_existing_results (ledger w)).2 0 test_data in
  (requests_issued w' ≤ requests_issued w + outstanding * Z.to_nat max_retries)%nat ∧
  (outstanding ≤ length test_data * Z.to_nat n_runs)%nat ∧
  (readable (ledger w) = true →
   complete codebook master_template test_data n_runs (ledger w) →
   outstanding = 0%nat) ∧
  (AVAILABLE_MODELS !! model_name = None → requests_issued w' = requests_issued w).
Proof.
  cbn zeta. split_and!.
  - destruct (run_pilot_study_trace E max_retries codebook test_data master_template
                model_name dataset_filename n_runs (Z.to_nat max_retries) w)
      as (evs & Htrace & _ & Hcount); [apply generate_content_within_budget|].
    rewrite (requests_issued_app _ _ _ Htrace). lia.
  - apply outstanding_runs_le.
  - intros Hread Hcomplete. apply outstanding_runs_complete.
    intros i s Hi Hs k Hk. rewrite load_existing_results_file, Hread. cbn [snd].
    apply has_success_record_lines. rewrite Z.add_0_l. by apply (Hcomplete i s).
  - intros Hn.
    destruct (run_pilot_study_trace E max_retries codebook test_data master_template
                model_name dataset_filename n_runs 0 w)
      as (evs & Htrace & _ & Hcount);
      [intros prompt w0; by apply generate_content_unregistered|].
    rewrite (requests_issued_app _ _ _ Htrace). lia.
Qed.

(** ** Finishing the batch *)

Lemma obliging_payloads (E : env) : obliging_service E → payload_keeps_identity E.
Proof.
  intros [Hserv _] k text d Hk Hd.
  destruct (Hserv k) as (text0 & d0 & Hk0 & _ & Hd0 & Hkeys).
  rewrite Hk in Hk0. injection Hk0 as <-. rewrite Hd in Hd0. by injection Hd0 as <-.
Qed.

Lemma length_filter_matched_fmap (codebook : list codebook_row) (dataset_filename : string)
    (samples : list sample) :
  length (filter (λ s, matched codebook s = true)
            (set_dataset_name dataset_filename <$> samples))
  = length (filter (λ s, matched codebook s = true) samples).
Proof.
  induction samples as [|s samples IH]; [done|]. cbn [fmap list_fmap].
  destruct (matched codebook s) eqn:Hm.
  - rewrite !filter_cons_True by done. cbn [length]. by f_equal.
  - rewrite !filter_cons_False; [done|by rewrite Hm|].
    change (matched codebook s ≠ true). by rewrite Hm.
Qed.

Section obliging.

Context (E : env) (max_retries : Z).
Context (codebook : list codebook_row) (master_template model_name : string).
Context (rate_delay : float) (n_runs : Z).
Hypothesis good : obliging_service E.
Hypothesis registered : is_Some (AVAILABLE_MODELS !! model_name).
Hypothesis one_attempt : 1 ≤ max_retries.

Lemma generate_content_obliging (prompt : string) (w : world) :
  ∃ text d,
    generate_content E max_retries prompt model_name w
    = (Ret (Some text), log (EvRequest model_name prompt) w) ∧
    extract_json_from_response E (Some text) = Ret (PDict d).
Proof.
  destruct good as [Hserv _].
  destruct (Hserv (requests_issued w)) as (text & d & Hk & Ht & Hd & _).
  exists text, d. split; [|done].
  rewrite generate_content_registered by done.
  rewrite seqZ_cons by lia.
  pose proof (attempt_loop_step E max_retries prompt model_name 0
                (seqZ (Z.succ 0) (Z.pred max_retries)) w) as Hstep.
  cbn zeta in Hstep. unfold attempt_failure in Hstep. rewrite Hk, Ht in Hstep.
  by destruct Hstep as (text' & [= <-] & _ & ->).
Qed.

Lemma run_once_obliging (s : sample) (sample_id prompt : string) (run_num : Z)
    (st : loop_state) (w : world) :
  ∃ w', run_once E max_retries model_name s sample_id prompt run_num st w
        = (false, mark_completed (KStr sample_id, KInt run_num) st, w').
Proof.
  destruct (generate_content_obliging prompt w) as (text & d & Hgen & Hd).
  destruct good as [_ Hdisk].
  unfold run_once, try_run. rewrite Hgen. cbn [mbind outcome_bind]. rewrite Hd.
  cbn [mbind outcome_bind add_metadata_to_result].
  unfold save_result_to_jsonl. rewrite Hdisk. eauto.
Qed.

Lemma run_remaining_obliging (s : sample) (sample_id prompt : string) (runs : list Z)
    (st : loop_state) (w : world) :
  resource_exhausted st = false →
  let st' := (run_remaining E max_retries model_name rate_delay s sample_id prompt
                runs st w).1 in
  resource_exhausted st' = false ∧
  processed_samples st' = processed_samples st ∧
  completed_runs st ⊆ completed_runs st' ∧
  ∀ k, k ∈ runs → (KStr sample_id, KInt k) ∈ completed_runs st'.
Proof.
  revert st w. induction runs as [|run_num runs IH]; intros st w Hst.
  { cbn. split_and!; [done..|]. by intros k ?%elem_of_nil. }
  cbn zeta. cbn [run_remaining]. rewrite Hst.
  destruct (run_once_obliging s sample_id prompt run_num st w) as [w1 ->].
  destruct (IH (mark_completed (KStr sample_id, KInt run_num) st)
              (log (EvSleep (PFloat rate_delay)) w1) Hst) as (I1 & I2 & I3 & I4).
  cbn in I2, I3. split_and!; [done..| |].
  - intros p Hp. apply I3, elem_of_union. by right.
  - intros k [->|Hk]%elem_of_cons; [|by apply I4].
    apply I3, elem_of_union. left. by apply elem_of_singleton.
Qed.

Lemma process_samples_obliging (samples : list sample) (idx : Z)
    (st : loop_state) (w : world) :
  resource_exhausted st = false →
  let st' := (process_samples E max_retries codebook master_template model_name
                rate_delay n_runs idx samples st w).1 in
  resource_exhausted st' = false ∧
  processed_samples st'
  = processed_samples st
    + Z.of_nat (length (filter (λ s, matched codebook s = true) samples)) ∧
  completed_runs st ⊆ completed_runs st' ∧
  ∀ (i : nat) (s : sample),
    samples !! i = Some s →
    is_Some (build_prompt_for_sample master_template s codebook) →
    ∀ k, 1 ≤ k ≤ n_runs →
      (KStr (default ("row_" +:+ pretty (idx + Z.of_nat i)) (sample_id s)), KInt k)
      ∈ completed_runs st'.
Proof.
  revert idx st w. induction samples as [|s samples IH]; intros idx st w Hst.
  { cbn. split_and!; [done|lia|done|]. by intros i s ?. }
  cbn zeta. cbn [process_samples].
  assert (Hhead : ∀ st1 w1,
    resource_exhausted st1 = false →
    processed_samples st1
    = processed_samples st + (if matched codebook s then 1 else 0) →
    completed_runs st ⊆ completed_runs st1 →
    (is_Some (build_prompt_for_sample master_template s codebook) →
     ∀ k, 1 ≤ k ≤ n_runs →
       (KStr (default ("row_" +:+ pretty idx) (sample_id s)), KInt k)
       ∈ completed_runs st1) →
    let st' := (process_samples E max_retries codebook master_template model_name
                  rate_delay n_runs (idx + 1) samples st1 w1).1 in
    resource_exhausted st' = false ∧
    processed_samples st'
    = processed_samples st
      + Z.of_nat (length (filter (λ s, matched codebook s = true) (s :: samples))) ∧
    completed_runs st ⊆ completed_runs st' ∧
    ∀ (i : nat) (s' : sample),
      (s :: samples) !! i = Some s' →
      is_Some (build_prompt_for_sample master_template s' codebook) →
      ∀ k, 1 ≤ k ≤ n_runs →
        (KStr (default ("row_" +:+ pretty (idx + Z.of_nat i)) (sample_id s')), KInt k)
        ∈ completed_runs st').
  { intros st1 w1 Hx Hcount Hsub Hpairs. cbn zeta.
    destruct (IH (idx + 1) st1 w1 Hx) as (I1 & I2 & I3 & I4).
    split_and!.
    - done.
    - rewrite I2, Hcount. destruct (matched codebook s) eqn:Hm.
      + rewrite filter_cons_True by done. cbn [length]. lia.
      + rewrite filter_cons_False by (by rewrite Hm). lia.
    - intros p Hp. by apply I3, Hsub.
    - intros [|i] s' Hi Hs' k Hk.
      + injection Hi as <-. rewrite Z.add_0_r. apply I3. by apply Hpairs.
      + replace (idx + Z.of_nat (S i)) with (idx + 1 + Z.of_nat i) by lia.
        by apply (I4 i s'). }
  destruct (build_prompt_for_sample master_template s codebook) as [prompt|] eqn:Hprompt.
  - assert (matched codebook s = true) as Hm
      by (apply (build_prompt_matched master_template); rewrite Hprompt; eauto).
    destruct (remaining_runs _ _ _) as [|run_num runs] eqn:Hruns.
    + apply Hhead; [done|cbn; by rewrite Hm|done|].
      intros _ k Hk.
      destruct (decide ((KStr (default ("row_" +:+ pretty idx) (sample_id s)), KInt k)
                        ∈ completed_runs st)) as [|Hnot]; [done|].
      assert (k ∈ remaining_runs (completed_runs st)
                    (default ("row_" +:+ pretty idx) (sample_id s)) n_runs) as Hin
        by by apply elem_of_remaining_runs.
      rewrite Hruns in Hin. by apply elem_of_nil in Hin.
    + destruct (run_remaining_obliging s (default ("row_" +:+ pretty idx) (sample_id s))
                  prompt (run_num :: runs) st w Hst) as (R1 & R2 & R3 & R4).
      destruct (run_remaining _ _ _ _ _ _ _ _ _ _) as [st1 w1]. cbn in R1, R2, R3, R4.
      change (resource_exhausted (count_processed st1)) with (resource_exhausted st1).
      rewrite R1. apply Hhead; [done|cbn; rewrite Hm; lia|done|].
      intros _ k Hk.
      destruct (decide ((KStr (default ("row_" +:+ pretty idx) (sample_id s)), KInt k)
                        ∈ completed_runs st)) as [|Hnot]; [by apply R3|].
      apply R4. rewrite <- Hruns. by apply elem_of_remaining_runs.
  - assert (matched codebook s = false) as Hm.
    { destruct (matched codebook s) eqn:Hm; [|done].
      apply (build_prompt_matched master_template) in Hm. rewrite Hprompt in Hm.
      by destruct Hm. }
    apply Hhead; [done|rewrite Hm; lia|done|]. by intros [? ?].
Qed.

End obliging.

(** X18. One invocation against a service at its best finishes the batch.
    When every request is answered with a text from which an object is
    extracted that leaves [success], [sample_id] and [run_number] alone, every
    write goes through, the ledger ends in a line end, the model is
    registered, at least one attempt is allowed, the samples carry a sample
    id, and the invocation does not leave
    at once (the completion set has not as many pairs as runs are expected),
    then it returns, the ledger it leaves behind is complete (a success
    record for every run index 1..N of every sample that is not skipped), and
    the samples it reports as processed are the matched ones. *)
Theorem obliging_service_completes (E : env) (max_retries : Z)
    (codebook : list codebook_row) (test_data : list sample) (master_template : string)
    (model_name dataset_filename : string) (n_runs : Z) (w : world) :
  obliging_service E →
  terminated (ledger w) = true →
  is_Some (AVAILABLE_MODELS !! model_name) →
  1 ≤ max_retries →
  Forall (λ s, is_Some (sample_id s)) test_data →
  Z.of_nat (size (load_existing_results (ledger w)).2)
  ≠ total_expected_runs test_data n_runs →
  ∃ stats w',
    run_pilot_study E max_retries codebook test_data master_template model_name
      dataset_filename n_runs w = (Ret stats, w') ∧
    complete codebook master_template test_data n_runs (ledger w') ∧
    stat_processed_samples stats
    = Z.of_nat (length (filter (λ s, matched codebook s = true) test_data)).
Proof.
  intros Hgood Hterm Hreg Hr Hids Hsize. unfold run_pilot_study.
  destruct (get_rate_limit_delay_returns model_name) as [rate_delay ->].
  destruct (load_existing_results (ledger w)) as [existing completed] eqn:Hload.
  cbn [snd] in Hsize.
  assert (total_expected_runs (set_dataset_name dataset_filename <$> test_data) n_runs
          = total_expected_runs test_data n_runs) as ->
    by (unfold total_expected_runs; by rewrite length_fmap).
  rewrite bool_decide_eq_false_2 by done.
  set (st0 := {| completed_runs := completed; processed_samples := 0;
                 new_results_count := 0; resource_exhausted := false |}).
  pose proof (process_samples_obliging E max_retries codebook master_template model_name
                rate_delay n_runs Hgood Hreg Hr
                (set_dataset_name dataset_filename <$> test_data) 0 st0 w eq_refl)
    as (P1 & P2 & P3 & P4).
  assert (Forall (λ s, is_Some (sample_id s))
            (set_dataset_name dataset_filename <$> test_data)) as Hids'.
  { apply Forall_fmap. by eapply Forall_impl; [exact Hids|]. }
  pose proof (process_samples_extends_backed E max_retries codebook master_template
                model_name rate_delay n_runs (obliging_payloads E Hgood)
                (set_dataset_name dataset_filename <$> test_data) 0 st0 w Hids')
    as Hback.
  destruct (process_samples _ _ _ _ _ _ _ _ _ _ _) as [st1 w1].
  destruct (Hback Hterm) as (_ & [appended Hext] & Hnew).
  cbn [fst snd] in *.
  eexists _, _. split; [reflexivity|]. split.
  - intros i s Hi Hs k Hk.
    assert ((set_dataset_name dataset_filename <$> test_data) !! i
            = Some (set_dataset_name dataset_filename s)) as Hi'
      by by rewrite list_lookup_fmap, Hi.
    specialize (P4 i _ Hi' Hs k Hk). rewrite Z.add_0_l in P4. cbn [sample_id] in P4.
    destruct (Hnew _ P4) as [Hold|Hrec]; [|done].
    eapply has_success_record_mono; [exact Hext|].
    apply loaded_completion_backed. by rewrite Hload.
  - cbn [stat_processed_samples]. rewrite P2, length_filter_matched_fmap. cbn. lia.
Qed.

Lemma obliging_service_completes_witness :
  ∃ stats w',
    run_pilot_study Scenario.obliging 3 [Scenario.corn]
      [Scenario.sample_a; Scenario.sample_u] Scenario.template Scenario.flash
      "pilot.csv" 2 Scenario.fresh = (Ret stats, w') ∧
    complete [Scenario.corn] Scenario.template [Scenario.sample_a; Scenario.sample_u] 2
      (ledger w') ∧
    stat_processed_samples stats
    = Z.of_nat (length (filter (λ s, matched [Scenario.corn] s = true)
                          [Scenario.sample_a; Scenario.sample_u])).
Proof.
  apply (obliging_service_completes Scenario.obliging 3 [Scenario.corn]
           [Scenario.sample_a; Scenario.sample_u] Scenario.template Scenario.flash
           "pilot.csv" 2 Scenario.fresh).
  - split; [|done]. intros k. exists "{}", ∅. split_and!; reflexivity.
  - reflexivity.
  - eexists. reflexivity.
  - lia.
  - repeat constructor; eexists; reflexivity.
  - by vm_compute.
Defined.


(** X19. The invocation leaves at once on a count: when the completion set
    that the reader builds has exactly as many pairs as there are rows of test
    data times runs, [run_pilot_study] returns without a request, a sleep or
    an append, whatever the pairs are, and reports every row of the test data
    as processed, new results none. *)
Theorem early_exit_on_pair_count (E : env) (max_retries : Z)
    (codebook : list codebook_row) (test_data : list sample) (master_template : string)
    (model_name dataset_filename : string) (n_runs : Z) (w : world) :
  Z.of_nat (size (load_existing_results (ledger w)).2)
  = total_expected_runs test_data n_runs →
  run_pilot_study E max_retries codebook test_data master_template model_name
    dataset_filename n_runs w
  = (Ret {| stat_processed_samples := Z.of_nat (length test_data);
            stat_total_completed := Z.of_nat (length (load_existing_results (ledger w)).1);
            stat_new_results_generated := 0;
            stat_success_rate := calculate_success_rate (ledger w) |}, w).
Proof.
  intros Hsize. unfold run_pilot_study.
  destruct (get_rate_limit_delay_returns model_name) as [rate_delay ->].
  destruct (load_existing_results (ledger w)) as [existing completed].
  cbn [fst snd] in *. unfold total_expected_runs in *. rewrite length_fmap.
  by rewrite bool_decide_eq_true_2.
Qed.

Lemma early_exit_on_pair_count_witness :
  ¬ has_success_record (ledger Scenario.stale) (KStr "id-a", KInt 1) ∧
  run_pilot_study Scenario.obliging 3 [Scenario.corn] [Scenario.sample_a]
    Scenario.template Scenario.flash "pilot.csv" 1 Scenario.stale
  = (Ret {| stat_processed_samples := Z.of_nat (length [Scenario.sample_a]);
            stat_total_completed
              := Z.of_nat (length (load_existing_results (ledger Scenario.stale)).1);
            stat_new_results_generated := 0;
            stat_success_rate := calculate_success_rate (ledger Scenario.stale) |},
     Scenario.stale).
Proof.
  split.
  - rewrite has_success_record_lines. apply (bool_decide_unpack _). by vm_compute.
  - apply (early_exit_on_pair_count Scenario.obliging 3 [Scenario.corn]
             [Scenario.sample_a] Scenario.template Scenario.flash "pilot.csv" 1
             Scenario.stale).
    by vm_compute.
Defined.

(** ** The completion set and a reload *)

Lemma in_step_refl (x : loop_state * world) : in_step_with_ledger x x.
Proof. intros Hterm. split_and!; [done..|]. intros p Hp. by left. Qed.

Lemma in_step_trans (x y z : loop_state * world) :
  in_step_with_ledger x y → in_step_with_ledger y z → in_step_with_ledger x z.
Proof.
  intros Hxy Hyz Hterm.
  destruct (Hxy Hterm) as (T1 & R1 & S1 & H1).
  destruct (Hyz T1) as (T2 & R2 & S2 & H2). split_and!.
  - done.
  - intros Hx. by apply R2, R1.
  - by etrans.
  - intros p Hp. destruct (H2 p Hp) as [Hy|Hz]; [|by right].
    destruct (H1 p Hy) as [Hx|Hy']; [by left|right]. by apply S2.
Qed.

Lemma in_step_same (st st' : loop_state) (w w' : world) :
  completed_runs st' = completed_runs st →
  ledger w' = ledger w →
  in_step_with_ledger (st, w) (st', w').
Proof.
  intros Hc Hl Hterm. split_and!; cbn in *.
  - by rewrite Hl.
  - by rewrite Hl.
  - by rewrite Hc.
  - intros p Hp. left. by rewrite <- Hl.
Qed.

Section in_step.

Context (E : env) (max_retries : Z).
Context (codebook : list codebook_row) (master_template model_name : string).
Context (rate_delay : float) (n_runs : Z).
Hypothesis payloads : payload_keeps_identity E.

Lemma run_once_in_step (s : sample) (idx : Z) (prompt : string) (run_num : Z)
    (st : loop_state) (w : world) :
  is_Some (sample_id s) →
  in_step_with_ledger (st, w)
    (let '(_, st', w') :=
       run_once E max_retries model_name s
         (default ("row_" +:+ pretty idx) (sample_id s)) prompt run_num st w in
     (st', w')).
Proof.
  intros [sid Hsid]. rewrite Hsid. cbn [default from_option id].
  destruct (run_once_cases E max_retries model_name s sid prompt run_num st w)
    as (tried & w1 & Htry & Hl & ->). cbn zeta.
  destruct tried as [full_result|e].
  - destruct (disk E _); [|by apply in_step_same].
    apply try_run_ret in Htry as (k & text & d & Hk & Hd & ->).
    destruct (payloads k text d Hk Hd) as (H1 & H2 & H3).
    destruct (success_record_line (now E (length (trace w1))) d s run_num model_name
                (stopwatch E (length (trace w1))) H1 H2 H3) as [Hok Hpair].
    rewrite Hsid in Hpair. cbn [default from_option id] in Hpair.
    change (default [] (ledger w)) with (written (ledger w)).
    intros Hterm. cbn [fst snd ledger completed_runs mark_completed] in *.
    split_and!.
    + by apply terminated_snoc.
    + intros Hread. by rewrite readable_snoc, Hread, Hok.
    + intros p Hp. apply elem_of_union. by right.
    + intros p [Hp|Hp]%has_success_record_snoc; [by left|right|done..].
      rewrite Hpair in Hp. injection Hp as <-.
      apply elem_of_union. left. by apply elem_of_singleton.
  - destruct (is_quota_error e); [by apply in_step_same|].
    destruct (error_record_line (now E (length (trace w1))) s e run_num model_name)
      as [Hok Hpair].
    destruct (disk E _); [|by apply in_step_same].
    change (default [] (ledger w)) with (written (ledger w)).
    intros Hterm. cbn [fst snd ledger completed_runs count_new_result] in *.
    split_and!.
    + by apply terminated_snoc.
    + intros Hread. by rewrite readable_snoc, Hread, Hok.
    + done.
    + intros p [Hp|Hp]%has_success_record_snoc; [by left| |done..]. congruence.
Qed.

Lemma process_samples_in_step (samples : list sample) (idx : Z)
    (st : loop_state) (w : world) :
  Forall (λ s, is_Some (sample_id s)) samples →
  in_step_with_ledger (st, w)
    (process_samples E max_retries codebook master_template model_name rate_delay
       n_runs idx samples st w).
Proof.
  apply (process_samples_relation E max_retries codebook master_template model_name
           rate_delay n_runs (λ s, is_Some (sample_id s)) in_step_with_ledger).
  - apply in_step_refl.
  - apply in_step_trans.
  - intros s idx' prompt run_num st' w'. apply run_once_in_step.
  - intros st' w'. by apply in_step_same.
  - intros st' w'. by apply in_step_same.
Qed.

End in_step.

(** X20. The completion set in memory is what a reload would give. When no
    payload of the service defines [success], [sample_id] or [run_number], the
    samples carry a sample id, the ledger is readable and ends in a line end
    at the start, and every append goes through, then at the end of the loop
    (started from the set that the reader built) the ledger ends in a line end
    and is readable again, the completion set in memory is exactly the set
    that [load_existing_results] builds from the ledger as it then is, and it
    contains the set the loop started from. *)
Theorem completion_set_is_what_a_reload_gives (E : env) (max_retries : Z)
    (codebook : list codebook_row) (master_template model_name : string)
    (rate_delay : float) (n_runs : Z) (test_data : list sample)
    (w w' : world) (st' : loop_state) :
  payload_keeps_identity E →
  Forall (λ s, is_Some (sample_id s)) test_data →
  terminated (ledger w) = true →
  appends_succeed E →
  readable (ledger w) = true →
  process_samples E max_retries codebook master_template model_name rate_delay n_runs
    0 test_data
    {| completed_runs := (load_existing_results (ledger w)).2;
       processed_samples := 0; new_results_count := 0;
       resource_exhausted := false |} w = (st', w') →
  terminated (ledger w') = true ∧
  readable (ledger w') = true ∧
  completed_runs st' = (load_existing_results (ledger w')).2 ∧
  (load_existing_results (ledger w)).2 ⊆ completed_runs st'.
Proof.
  intros Hpayloads Hids Hterm _ Hread Hrun.
  pose proof (process_samples_in_step E max_retries codebook master_template model_name
    rate_delay n_runs Hpayloads test_data 0
    {| completed_runs := (load_existing_results (ledger w)).2;
       processed_samples := 0; new_results_count := 0;
       resource_exhausted := false |} w Hids) as Hstep.
  pose proof (process_samples_extends_backed E max_retries codebook master_template
    model_name rate_delay n_runs Hpayloads test_data 0
    {| completed_runs := (load_existing_results (ledger w)).2;
       processed_samples := 0; new_results_count := 0;
       resource_exhausted := false |} w Hids) as Hbacked.
  rewrite Hrun in Hstep, Hbacked.
  destruct (Hstep Hterm) as (Hterm' & Hr & Hsub & Hnew).
  destruct (Hbacked Hterm) as (_ & [appended Hext] & Hback).
  cbn [fst snd completed_runs] in *.
  specialize (Hr Hread). split_and!; [done|done| |done].
  rewrite (load_existing_results_file (ledger w')), Hr. cbn [snd].
  apply set_eq. intros p. rewrite <- has_success_record_lines. split.
  - intros Hp. destruct (Hback p Hp) as [Hold|Hrec]; [|done].
    eapply has_success_record_mono; [exact Hext|]. by apply loaded_completion_backed.
  - intros Hp. destruct (Hnew p Hp) as [Hold|Hin]; [|done].
    apply Hsub. rewrite load_existing_results_file, Hread. cbn [snd].
    by apply has_success_record_lines.
Qed.

Lemma completion_set_is_what_a_reload_gives_witness :
  terminated
    (ledger (process_samples Scenario.obliging 3 [Scenario.corn] Scenario.template
               Scenario.flash 4.4%float 2 0 [Scenario.sample_a; Scenario.sample_u]
               {| completed_runs := (load_existing_results (ledger Scenario.fresh)).2;
                  processed_samples := 0; new_results_count := 0;
                  resource_exhausted := false |} Scenario.fresh).2) = true ∧
  readable
    (ledger (process_samples Scenario.obliging 3 [Scenario.corn] Scenario.template
               Scenario.flash 4.4%float 2 0 [Scenario.sample_a; Scenario.sample_u]
               {| completed_runs := (load_existing_results (ledger Scenario.fresh)).2;
                  processed_samples := 0; new_results_count := 0;
                  resource_exhausted := false |} Scenario.fresh).2) = true ∧
  completed_runs
    (process_samples Scenario.obliging 3 [Scenario.corn] Scenario.template
       Scenario.flash 4.4%float 2 0 [Scenario.sample_a; Scenario.sample_u]
       {| completed_runs := (load_existing_results (ledger Scenario.fresh)).2;
          processed_samples := 0; new_results_count := 0;
          resource_exhausted := false |} Scenario.fresh).1
  = (load_existing_results
       (ledger (process_samples Scenario.obliging 3 [Scenario.corn] Scenario.template
                  Scenario.flash 4.4%float 2 0 [Scenario.sample_a; Scenario.sample_u]
                  {| completed_runs := (load_existing_results (ledger Scenario.fresh)).2;
                     processed_samples := 0; new_results_count := 0;
                     resource_exhausted := false |} Scenario.fresh).2)).2 ∧
  (load_existing_results (ledger Scenario.fresh)).2
  ⊆ completed_runs
      (process_samples Scenario.obliging 3 [Scenario.corn] Scenario.template
         Scenario.flash 4.4%float 2 0 [Scenario.sample_a; Scenario.sample_u]
         {| completed_runs := (load_existing_results (ledger Scenario.fresh)).2;
            processed_samples := 0; new_results_count := 0;
            resource_exhausted := false |} Scenario.fresh).1.
Proof.
  apply (completion_set_is_what_a_reload_gives Scenario.obliging 3 [Scenario.corn]
           Scenario.template Scenario.flash 4.4%float 2
           [Scenario.sample_a; Scenario.sample_u] Scenario.fresh).
  - intros k text d [= <-] Hd. vm_compute in Hd. injection Hd as <-. done.
  - repeat constructor; eexists; reflexivity.
  - reflexivity.
  - intros k. reflexivity.
  - reflexivity.
  - apply surjective_pairing.
Defined.

(** ** The delays of the executor *)

Lemma sleeps_of_cons (ev : event) (evs : list event) :
  sleeps_of (ev :: evs)
  = match ev with
    | EvSleep seconds => seconds :: sleeps_of evs
    | _ => sleeps_of evs
    end.
Proof. by destruct ev. Qed.

(** A suggested wait that [int()] or [time.sleep()] turns down: the handler
    raises what they raise. *)
Lemma handle_failure_rejected (E : env) (max_retries : Z) (model_name : string)
    (attempt : Z) (e e' : exn) (group : Z * nat) :
  is_rate_limit_error (exn_msg e) = true →
  retry_delay_search (exn_msg e) = Some group →
  (py_int E group = Raise e' ∨
   ∃ suggested_delay,
     py_int E group = Ret suggested_delay ∧ sleep_error E suggested_delay = Some e') →
  handle_failure E max_retries model_name attempt e = Raise e'.
Proof.
  intros Hrate Hgroup Hno. unfold handle_failure. rewrite Hrate, Hgroup.
  destruct Hno as [->|(d & -> & Hsleep)]; [done|].
  cbn [mbind outcome_bind]. unfold sleep_int. by rewrite Hsleep.
Qed.

Section retry_delays.

Context (E : env) (max_retries : Z) (prompt model_name : string).

(** After a failure that is not of the rate-limit class, before the last
    attempt: the loop sleeps [DEFAULT_RETRY_DELAY * (attempt + 1)] seconds,
    when [time.sleep()] takes them. *)
Lemma attempt_loop_plain_failure (attempt : Z) (rest : list Z) (w : world) (e : exn) :
  attempt_failure (service E (requests_issued w)) = Some e →
  is_rate_limit_error (exn_msg e) = false →
  attempt_loop E max_retries prompt model_name (attempt :: rest) w
  = if attempt <? max_retries - 1
    then match sleep_error E (DEFAULT_RETRY_DELAY * (attempt + 1)) with
         | None =>
             attempt_loop E max_retries prompt model_name rest
               (log (EvSleep (PInt (DEFAULT_RETRY_DELAY * (attempt + 1))))
                  (log (EvRequest model_name prompt) w))
         | Some e' => (Raise e', log (EvRequest model_name prompt) w)
         end
    else (Raise e, log (EvRequest model_name prompt) w).
Proof.
  intros He Hrate.
  pose proof (attempt_loop_step E max_retries prompt model_name attempt rest w) as Hstep.
  cbn zeta in Hstep. rewrite He in Hstep.
  rewrite Hstep, handle_failure_plain by done.
  destruct (_ <? _); [|done]. unfold sleep_int. by destruct (sleep_error E _).
Qed.

(** After a failure of the rate-limit class, at any attempt: the loop sleeps
    the delay that the message suggests, or else the governor's. *)
Lemma attempt_loop_rate_limit_failure (attempt : Z) (rest : list Z) (w : world)
    (e : exn) (rate_delay : float) :
  get_rate_limit_delay model_name = Ret rate_delay →
  attempt_failure (service E (requests_issued w)) = Some e →
  is_rate_limit_error (exn_msg e) = true →
  delay_accepted E e →
  attempt_loop E max_retries prompt model_name (attempt :: rest) w
  = attempt_loop E max_retries prompt model_name rest
      (log (EvSleep (rate_limit_wait rate_delay e))
         (log (EvRequest model_name prompt) w)).
Proof.
  intros Hdelay He Hrate Hacc.
  pose proof (attempt_loop_step E max_retries prompt model_name attempt rest w) as Hstep.
  cbn zeta in Hstep. rewrite He in Hstep.
  by rewrite Hstep, (handle_failure_rate_limit _ _ _ _ _ rate_delay).
Qed.

Lemma attempt_loop_plain_failures (n : nat) (a : Z) (w : world) :
  (∀ k, ∃ e, attempt_failure (service E k) = Some e ∧
             is_rate_limit_error (exn_msg e) = false) →
  (∀ attempt, 0 ≤ attempt < max_retries - 1 →
     sleep_error E (DEFAULT_RETRY_DELAY * (attempt + 1)) = None) →
  0 ≤ a →
  a + Z.of_nat (S n) = max_retries →
  ∃ evs,
    trace (attempt_loop E max_retries prompt model_name (seqZ a (Z.of_nat (S n))) w).2
    = trace w ++ evs ∧
    sleeps_of evs = (λ attempt, PInt (DEFAULT_RETRY_DELAY * (attempt + 1)))
                    <$> seqZ a (Z.of_nat n).
Proof.
  intros Hplain Hsleep. revert a w. induction n as [|n IH]; intros a w Ha0 Ha.
  - destruct (Hplain (requests_issued w)) as (e & He & Hrate).
    change (seqZ a (Z.of_nat 1)) with [0 + a]. rewrite Z.add_0_l.
    rewrite (attempt_loop_plain_failure a [] w e He Hrate).
    replace (a <? max_retries - 1) with false by lia.
    by exists [EvRequest model_name prompt].
  - destruct (Hplain (requests_issued w)) as (e & He & Hrate).
    rewrite seqZ_cons by lia.
    replace (Z.pred (Z.of_nat (S (S n)))) with (Z.of_nat (S n)) by lia.
    rewrite (attempt_loop_plain_failure a _ w e He Hrate).
    replace (a <? max_retries - 1) with true by lia.
    rewrite Hsleep by lia.
    destruct (IH (Z.succ a)
                (log (EvSleep (PInt (DEFAULT_RETRY_DELAY * (a + 1))))
                   (log (EvRequest model_name prompt) w))) as (evs & Htrace & Hsleeps);
      [lia|lia|].
    exists (EvRequest model_name prompt
            :: EvSleep (PInt (DEFAULT_RETRY_DELAY * (a + 1))) :: evs).
    rewrite Htrace. cbn [log trace]. rewrite <- !(assoc_L (++)). split; [done|].
    rewrite !sleeps_of_cons, Hsleeps.
    rewrite (seqZ_cons a (Z.of_nat (S n))) by lia.
    replace (Z.pred (Z.of_nat (S n))) with (Z.of_nat n) by lia. done.
Qed.

Lemma attempt_loop_rate_limited (attempts : list Z) (w : world) (rate_delay : float) :
  get_rate_limit_delay model_name = Ret rate_delay →
  (∀ k, ∃ e, attempt_failure (service E k) = Some e ∧
             is_rate_limit_error (exn_msg e) = true ∧ delay_accepted E e) →
  ∃ evs,
    (attempt_loop E max_retries prompt model_name attempts w).1 = Ret None ∧
    trace (attempt_loop E max_retries prompt model_name attempts w).2 = trace w ++ evs ∧
    sleeps_of evs
    = (λ k, match attempt_failure (service E k) with
            | Some e => rate_limit_wait rate_delay e
            | None => PNone
            end) <$> seq (requests_issued w) (length attempts).
Proof.
  intros Hdelay Hlimited. revert w. induction attempts as [|a attempts IH]; intros w.
  { exists []. cbn. by rewrite app_nil_r. }
  destruct (Hlimited (requests_issued w)) as (e & He & Hrate & Hacc).
  rewrite (attempt_loop_rate_limit_failure a attempts w e rate_delay Hdelay He Hrate Hacc).
  set (seconds := rate_limit_wait rate_delay e).
  destruct (IH (log (EvSleep seconds) (log (EvRequest model_name prompt) w)))
    as (evs & Hret & Htrace & Hsleeps).
  exists (EvRequest model_name prompt :: EvSleep seconds :: evs).
  rewrite Htrace. cbn [log trace]. rewrite <- !(assoc_L (++)). split_and!; [done..|].
  rewrite !sleeps_of_cons, Hsleeps, !requests_issued_log. cbn [is_request length seq fmap list_fmap].
  rewrite He. fold seconds.
  by replace (requests_issued w + 1 + 0)%nat with (S (requests_issued w)) by lia.
Qed.

End retry_delays.

(** X21. The delays between the attempts of the executor, on a registered
    model. When every attempt fails with an error that is not of the
    rate-limit class and [time.sleep()] takes the delays, it sleeps
    [DEFAULT_RETRY_DELAY * (attempt + 1)] seconds after each attempt but the
    last: 2, 4, 6, ... seconds, a delay that grows linearly. When every
    attempt fails with a rate-limit error whose suggested wait, if it has one,
    is taken by [int()] and [time.sleep()], it sleeps after every attempt, the
    last included, the wait that the error message suggests or else the
    governor's delay for the model, and then returns [None]. When the first
    attempt fails with a rate-limit error whose suggested wait [int()] or
    [time.sleep()] turns down, the call ends at once with their exception,
    after one request and without a sleep. *)
Theorem executor_retry_delays (E : env) (max_retries : Z) (prompt model_name : string)
    (w : world) :
  is_Some (AVAILABLE_MODELS !! model_name) →
  ∃ evs,
    trace (generate_content E max_retries prompt model_name w).2 = trace w ++ evs ∧
    ((∀ k, ∃ e, attempt_failure (service E k) = Some e ∧
                is_rate_limit_error (exn_msg e) = false) →
     (∀ attempt, 0 ≤ attempt < max_retries - 1 →
        sleep_error E (DEFAULT_RETRY_DELAY * (attempt + 1)) = None) →
     sleeps_of evs = (λ attempt, PInt (DEFAULT_RETRY_DELAY * (attempt + 1)))
                     <$> seqZ 0 (max_retries - 1)) ∧
    ((∀ k, ∃ e, attempt_failure (service E k) = Some e ∧
                is_rate_limit_error (exn_msg e) = true ∧ delay_accepted E e) →
     ∃ rate_delay,
       get_rate_limit_delay model_name = Ret rate_delay ∧
       (generate_content E max_retries prompt model_name w).1 = Ret None ∧
       sleeps_of evs
       = (λ k, match attempt_failure (service E k) with
               | Some e => rate_limit_wait rate_delay e
               | None => PNone
               end) <$> seq (requests_issued w) (Z.to_nat max_retries)) ∧
    (∀ e e' group,
       1 ≤ max_retries →
       attempt_failure (service E (requests_issued w)) = Some e →
       is_rate_limit_error (exn_msg e) = true →
       retry_delay_search (exn_msg e) = Some group →
       (py_int E group = Raise e' ∨
        ∃ suggested_delay,
          py_int E group = Ret suggested_delay ∧
          sleep_error E suggested_delay = Some e') →
       (generate_content E max_retries prompt model_name w).1 = Raise e' ∧
       evs = [EvRequest model_name prompt]).
Proof.
  intros Hreg. rewrite generate_content_registered by done.
  destruct (attempt_loop_trace E max_retries prompt model_name (seqZ 0 max_retries) w)
    as (evs & Htrace & _).
  exists evs. split; [done|]. split_and!.
  - intros Hplain Hsleep. destruct (decide (1 ≤ max_retries)) as [Hr|Hr].
    + destruct (attempt_loop_plain_failures E max_retries prompt model_name
                  (Z.to_nat max_retries - 1) 0 w Hplain Hsleep)
        as (evs' & Htrace' & Hsleeps); [lia|lia|].
      replace (Z.of_nat (S (Z.to_nat max_retries - 1))) with max_retries
        in Htrace' by lia.
      rewrite Htrace in Htrace'. apply app_inv_head in Htrace' as ->.
      rewrite Hsleeps. do 2 f_equal. lia.
    + rewrite seqZ_nil in Htrace by lia. cbn in Htrace.
      rewrite <- (app_nil_r (trace w)) in Htrace at 1.
      apply app_inv_head in Htrace as <-. by rewrite seqZ_nil by lia.
  - intros Hlimited.
    destruct (get_rate_limit_delay_returns model_name) as [rate_delay Hdelay].
    destruct (attempt_loop_rate_limited E max_retries prompt model_name
                (seqZ 0 max_retries) w rate_delay Hdelay Hlimited)
      as (evs' & Hret & Htrace' & Hsleeps).
    rewrite Htrace in Htrace'. apply app_inv_head in Htrace' as ->.
    exists rate_delay. rewrite length_seqZ in Hsleeps. done.
  - intros e e' group Hr He Hrate Hgroup Hno.
    rewrite seqZ_cons in Htrace |- * by lia.
    pose proof (attempt_loop_step E max_retries prompt model_name 0
                  (seqZ (Z.succ 0) (Z.pred max_retries)) w) as Hstep.
    cbn zeta in Hstep. rewrite He in Hstep.
    rewrite (handle_failure_rejected E max_retries model_name 0 e e' group) in Hstep
      by done.
    rewrite Hstep in Htrace |- *. split; [done|].
    cbn [snd log trace] in Htrace. by apply app_inv_head in Htrace.
Qed.

Lemma executor_retry_delays_witness :
  ∃ evs,
    trace (generate_content Scenario.down 4 "prompt" Scenario.flash Scenario.fresh).2
    = trace Scenario.fresh ++ evs ∧
    sleeps_of evs = [PInt 2; PInt 4; PInt 6].
Proof.
  destruct (executor_retry_delays Scenario.down 4 "prompt" Scenario.flash Scenario.fresh)
    as (evs & Htrace & Hplain & _).
  - eexists. reflexivity.
  - exists evs. split; [exact Htrace|].
    apply Hplain.
    + intros k. eexists. split; reflexivity.
    + intros attempt Hattempt.
      assert (attempt = 0 ∨ attempt = 1 ∨ attempt = 2) as [->|[->| ->]] by lia;
        reflexivity.
Defined.

(** ** What is sent *)

Lemma sends_only_impl (model_name : string) (allowed allowed' : string → Prop)
    (ev : event) :
  (∀ prompt, allowed prompt → allowed' prompt) →
  sends_only model_name allowed ev → sends_only model_name allowed' ev.
Proof. intros Himpl. destruct ev; cbn; [|done..]. intros [-> Hp]. auto. Qed.

Lemma attempt_loop_sends (E : env) (max_retries : Z) (prompt model_name : string)
    (attempts : list Z) (w : world) :
  ∃ evs,
    trace (attempt_loop E max_retries prompt model_name attempts w).2 = trace w ++ evs ∧
    Forall (sends_only model_name (λ prompt', prompt' = prompt)) evs.
Proof.
  revert w. induction attempts as [|attempt rest IH]; intros w.
  { exists []. cbn. by rewrite app_nil_r. }
  pose proof (attempt_loop_step E max_retries prompt model_name attempt rest w) as Hstep.
  cbn zeta in Hstep.
  destruct (attempt_failure _) as [e|].
  - rewrite Hstep. destruct (handle_failure _ _ _ _ _) as [seconds|e'].
    + destruct (IH (log (EvSleep seconds) (log (EvRequest model_name prompt) w)))
        as (evs & Htrace & Hsends).
      exists (EvRequest model_name prompt :: EvSleep seconds :: evs).
      rewrite Htrace, !trace_log, <- !(assoc_L (++)). split; [done|].
      by repeat constructor.
    + exists [EvRequest model_name prompt]. split; [done|].
      by repeat constructor.
  - destruct Hstep as (text & _ & _ & ->).
    exists [EvRequest model_name prompt]. split; [done|]. by repeat constructor.
Qed.

Section sends.

Context (E : env) (max_retries : Z).
Context (codebook : list codebook_row) (master_template model_name : string).
Context (rate_delay : float) (n_runs : Z).

Lemma run_once_sends (s : sample) (sample_id prompt : string) (run_num : Z)
    (st : loop_state) (w : world) :
  ∃ evs,
    trace (run_once E max_retries model_name s sample_id prompt run_num st w).2
    = trace w ++ evs ∧
    Forall (sends_only model_name (λ prompt', prompt' = prompt)) evs.
Proof.
  destruct (run_once_cases E max_retries model_name s sample_id prompt run_num st w)
    as (tried & w1 & Htry & _ & ->). cbn zeta.
  assert (∃ evs, trace w1 = trace w ++ evs ∧
                 Forall (sends_only model_name (λ prompt', prompt' = prompt)) evs)
    as (evs & Htrace & Hsends).
  { unfold try_run, generate_content in Htry.
    destruct (AVAILABLE_MODELS !! model_name).
    - destruct (attempt_loop_sends E max_retries prompt model_name
                  (seqZ 0 max_retries) w) as (evs & Htrace & Hsends).
      destruct (attempt_loop _ _ _ _ _ _). injection Htry as _ <-. eauto.
    - injection Htry as _ <-. exists []. by rewrite app_nil_r. }
  assert (Hsaved : ∀ ok,
    Forall (sends_only model_name (λ prompt', prompt' = prompt)) (evs ++ [EvAppend ok])).
  { intros ok. apply Forall_app. split; [done|]. by repeat constructor. }
  destruct tried as [full_result|e].
  - eexists. cbn. rewrite Htrace, <- (assoc_L (++)). split; [done|]. apply Hsaved.
  - destruct (is_quota_error e); [by eauto|].
    eexists. cbn. rewrite Htrace, <- (assoc_L (++)). split; [done|]. apply Hsaved.
Qed.

Lemma run_remaining_sends (s : sample) (sample_id prompt : string) (runs : list Z)
    (st : loop_state) (w : world) :
  ∃ evs,
    trace (run_remaining E max_retries model_name rate_delay s sample_id prompt runs st w).2
    = trace w ++ evs ∧
    Forall (sends_only model_name (λ prompt', prompt' = prompt)) evs.
Proof.
  revert st w. induction runs as [|run_num runs IH]; intros st w.
  { exists []. cbn. by rewrite app_nil_r. }
  cbn [run_remaining].
  destruct (resource_exhausted st).
  { exists []. cbn. by rewrite app_nil_r. }
  destruct (run_once_sends s sample_id prompt run_num st w) as (evs & Htrace & Hsends).
  destruct (run_once _ _ _ _ _ _ _ _ _) as [[stop st1] w1]. cbn in Htrace.
  destruct stop; [by eauto|].
  destruct (IH st1 (log (EvSleep (PFloat rate_delay)) w1)) as (evs' & Htrace' & Hsends').
  exists (evs ++ EvSleep (PFloat rate_delay) :: evs').
  rewrite Htrace', trace_log, Htrace, <- !(assoc_L (++)). split; [done|].
  apply Forall_app. split; [done|]. by constructor.
Qed.

Lemma process_samples_sends (samples : list sample) (idx : Z) (st : loop_state) (w : world) :
  ∃ evs,
    trace (process_samples E max_retries codebook master_template model_name rate_delay
             n_runs idx samples st w).2 = trace w ++ evs ∧
    Forall (sends_only model_name
              (λ prompt, ∃ s, s ∈ samples ∧
                 build_prompt_for_sample master_template s codebook = Some prompt)) evs.
Proof.
  revert idx st w. induction samples as [|s samples IH]; intros idx st w.
  { exists []. cbn. by rewrite app_nil_r. }
  assert (Hrest : ∀ st1 w1,
    ∃ evs,
      trace (process_samples E max_retries codebook master_template model_name rate_delay
               n_runs (idx + 1) samples st1 w1).2 = trace w1 ++ evs ∧
      Forall (sends_only model_name
                (λ prompt, ∃ s', s' ∈ s :: samples ∧
                   build_prompt_for_sample master_template s' codebook = Some prompt))
             evs).
  { intros st1 w1. destruct (IH (idx + 1) st1 w1) as (evs & Htrace & Hsends).
    exists evs. split; [done|]. eapply Forall_impl; [exact Hsends|].
    intros ev. apply sends_only_impl. intros prompt (s' & Hs' & Hp).
    exists s'. split; [by apply list_elem_of_further|done]. }
  cbn [process_samples].
  destruct (build_prompt_for_sample _ _ _) as [prompt|] eqn:Hprompt; [|by apply Hrest].
  destruct (remaining_runs _ _ _) as [|run_num runs]; [by apply Hrest|].
  destruct (run_remaining_sends s (default ("row_" +:+ pretty idx) (sample_id s)) prompt
              (run_num :: runs) st w) as (evs & Htrace & Hsends).
  destruct (run_remaining _ _ _ _ _ _ _ _ _ _) as [st1 w1]. cbn [fst snd] in Htrace.
  assert (Forall (sends_only model_name
                    (λ prompt, ∃ s', s' ∈ s :: samples ∧
                       build_prompt_for_sample master_template s' codebook = Some prompt))
                 evs) as Hsends'.
  { eapply Forall_impl; [exact Hsends|]. intros ev. apply sends_only_impl.
    intros prompt' ->. exists s. split; [apply list_elem_of_here|done]. }
  destruct (resource_exhausted (count_processed st1)); [by eauto|].
  destruct (Hrest (count_processed st1) w1) as (evs' & Htrace' & Hsends'').
  exists (evs ++ evs'). rewrite Htrace', Htrace, <- (assoc_L (++)). split; [done|].
  by apply Forall_app.
Qed.

End sends.

(** X22. Every request of an invocation goes to the model that was asked
    for and carries the prompt built for a sample of the test data whose code
    is in the codebook; nothing else is sent. *)
Theorem only_prompts_of_the_data_are_sent (E : env) (max_retries : Z)
    (codebook : list codebook_row) (test_data : list sample) (master_template : string)
    (model_name dataset_filename : string) (n_runs : Z) (w : world) :
  ∃ evs,
    trace (run_pilot_study E max_retries codebook test_data master_template model_name
             dataset_filename n_runs w).2 = trace w ++ evs ∧
    Forall (sends_only model_name
              (λ prompt, ∃ s, s ∈ test_data ∧
                 build_prompt_for_sample master_template s codebook = Some prompt)) evs.
Proof.
  unfold run_pilot_study.
  destruct (get_rate_limit_delay_returns model_name) as [rate_delay ->].
  destruct (load_existing_results (ledger w)) as [existing completed].
  case_bool_decide.
  { exists []. cbn. by rewrite app_nil_r. }
  destruct (process_samples_sends E max_retries codebook master_template model_name
              rate_delay n_runs (set_dataset_name dataset_filename <$> test_data) 0
              {| completed_runs := completed; processed_samples := 0;
                 new_results_count := 0; resource_exhausted := false |} w)
    as (evs & Htrace & Hsends).
  destruct (process_samples _ _ _ _ _ _ _ _ _ _ _) as [st1 w1].
  exists evs. split; [done|]. eapply Forall_impl; [exact Hsends|].
  intros ev. apply sends_only_impl. intros prompt (s' & Hs' & Hp).
  apply list_elem_of_fmap in Hs' as (s & -> & Hs).
  exists s. split; [done|]. by rewrite build_prompt_set_dataset_name in Hp.
Qed.

(** * Resuming an invocation *)

Lemma records_of_app (lines : list line) (appended : list (gmap string pyval)) :
  records_of (lines ++ (LJson ∘ PDict <$> appended))
  = records_of lines ++ (PDict <$> appended).
Proof.
  unfold records_of. rewrite omap_app. f_equal.
  induction appended as [|v appended IH]; [done|]. cbn. by rewrite IH.
Qed.

Lemma forallb_line_ok_records (appended : list (gmap string pyval)) (lines : list line) :
  forallb line_ok (lines ++ (LJson ∘ PDict <$> appended)) = true →
  forallb line_ok lines = true.
Proof. rewrite forallb_app. by intros [? _]%andb_prop. Qed.

(** The loop only appends records to the ledger, and counts them. *)
Lemma process_samples_grows_by_records (E : env) (max_retries : Z)
    (codebook : list codebook_row) (master_template model_name : string)
    (rate_delay : float) (n_runs : Z) (samples : list sample) (idx : Z)
    (st : loop_state) (w : world) :
  grows_by_records (st, w)
    (process_samples E max_retries codebook master_template model_name rate_delay
       n_runs idx samples st w).
Proof.
  apply (process_samples_relation E max_retries codebook master_template model_name
           rate_delay n_runs (λ _, True) grows_by_records).
  - apply grows_by_records_refl.
  - apply grows_by_records_trans.
  - intros s idx' prompt run_num st' w' _. apply run_once_grows_by_records.
  - intros st' w'. by apply grows_by_records_same.
  - intros st' w'. by apply grows_by_records_same.
  - by apply Forall_true.
Qed.

(** When every outstanding run of every sample is in the completion set, the
    loop issues nothing: it only counts the samples that are not skipped. *)
Lemma process_samples_complete (E : env) (max_retries : Z)
    (codebook : list codebook_row) (master_template model_name : string)
    (rate_delay : float) (n_runs : Z) (samples : list sample) (idx : Z)
    (st : loop_state) (w : world) :
  (∀ (i : nat) (s : sample),
     samples !! i = Some s →
     is_Some (build_prompt_for_sample master_template s codebook) →
     ∀ k, 1 ≤ k ≤ n_runs →
       (KStr (default ("row_" +:+ pretty (idx + Z.of_nat i)) (sample_id s)), KInt k)
       ∈ completed_runs st) →
  process_samples E max_retries codebook master_template model_name rate_delay n_runs
    idx samples st w
  = ({| completed_runs := completed_runs st;
        processed_samples :=
          processed_samples st
          + Z.of_nat (length (filter (λ s, matched codebook s = true) samples));
        new_results_count := new_results_count st;
        resource_exhausted := resource_exhausted st |}, w).
Proof.
  revert idx st. induction samples as [|s samples IH]; intros idx st Hall.
  { destruct st. cbn. by rewrite Z.add_0_r. }
  assert (Hrest : ∀ st', completed_runs st' = completed_runs st →
    ∀ (i : nat) (s' : sample), samples !! i = Some s' →
      is_Some (build_prompt_for_sample master_template s' codebook) →
      ∀ k, 1 ≤ k ≤ n_runs →
        (KStr (default ("row_" +:+ pretty (idx + 1 + Z.of_nat i)) (sample_id s')), KInt k)
        ∈ completed_runs st').
  { intros st' -> i s' Hi Hs' k Hk.
    replace (idx + 1 + Z.of_nat i) with (idx + Z.of_nat (S i)) by lia.
    by apply (Hall (S i)). }
  cbn [process_samples].
  destruct (build_prompt_for_sample _ s _) as [prompt|] eqn:Hprompt.
  - assert (matched codebook s = true) as Hm
      by (apply (build_prompt_matched master_template); rewrite Hprompt; eauto).
    rewrite remaining_runs_nil.
    + rewrite (IH (idx + 1) (count_processed st) (Hrest _ eq_refl)).
      rewrite filter_cons_True by done. cbn. do 2 f_equal. lia.
    + intros k Hk. specialize (Hall 0%nat s eq_refl (mk_is_Some _ _ Hprompt) k Hk).
      by rewrite Z.add_0_r in Hall.
  - assert (matched codebook s ≠ true) as Hm.
    { intros Hm. apply (build_prompt_matched master_template) in Hm.
      rewrite Hprompt in Hm. by destruct Hm. }
    rewrite filter_cons_False by done. apply IH, Hrest. done.
Qed.

(** Re-invoking on a readable ledger that is complete does nothing. *)
Lemma resume_is_noop (E : env) (max_retries : Z)
    (codebook : list codebook_row) (test_data : list sample) (master_template : string)
    (model_name dataset_filename : string) (n_runs : Z) (w : world) :
  readable (ledger w) = true →
  complete codebook master_template test_data n_runs (ledger w) →
  ∃ stats,
    run_pilot_study E max_retries codebook test_data master_template model_name
      dataset_filename n_runs w = (Ret stats, w) ∧
    stat_new_results_generated stats = 0 ∧
    stat_total_completed stats = Z.of_nat (length (records_of (lines_of (ledger w)))) ∧
    stat_success_rate stats = calculate_success_rate (ledger w) ∧
    stat_processed_samples stats
    = Z.of_nat (length
        (if bool_decide (Z.of_nat (size (load_existing_results (ledger w)).2)
                         = total_expected_runs test_data n_runs)
         then test_data
         else filter (λ s, matched codebook s = true) test_data)).
Proof.
  intros Hread Hcomplete. unfold run_pilot_study.
  destruct (get_rate_limit_delay_returns model_name) as [rate_delay ->].
  rewrite load_existing_results_file, Hread. cbn [snd].
  assert (total_expected_runs (set_dataset_name dataset_filename <$> test_data) n_runs
          = total_expected_runs test_data n_runs) as ->
    by (unfold total_expected_runs; by rewrite length_fmap).
  case_bool_decide.
  { eexists. split; [reflexivity|]. cbn. by rewrite length_fmap. }
  rewrite (process_samples_complete E max_retries codebook master_template model_name
             rate_delay n_runs (set_dataset_name dataset_filename <$> test_data) 0).
  - eexists. split; [reflexivity|]. cbn.
    rewrite length_filter_matched_fmap. split_and!; [done|lia|done|done].
  - cbn. intros i s' Hi Hs' k Hk.
    rewrite list_lookup_fmap in Hi.
    destruct (test_data !! i) as [s|] eqn:Hs; [|done]. injection Hi as <-.
    rewrite build_prompt_set_dataset_name in Hs'.
    apply has_success_record_lines. by apply (Hcomplete i s).
Qed.

(** What an invocation reports when it found a ledger that ends in a line
    end and leaves a readable ledger behind: the number of records of the
    ledger, and its success rate. *)
Lemma run_reports_ledger (E : env) (max_retries : Z)
    (codebook : list codebook_row) (test_data : list sample) (master_template : string)
    (model_name dataset_filename : string) (n_runs : Z) (w w' : world)
    (r : outcome execution_stats) :
  run_pilot_study E max_retries codebook test_data master_template model_name
    dataset_filename n_runs w = (r, w') →
  terminated (ledger w) = true →
  readable (ledger w') = true →
  ∃ stats,
    r = Ret stats ∧
    stat_total_completed stats = Z.of_nat (length (records_of (lines_of (ledger w')))) ∧
    stat_success_rate stats = calculate_success_rate (ledger w').
Proof.
  intros Hrun Hterm Hread'. revert Hrun. unfold run_pilot_study.
  destruct (get_rate_limit_delay_returns model_name) as [rate_delay ->].
  rewrite load_existing_results_file.
  destruct (readable (ledger w)) eqn:Hw.
  - case_bool_decide; [intros [= <- <-]; eauto|].
    pose proof (process_samples_grows_by_records E max_retries codebook master_template
      model_name rate_delay n_runs (set_dataset_name dataset_filename <$> test_data) 0
      {| completed_runs := success_pairs (lines_of (ledger w));
         processed_samples := 0; new_results_count := 0;
         resource_exhausted := false |} w) as (appended & Hlines & Hnew & _).
    destruct (process_samples _ _ _ _ _ _ _ _ _ _ _) as [st1 w1].
    intros [= <- <-]. cbn in Hlines, Hnew.
    destruct (written_records_terminated _ _ _ Hterm Hlines) as [_ Hlines'].
    eexists. split; [reflexivity|]. cbn.
    rewrite Hlines', records_of_app, length_app, length_fmap, Hnew. split; [lia|done].
  - case_bool_decide; [intros [= <- <-]; congruence|].
    pose proof (process_samples_grows_by_records E max_retries codebook master_template
      model_name rate_delay n_runs (set_dataset_name dataset_filename <$> test_data) 0
      {| completed_runs := ∅;
         processed_samples := 0; new_results_count := 0;
         resource_exhausted := false |} w) as (appended & Hlines & Hnew & _).
    destruct (process_samples _ _ _ _ _ _ _ _ _ _ _) as [st1 w1].
    intros [= <- <-]. cbn in Hlines.
    destruct (written_records_terminated _ _ _ Hterm Hlines) as [_ Hlines'].
    unfold readable in Hread', Hw. rewrite Hlines' in Hread'.
    apply forallb_line_ok_records in Hread'. congruence.
Qed.

(** The runs that remain for a sample depend only on the pairs of its own
    sample id. *)
Lemma remaining_runs_agree (completed completed' : completion) (sample_id : string)
    (n_runs : Z) :
  (∀ k, (KStr sample_id, KInt k) ∈ completed ↔ (KStr sample_id, KInt k) ∈ completed') →
  remaining_runs completed sample_id n_runs = remaining_runs completed' sample_id n_runs.
Proof.
  intros Hagree. unfold remaining_runs. apply list_filter_iff. intros k.
  by rewrite !elem_of_sample_completed_runs, Hagree.
Qed.

Lemma outstanding_runs_agree (codebook : list codebook_row) (master_template : string)
    (n_runs : Z) (completed completed' : completion) (idx : Z) (samples : list sample) :
  (∀ id k, id ∈ effective_ids idx samples →
     (KStr id, KInt k) ∈ completed ↔ (KStr id, KInt k) ∈ completed') →
  outstanding_runs codebook master_template n_runs completed idx samples
  = outstanding_runs codebook master_template n_runs completed' idx samples.
Proof.
  revert idx. induction samples as [|s samples IH]; intros idx Hagree; [done|].
  cbn [outstanding_runs effective_ids] in *. rewrite IH.
  - destruct (build_prompt_for_sample _ _ _); [|done].
    rewrite (remaining_runs_agree completed completed'); [done|].
    intros k. apply Hagree, list_elem_of_here.
  - intros id k Hid. by apply Hagree, list_elem_of_further.
Qed.

Lemma error_record_identity (timestamp : string) (s : sample) (error : exn)
    (run_number : Z) (model_name : string) :
  let record := create_error_record timestamp s error run_number model_name in
  record !! "sample_id"
  = Some (PStr (default ("row_" +:+ pretty (name s)) (sample_id s))) ∧
  record !! "run_number" = Some (PInt run_number).
Proof.
  cbn zeta. unfold create_error_record.
  rewrite !lookup_with_id_created_at_ne by discriminate. split; record_lookup.
Qed.

(** What the loop attempts, when no payload defines the identity of a record
    and every append goes through. *)
Section schedule.

Context (E : env) (max_retries : Z).
Context (codebook : list codebook_row) (master_template model_name : string).
Context (rate_delay : float) (n_runs : Z).
Hypothesis payloads : payload_keeps_identity E.
Hypothesis appends : appends_succeed E.

(** One pass of the inner loop: the breaker trips and nothing is written, or
    one record is appended, which carries the sample id and the run index. *)
Lemma run_once_attempt (s : sample) (sid prompt : string) (run_num : Z)
    (st : loop_state) (w : world) :
  sample_id s = Some sid →
  ∃ stop st1 w1,
    run_once E max_retries model_name s sid prompt run_num st w = (stop, st1, w1) ∧
    completed_runs st ⊆ completed_runs st1 ∧
    (∀ p, p ∈ completed_runs st1 →
          p ∈ completed_runs st ∨ p = (KStr sid, KInt run_num)) ∧
    if stop then resource_exhausted st1 = true ∧ ledger w1 = ledger w
    else resource_exhausted st1 = resource_exhausted st ∧
         ∃ record,
           ledger w1 = Some (written (ledger w) ++ [LJson (PDict record)]) ∧
           record !! "sample_id" = Some (PStr sid) ∧
           record !! "run_number" = Some (PInt run_num).
Proof.
  intros Hsid.
  destruct (run_once_cases E max_retries model_name s sid prompt run_num st w)
    as (tried & w1 & Htry & Hl & ->). cbn zeta. rewrite appends.
  destruct tried as [full_result|e].
  - eexists _, _, _. split; [reflexivity|]. cbn. split_and!.
    + intros p Hp. apply elem_of_union. by right.
    + intros p [Hp%elem_of_singleton|Hp]%elem_of_union; auto.
    + done.
    + eexists. split; [reflexivity|].
      apply try_run_ret in Htry as (k & text & d & Hk & Hd & ->).
      destruct (payloads k text d Hk Hd) as (H1 & H2 & H3).
      destruct (success_metadata_identity (now E (length (trace w1))) s run_num
                  model_name (stopwatch E (length (trace w1)))) as (_ & M2 & M3).
      rewrite !lookup_union_r by done. rewrite M2, M3, Hsid. done.
  - destruct (is_quota_error e).
    + eexists _, _, _. split; [reflexivity|]. cbn. split_and!; auto.
    + eexists _, _, _. split; [reflexivity|]. cbn. split_and!; auto.
      eexists. split; [reflexivity|].
      destruct (error_record_identity (now E (length (trace w1))) s e run_num
                  model_name) as [M2 M3].
      rewrite M2, M3, Hsid. done.
Qed.

(** The inner loop: a record for each run of the list, in order, up to the
    run that trips the breaker. *)
Lemma run_remaining_attempts (s : sample) (sid prompt : string) (runs : list Z)
    (st : loop_state) (w : world) :
  sample_id s = Some sid →
  resource_exhausted st = false →
  ∃ st' w' appended,
    run_remaining E max_retries model_name rate_delay s sid prompt runs st w = (st', w') ∧
    written (ledger w') = written (ledger w) ++ (LJson ∘ PDict <$> appended) ∧
    Forall (λ record : gmap string pyval,
              ∃ k, k ∈ runs ∧
                   record !! "sample_id" = Some (PStr sid) ∧
                   record !! "run_number" = Some (PInt k)) appended ∧
    (length appended + (if resource_exhausted st' then 1 else 0) ≤ length runs)%nat ∧
    (resource_exhausted st' = false → length appended = length runs) ∧
    completed_runs st ⊆ completed_runs st' ∧
    (∀ p, p ∈ completed_runs st' →
          p ∈ completed_runs st ∨ ∃ k, p = (KStr sid, KInt k)).
Proof.
  intros Hsid. revert st w. induction runs as [|run_num runs IH]; intros st w Hst.
  { exists st, w, []. cbn. rewrite app_nil_r, Hst.
    split_and!; [done|done|constructor|lia|done|done|auto]. }
  cbn [run_remaining]. rewrite Hst.
  destruct (run_once_attempt s sid prompt run_num st w Hsid)
    as (stop & st1 & w1 & -> & Hsub & Hnew & Hstop).
  destruct stop.
  - destruct Hstop as [Hx Hl]. exists st1, w1, []. cbn. rewrite app_nil_r, Hx, Hl.
    split_and!; [done|done|constructor|lia|done|done|].
    intros p Hp. destruct (Hnew p Hp); eauto.
  - destruct Hstop as (Hx & record & Hl & R1 & R2). rewrite Hst in Hx.
    destruct (IH st1 (log (EvSleep (PFloat rate_delay)) w1) Hx)
      as (st' & w' & appended & -> & Hwritten & Hall & Hle & Heq & Hsub' & Hnew').
    exists st', w', (record :: appended).
    cbn [log ledger] in Hwritten. rewrite Hl in Hwritten.
    cbn [written default from_option id] in Hwritten.
    split_and!.
    + done.
    + rewrite Hwritten, <- (assoc_L (++)). done.
    + constructor.
      * exists run_num. split; [apply list_elem_of_here|done].
      * eapply Forall_impl; [exact Hall|]. cbn. intros r (k & Hk & Hr).
        exists k. split; [by apply list_elem_of_further|done].
    + cbn [length]. lia.
    + intros Hno. cbn [length]. by rewrite Heq.
    + by etrans.
    + intros p Hp. destruct (Hnew' p Hp) as [Hp1|Hp1]; [|by right].
      destruct (Hnew p Hp1); eauto.
Qed.

(** The loop over the samples: a record for each outstanding run, up to the
    run that trips the breaker, and none for a run of the completion set. *)
Lemma process_samples_attempts (samples : list sample) (idx : Z)
    (st : loop_state) (w : world) :
  Forall (λ s, is_Some (sample_id s)) samples →
  resource_exhausted st = false →
  ∃ st' w' appended,
    process_samples E max_retries codebook master_template model_name rate_delay n_runs
      idx samples st w = (st', w') ∧
    written (ledger w') = written (ledger w) ++ (LJson ∘ PDict <$> appended) ∧
    Forall (λ record : gmap string pyval,
              ∃ id k, id ∈ effective_ids idx samples ∧
                      record !! "sample_id" = Some (PStr id) ∧
                      record !! "run_number" = Some (PInt k) ∧
                      1 ≤ k ≤ n_runs ∧
                      (KStr id, KInt k) ∉ completed_runs st) appended ∧
    (length appended + (if resource_exhausted st' then 1 else 0)
     ≤ outstanding_runs codebook master_template n_runs (completed_runs st) idx samples)%nat ∧
    (resource_exhausted st' = false →
     NoDup (effective_ids idx samples) →
     length appended
     = outstanding_runs codebook master_template n_runs (completed_runs st) idx samples) ∧
    completed_runs st ⊆ completed_runs st' ∧
    (∀ p, p ∈ completed_runs st' →
          p ∈ completed_runs st ∨
          ∃ id k, id ∈ effective_ids idx samples ∧ p = (KStr id, KInt k)).
Proof.
  intros Hids. revert idx st w.
  induction Hids as [|s samples [sid Hsid] _ IH]; intros idx st w Hst.
  { exists st, w, []. cbn. rewrite app_nil_r, Hst.
    split_and!; [done|done|constructor|lia|done|done|auto]. }
  (* what the loop over the rest gives, from a state with the same or a
     larger completion set that differs only in pairs of [sid] *)
  assert (Hrest : ∀ st1 w1 (appended1 : list (gmap string pyval)),
    resource_exhausted st1 = false →
    written (ledger w1) = written (ledger w) ++ (LJson ∘ PDict <$> appended1) →
    Forall (λ record : gmap string pyval,
              ∃ k, record !! "sample_id" = Some (PStr sid) ∧
                   record !! "run_number" = Some (PInt k) ∧
                   1 ≤ k ≤ n_runs ∧ (KStr sid, KInt k) ∉ completed_runs st)
           appended1 →
    length appended1
    = match build_prompt_for_sample master_template s codebook with
      | Some _ => length (remaining_runs (completed_runs st) sid n_runs)
      | None => 0%nat
      end →
    completed_runs st ⊆ completed_runs st1 →
    (∀ p, p ∈ completed_runs st1 →
          p ∈ completed_runs st ∨ ∃ k, p = (KStr sid, KInt k)) →
    ∃ st' w' appended,
      process_samples E max_retries codebook master_template model_name rate_delay
        n_runs (idx + 1) samples st1 w1 = (st', w') ∧
      written (ledger w') = written (ledger w) ++ (LJson ∘ PDict <$> appended) ∧
      Forall (λ record : gmap string pyval,
                ∃ id k, id ∈ effective_ids idx (s :: samples) ∧
                        record !! "sample_id" = Some (PStr id) ∧
                        record !! "run_number" = Some (PInt k) ∧
                        1 ≤ k ≤ n_runs ∧
                        (KStr id, KInt k) ∉ completed_runs st) appended ∧
      (length appended + (if resource_exhausted st' then 1 else 0)
       ≤ outstanding_runs codebook master_template n_runs (completed_runs st) idx
           (s :: samples))%nat ∧
      (resource_exhausted st' = false →
       NoDup (effective_ids idx (s :: samples)) →
       length appended
       = outstanding_runs codebook master_template n_runs (completed_runs st) idx
           (s :: samples)) ∧
      completed_runs st ⊆ completed_runs st' ∧
      (∀ p, p ∈ completed_runs st' →
            p ∈ completed_runs st ∨
            ∃ id k, id ∈ effective_ids idx (s :: samples) ∧ p = (KStr id, KInt k))).
  { intros st1 w1 appended1 Hx1 Hwritten1 Hall1 Hlen1 Hsub1 Hnew1.
    destruct (IH (idx + 1) st1 w1 Hx1)
      as (st' & w' & appended & Hrun & Hwritten & Hall & Hle & Heq & Hsub & Hnew).
    exists st', w', (appended1 ++ appended).
    cbn [effective_ids outstanding_runs]. rewrite Hsid. cbn [default from_option id].
    pose proof (outstanding_runs_mono codebook master_template n_runs
                  (completed_runs st) (completed_runs st1) (idx + 1) samples Hsub1)
      as Hmono.
    split_and!.
    - done.
    - by rewrite Hwritten, Hwritten1, fmap_app, (assoc_L (++)).
    - apply Forall_app. split.
      + eapply Forall_impl; [exact Hall1|]. cbn. intros r (k & R1 & R2 & R3 & R4).
        exists sid, k. split_and!; [apply list_elem_of_here|(done || lia)..].
      + eapply Forall_impl; [exact Hall|]. cbn. intros r (id & k & R0 & R1 & R2 & R3 & R4).
        exists id, k. split_and!; [by apply list_elem_of_further|(done || lia)..|].
        intros Hin. by apply R4, Hsub1.
    - rewrite length_app, Hlen1. lia.
    - intros Hno Hdup. apply NoDup_cons in Hdup as [Hfresh Hdup].
      rewrite length_app, Hlen1, (Heq Hno Hdup). f_equal.
      apply outstanding_runs_agree. intros id k Hid. split.
      + intros Hin. destruct (Hnew1 _ Hin) as [|[k' [= -> _]]]; [done|].
        by destruct Hfresh.
      + apply Hsub1.
    - by etrans.
    - intros p Hp. destruct (Hnew p Hp) as [Hp1|(id & k & Hid & ->)].
      + destruct (Hnew1 p Hp1) as [|[k ->]]; [by left|right].
        exists sid, k. split; [apply list_elem_of_here|done].
      + right. exists id, k. split; [by apply list_elem_of_further|done]. }
  cbn [process_samples]. rewrite Hsid. cbn [default from_option id].
  destruct (build_prompt_for_sample _ _ _) as [prompt|] eqn:Hprompt.
  - destruct (remaining_runs _ _ _) as [|run_num runs] eqn:Hruns.
    + apply (Hrest (count_processed st) w []); cbn; try done.
      * by rewrite app_nil_r.
      * auto.
    + destruct (run_remaining_attempts s sid prompt (run_num :: runs) st w Hsid Hst)
        as (st1 & w1 & appended1 & -> & Hwritten1 & Hall1 & Hle1 & Heq1 & Hsub1 & Hnew1).
      assert (Forall (λ record : gmap string pyval,
                ∃ k, record !! "sample_id" = Some (PStr sid) ∧
                     record !! "run_number" = Some (PInt k) ∧
                     1 ≤ k ≤ n_runs ∧ (KStr sid, KInt k) ∉ completed_runs st)
                appended1) as Hall1'.
      { eapply Forall_impl; [exact Hall1|]. cbn. intros r (k & Hk & R1 & R2).
        rewrite <- Hruns in Hk. apply elem_of_remaining_runs in Hk as [Hk Hnot].
        exists k. done. }
      change (resource_exhausted (count_processed st1)) with (resource_exhausted st1).
      destruct (resource_exhausted st1) eqn:Hx1.
      * exists (count_processed st1), w1, appended1.
        cbn [effective_ids outstanding_runs completed_runs count_processed
             resource_exhausted].
        rewrite Hsid. cbn [default from_option id]. rewrite Hprompt, Hruns, Hx1.
        split_and!.
        -- done.
        -- done.
        -- eapply Forall_impl; [exact Hall1'|]. cbn. intros r (k & R1 & R2 & R3 & R4).
           exists sid, k. split_and!; [apply list_elem_of_here|(done || lia)..].
        -- lia.
        -- done.
        -- done.
        -- intros p Hp. destruct (Hnew1 p Hp) as [|[k ->]]; [by left|right].
           exists sid, k. split; [apply list_elem_of_here|done].
      * apply (Hrest (count_processed st1) w1 appended1); try done.
        rewrite <- Hruns in Heq1 |- *. by apply Heq1.
  - apply (Hrest st w []); cbn; try done.
    + by rewrite app_nil_r.
    + auto.
Qed.

End schedule.

(** C3, the counterexamples. First: one sample, one run, three invocations
    in a row. The first answer of the service carries a payload with a
    [sample_id] of its own, a JSON array; the payload's key wins, and the
    record goes to the ledger. The second invocation cannot hash that sample
    id, so its reader returns the empty set; the run is issued again,
    succeeds, and now the ledger has a success record for every run of every
    sample. The third invocation reads the same ledger, gets the empty set
    again, and issues the run that already succeeded once more. Second: the
    count of processed samples is not the same. An invocation finds a ledger
    with one success record of a sample that is not in the data; it runs the
    one matched sample of the two in the data, leaves a readable and complete
    ledger, and reports one processed sample. The invocation after it counts
    two pairs in the completion set, as many as two rows times one run,
    leaves at once, and reports two processed samples. Third: the total is
    not the same when the ledger found ends in a piece of a line that was cut
    off. Two rows have the same sample id; the run of the first fails and its
    error record is written after the piece, as one line with it that no
    reader decodes; the run of the second succeeds. The invocation counts two
    results; the ledger it leaves is readable and complete and holds one
    record, which is the total that the invocation after it reports. *)
Lemma resume_reports_and_reissues :
  (complete [Scenario.corn] Scenario.template [Scenario.sample_a] 1
     (ledger Scenario.second_invocation.2) ∧
   requests_issued Scenario.second_invocation.2 = 2%nat ∧
   requests_issued Scenario.third_invocation.2 = 3%nat) ∧
  (terminated (ledger Scenario.stale) = true ∧
   readable (ledger Scenario.stale_run.2) = true ∧
   complete [Scenario.corn] Scenario.template [Scenario.sample_a; Scenario.sample_u] 1
     (ledger Scenario.stale_run.2) ∧
   Scenario.stale_rerun.2 = Scenario.stale_run.2 ∧
   match Scenario.stale_run.1, Scenario.stale_rerun.1 with
   | Ret stats1, Ret stats2 =>
       stat_processed_samples stats1 = 1 ∧ stat_processed_samples stats2 = 2
   | _, _ => False
   end) ∧
  (terminated (ledger Scenario.torn) = false ∧
   readable (ledger Scenario.torn_run.2) = true ∧
   complete [Scenario.corn] Scenario.template [Scenario.sample_a; Scenario.sample_a] 1
     (ledger Scenario.torn_run.2) ∧
   Z.of_nat (length (records_of (lines_of (ledger Scenario.torn_run.2)))) = 1 ∧
   match Scenario.torn_run.1, Scenario.torn_rerun.1 with
   | Ret stats1, Ret stats2 =>
       stat_total_completed stats1 = 2 ∧ stat_total_completed stats2 = 1
   | _, _ => False
   end).
Proof.
  split_and!.
  - apply completeb_complete. by vm_compute.
  - by vm_compute.
  - by vm_compute.
  - reflexivity.
  - by vm_compute.
  - apply completeb_complete. by vm_compute.
  - by vm_compute.
  - by vm_compute.
  - reflexivity.
  - by vm_compute.
  - apply completeb_complete. by vm_compute.
  - by vm_compute.
  - by vm_compute.
Qed.

(** C3, amended. Let an invocation find a ledger that ends in a line end, let
    all its appends go through, and let it leave behind a ledger that is
    readable (every line is read and is blank, rejected by the decoder with a
    [JSONDecodeError], or a JSON object whose sample id and run index can be
    hashed when its success flag is true) and complete (a success record for
    every run index 1..N of every sample that is not skipped). Then any
    further invocation on the same ledger and data returns and leaves the
    world as it is (no request, no sleep, no append), reports no new result,
    and reports the same total of results and the same success rate as the
    invocation before it: the number of records of the ledger and its success
    rate. The processed samples it reports are all the rows of the data when
    the completion set has as many pairs as rows times runs, and else the
    samples that are not skipped; the invocation before it may have reported
    another number. And the loop attempts the runs that are outstanding and no
    other: from any state in which the breaker is off, when no payload defines
    [success], [sample_id] or [run_number], the samples carry a sample id, the
    ledger ends in a line end and every append goes through, the loop appends
    records to the ledger, each for a sample of the data and a run index of
    1..N whose pair is not in the completion set; they are at most as many as
    there are outstanding runs, one less at least when the breaker tripped,
    and exactly as many when it did not and the sample ids are distinct. *)
Theorem idempotent_resume (E E' : env) (max_retries max_retries' : Z)
    (codebook : list codebook_row) (test_data : list sample) (master_template : string)
    (model_name dataset_filename : string) (n_runs : Z) (w w1 : world)
    (r1 : outcome execution_stats) :
  run_pilot_study E max_retries codebook test_data master_template model_name
    dataset_filename n_runs w = (r1, w1) →
  terminated (ledger w) = true →
  appends_succeed E →
  readable (ledger w1) = true →
  complete codebook master_template test_data n_runs (ledger w1) →
  (∃ stats1 stats2,
     r1 = Ret stats1 ∧
     run_pilot_study E' max_retries' codebook test_data master_template model_name
       dataset_filename n_runs w1 = (Ret stats2, w1) ∧
     stat_new_results_generated stats2 = 0 ∧
     stat_total_completed stats2 = stat_total_completed stats1 ∧
     stat_total_completed stats2
     = Z.of_nat (length (records_of (lines_of (ledger w1)))) ∧
     stat_success_rate stats2 = stat_success_rate stats1 ∧
     stat_processed_samples stats2
     = Z.of_nat (length
         (if bool_decide (Z.of_nat (size (load_existing_results (ledger w1)).2)
                          = total_expected_runs test_data n_runs)
          then test_data
          else filter (λ s, matched codebook s = true) test_data))) ∧
  (∀ (E0 : env) (max_retries0 : Z) (rate_delay : float) (samples : list sample)
     (idx : Z) (st : loop_state) (w0 : world),
     payload_keeps_identity E0 →
     appends_succeed E0 →
     Forall (λ s, is_Some (sample_id s)) samples →
     terminated (ledger w0) = true →
     resource_exhausted st = false →
     ∃ st' w' appended,
       process_samples E0 max_retries0 codebook master_template model_name rate_delay
         n_runs idx samples st w0 = (st', w') ∧
       terminated (ledger w') = true ∧
       lines_of (ledger w') = lines_of (ledger w0) ++ (LJson ∘ PDict <$> appended) ∧
       Forall (λ record : gmap string pyval,
                 ∃ id k, id ∈ effective_ids idx samples ∧
                         record !! "sample_id" = Some (PStr id) ∧
                         record !! "run_number" = Some (PInt k) ∧
                         1 ≤ k ≤ n_runs ∧
                         (KStr id, KInt k) ∉ completed_runs st) appended ∧
       (length appended + (if resource_exhausted st' then 1 else 0)
        ≤ outstanding_runs codebook master_template n_runs (completed_runs st) idx
            samples)%nat ∧
       (resource_exhausted st' = false →
        NoDup (effective_ids idx samples) →
        length appended
        = outstanding_runs codebook master_template n_runs (completed_runs st) idx
            samples)).
Proof.
  intros Hrun Hterm _ Hread Hcomplete. split.
  - destruct (run_reports_ledger _ _ _ _ _ _ _ _ _ _ _ Hrun Hterm Hread)
      as (stats1 & -> & Htotal1 & Hrate1).
    destruct (resume_is_noop E' max_retries' codebook test_data master_template
                model_name dataset_filename n_runs w1 Hread Hcomplete)
      as (stats2 & Hrun2 & Hnew2 & Htotal2 & Hrate2 & Hprocessed2).
    exists stats1, stats2. split_and!.
    + reflexivity.
    + exact Hrun2.
    + exact Hnew2.
    + congruence.
    + exact Htotal2.
    + congruence.
    + exact Hprocessed2.
  - intros E0 max_retries0 rate_delay samples idx st w0 Hpayloads Happends Hids Hterm0 Hst.
    destruct (process_samples_attempts E0 max_retries0 codebook master_template
                model_name rate_delay n_runs Hpayloads Happends samples idx st w0
                Hids Hst)
      as (st' & w' & appended & Hloop & Hwritten & Hall & Hle & Heq & _).
    destruct (written_records_terminated _ _ _ Hterm0 Hwritten) as [Hterm' Hlines].
    exists st', w', appended. done.
Qed.

Lemma idempotent_resume_witness :
  (∃ stats1 stats2,
     Scenario.stale_run.1 = Ret stats1 ∧
     run_pilot_study Scenario.exhausted 1 [Scenario.corn]
       [Scenario.sample_a; Scenario.sample_u] Scenario.template Scenario.flash
       "pilot.csv" 1 Scenario.stale_run.2 = (Ret stats2, Scenario.stale_run.2) ∧
     stat_new_results_generated stats2 = 0 ∧
     stat_total_completed stats2 = stat_total_completed stats1 ∧
     stat_total_completed stats2
     = Z.of_nat (length (records_of (lines_of (ledger Scenario.stale_run.2)))) ∧
     stat_success_rate stats2 = stat_success_rate stats1 ∧
     stat_processed_samples stats2
     = Z.of_nat (length
         (if bool_decide
               (Z.of_nat (size (load_existing_results (ledger Scenario.stale_run.2)).2)
                = total_expected_runs [Scenario.sample_a; Scenario.sample_u] 1)
          then [Scenario.sample_a; Scenario.sample_u]
          else filter (λ s, matched [Scenario.corn] s = true)
                 [Scenario.sample_a; Scenario.sample_u]))) ∧
  (∀ (E0 : env) (max_retries0 : Z) (rate_delay : float) (samples : list sample)
     (idx : Z) (st : loop_state) (w0 : world),
     payload_keeps_identity E0 →
     appends_succeed E0 →
     Forall (λ s, is_Some (sample_id s)) samples →
     terminated (ledger w0) = true →
     resource_exhausted st = false →
     ∃ st' w' appended,
       process_samples E0 max_retries0 [Scenario.corn] Scenario.template Scenario.flash
         rate_delay 1 idx samples st w0 = (st', w') ∧
       terminated (ledger w') = true ∧
       lines_of (ledger w') = lines_of (ledger w0) ++ (LJson ∘ PDict <$> appended) ∧
       Forall (λ record : gmap string pyval,
                 ∃ id k, id ∈ effective_ids idx samples ∧
                         record !! "sample_id" = Some (PStr id) ∧
                         record !! "run_number" = Some (PInt k) ∧
                         1 ≤ k ≤ 1 ∧
                         (KStr id, KInt k) ∉ completed_runs st) appended ∧
       (length appended + (if resource_exhausted st' then 1 else 0)
        ≤ outstanding_runs [Scenario.corn] Scenario.template 1 (completed_runs st) idx
            samples)%nat ∧
       (resource_exhausted st' = false →
        NoDup (effective_ids idx samples) →
        length appended
        = outstanding_runs [Scenario.corn] Scenario.template 1 (completed_runs st) idx
            samples)).
Proof.
  apply (idempotent_resume Scenario.obliging Scenario.exhausted 3 1 [Scenario.corn]
           [Scenario.sample_a; Scenario.sample_u] Scenario.template Scenario.flash
           "pilot.csv" 1 Scenario.stale).
  - apply surjective_pairing.
  - reflexivity.
  - intros k. reflexivity.
  - by vm_compute.
  - apply completeb_complete. by vm_compute.
Defined.
